(** * One-Pro IMU retriever: stream framing, frame decoding and head tracking

    A shallow embedding of [main.py] (class [IMUReader]) and of
    [src/head_tracker.py] (class [HeadTracker]), with the properties of the
    design document stated and proved over it.

    - Python [bytes] are [list byte], Python [str] is [list ascii].
    - The six decoded values are IEEE-754 binary32 numbers; they are kept as
      [spec_float] values (sign, mantissa, exponent), which is what
      [struct.unpack('<f', ...)] denotes once widened to a Python float.
    - Exceptions are explicit: a computation returns [exn + A].
    - The head tracker computes on Python floats. It is embedded twice.
      [Tracker] does its arithmetic on the real numbers: it is the model for
      what holds of finite numbers whatever they are (the calibration
      counts, the means, the fields a method leaves alone, the boundary
      values of the angle wrap). [FTracker] computes on floats with their
      special values (NaN, the infinities, the negative zero), returns an
      outcome (a result, an exception, no result), and is the model for the
      range of the angles and for the fusion at rest. Neither models the
      rounding of finite results.
    - [time.time()] is an argument of the functions that read the clock. *)

From Stdlib Require Import String Ascii.
From Stdlib Require Import ZArith NArith List Bool Lia.
From Stdlib Require Import Strings.Byte.
From Stdlib Require Import Floats.SpecFloat.
From Stdlib Require Import Reals Lra.
Import ListNotations.

Set Implicit Arguments.

(* ================================================================= *)
(** ** Python primitives used by the reader *)

Module Py.

Definition bytes := list byte.
Definition str := list ascii.

(** Exceptions the decoding code can meet. *)
Inductive exn := ValueError | StructError | IndexError.

Definition result (A : Type) : Type := (exn + A)%type.
Definition ret {A} (a : A) : result A := inr a.
Definition raise {A} (e : exn) : result A := inl e.
Definition bind {A B} (c : result A) (k : A -> result B) : result B :=
  match c with
  | inl e => inl e
  | inr a => k a
  end.

Fixpoint mapM {A B} (f : A -> result B) (l : list A) : result (list B) :=
  match l with
  | [] => ret []
  | a :: l' =>
      bind (f a) (fun b => bind (mapM f l') (fun bs => ret (b :: bs)))
  end.

Section Sequences.
Context {A : Type}.

(** Index normalisation of a slice bound: negative bounds count from the
    end, and every bound is clamped to [0, len]. *)
Definition norm_index (len i : Z) : Z :=
  if (i <? 0)%Z then Z.max 0 (i + len) else Z.min i len.

(** [s[start:stop]] *)
Definition slice (s : list A) (start stop : Z) : list A :=
  let len := Z.of_nat (length s) in
  let lo := norm_index len start in
  let hi := norm_index len stop in
  firstn (Z.to_nat (hi - lo)) (skipn (Z.to_nat lo) s).

(** [s[start:]] *)
Definition slice_from (s : list A) (start : Z) : list A :=
  slice s start (Z.of_nat (length s)).

(** [s[i]] for a non-negative [i] *)
Definition index (s : list A) (i : nat) : result A :=
  match nth_error s i with
  | Some a => ret a
  | None => raise IndexError
  end.
End Sequences.

(** [range(0, stop, step)] for a positive [step]: [0, step, 2*step, ...]
    below [stop]. *)
Definition range0 (stop step : nat) : list nat :=
  map (fun k => k * step) (seq 0 ((stop + step - 1) / step)).

Fixpoint bytes_eqb (a b : bytes) : bool :=
  match a, b with
  | [], [] => true
  | x :: a', y :: b' => Byte.eqb x y && bytes_eqb a' b'
  | _, _ => false
  end.

(** [sub] occurs in [s] at position 0. *)
Fixpoint starts_with (sub s : bytes) : bool :=
  match sub, s with
  | [], _ => true
  | _ :: _, [] => false
  | x :: sub', y :: s' => Byte.eqb x y && starts_with sub' s'
  end.

(** Lowest position of [sub] in [s], if any. *)
Fixpoint find_first (sub s : bytes) : option nat :=
  match s with
  | [] => if starts_with sub [] then Some 0 else None
  | _ :: s' =>
      if starts_with sub s then Some 0
      else option_map S (find_first sub s')
  end.

(** [s.find(sub, start)] for [0 <= start]; [None] stands for [-1]. *)
Definition find (s sub : bytes) (start : nat) : option nat :=
  if length s <? start then None
  else option_map (Nat.add start) (find_first sub (skipn start s)).

(** [s.endswith(suffix)] *)
Definition endswith (s suffix : bytes) : bool :=
  (length suffix <=? length s)
  && bytes_eqb (skipn (length s - length suffix) s) suffix.

(** *** Hexadecimal text *)

Definition hex_digit (n : N) : ascii :=
  nth (N.to_nat n) (list_ascii_of_string "0123456789abcdef") "0"%char.

(** [bytes.hex()]: two lowercase digits per byte. *)
Fixpoint hex (b : bytes) : str :=
  match b with
  | [] => []
  | x :: b' =>
      hex_digit (Byte.to_N x / 16) :: hex_digit (Byte.to_N x mod 16) :: hex b'
  end.

Definition hex_value (c : ascii) : option N :=
  let n := N_of_ascii c in
  if (48 <=? n)%N && (n <=? 57)%N then Some (n - 48)%N
  else if (97 <=? n)%N && (n <=? 102)%N then Some (n - 87)%N
  else if (65 <=? n)%N && (n <=? 70)%N then Some (n - 55)%N
  else None.

Definition is_space (c : ascii) : bool :=
  let n := N_of_ascii c in
  (n =? 32)%N || ((9 <=? n)%N && (n <=? 13)%N).

(** [bytes.fromhex(s)]: pairs of hexadecimal digits, white space allowed
    between the pairs; anything else is a [ValueError]. *)
Fixpoint fromhex (s : str) : result bytes :=
  match s with
  | [] => ret []
  | c :: rest =>
      if is_space c then fromhex rest
      else
        match rest with
        | [] => raise ValueError
        | d :: rest' =>
            match hex_value c, hex_value d with
            | Some h, Some l =>
                match Byte.of_N (16 * h + l) with
                | Some x => bind (fromhex rest') (fun b => ret (x :: b))
                | None => raise ValueError
                end
            | _, _ => raise ValueError
            end
        end
  end.

(** *** IEEE-754 binary32 *)

Definition byte_val (x : byte) : Z := Z.of_N (Byte.to_N x).

(** The 32-bit word held by four bytes, least significant byte first. *)
Definition le_u32 (b0 b1 b2 b3 : byte) : Z :=
  (byte_val b0 + 256 * byte_val b1 + 65536 * byte_val b2
   + 16777216 * byte_val b3)%Z.

(** The number denoted by a binary32 bit pattern: bit 31 is the sign, bits
    30..23 the biased exponent, bits 22..0 the fraction. *)
Definition float_of_bits (x : Z) : spec_float :=
  let s := (2147483648 <=? x)%Z in
  let e := ((x / 8388608) mod 256)%Z in
  let m := (x mod 8388608)%Z in
  if (e =? 0)%Z then
    match m with
    | Zpos p => S754_finite s p (-149)
    | _ => S754_zero s
    end
  else if (e =? 255)%Z then
    match m with
    | Z0 => S754_infinity s
    | _ => S754_nan
    end
  else
    match (m + 8388608)%Z with
    | Zpos p => S754_finite s p (e - 150)
    | _ => S754_nan
    end.

(** [struct.unpack('<f', b)[0]]: [struct.error] unless [b] has 4 bytes. *)
Definition unpack_f (b : bytes) : result spec_float :=
  match b with
  | [b0; b1; b2; b3] => ret (float_of_bits (le_u32 b0 b1 b2 b3))
  | _ => raise StructError
  end.

End Py.

(* ================================================================= *)
(** ** The sample record *)

(** [IMUData] is declared twice in the source (in [main.py] and in
    [src/imu_data.py]) with the same six fields; [F] is the type of the
    numbers it holds. *)
Record IMUData (F : Type) : Type := mkIMUData {
  gx : F;  (* gyroscope X (pitch rate) *)
  gy : F;  (* gyroscope Y (yaw rate) *)
  gz : F;  (* gyroscope Z (roll rate) *)
  ax : F;  (* accelerometer X *)
  ay : F;  (* accelerometer Y *)
  az : F   (* accelerometer Z *)
}.

(* ================================================================= *)
(** ** [main.py]: class [IMUReader] *)

Module Reader.
Import Py.

Notation "x <- c ;; k" := (bind c (fun x => k))
  (at level 61, c at next level, right associativity).

Definition of_hex (s : string) : bytes :=
  match fromhex (list_ascii_of_string s) with
  | inr b => b
  | inl _ => []
  end.

(** Protocol constants *)
Definition HEADER : bytes := Eval vm_compute in of_hex "283600000080".
Definition FOOTER : bytes :=
  Eval vm_compute in of_hex "000000cff753e3a59b0000db34b6d782de1b43".
Definition SENSOR_MSG : bytes := Eval vm_compute in of_hex "00401f000040".

(** Protocol data offsets *)
Definition DATA_START_OFFSET : Z := 20.
Definition DATA_END_OFFSET : Z := -26.

Definition Sample := IMUData spec_float.

(** [decode_imu_data]: extract the IMU components from a hex string. *)
Definition decode_imu_data (hex_data : str) : result (option Sample) :=
  if length hex_data <? 48 then ret None
  else
    let chunks :=
      map (fun i => slice hex_data (Z.of_nat i) (Z.of_nat i + 8))
          (range0 (length hex_data) 8) in
    if length chunks <? 6 then ret None
    else
      let body :=
        values <- mapM (fun chunk => b <- fromhex chunk ;; unpack_f b)
                       (slice chunks 0 6) ;;
        v0 <- index values 0 ;;
        v1 <- index values 1 ;;
        v2 <- index values 2 ;;
        v5 <- index values 5 ;;
        v4 <- index values 4 ;;
        v3 <- index values 3 ;;
        ret (Some {| ax := v0; ay := v1; az := v2;
                     gx := v5; gy := v4; gz := v3 |}) in
      match body with
      | inl ValueError | inl StructError => ret None
      | other => other
      end.

(** [process_message]: process a raw message and extract the IMU data. *)
Definition process_message (message : bytes) : result (option Sample) :=
  if length message <? length HEADER + 8 + length FOOTER + 31 then ret None
  else
    (* Remove header, session ID (8 bytes), footer, and tail (31 bytes) *)
    let data :=
      slice message (Z.of_nat (length HEADER) + 8)
                    (- Z.of_nat (length FOOTER) - 31) in
    if negb (endswith data SENSOR_MSG) then ret None
    else if (Z.of_nat (length data) <? DATA_START_OFFSET + Z.abs DATA_END_OFFSET)%Z
    then ret None
    else
      let data := slice data DATA_START_OFFSET DATA_END_OFFSET in
      decode_imu_data (hex data).

(** State of [run]: the receive buffer, the message counter, and two logs:
    the arguments the callback was called with, and the messages that were
    cut out of the buffer and handed to [process_message]. *)
Record run_state : Type := mkRun {
  recv_buffer : bytes;
  message_count : nat;
  delivered : list (Sample * nat);
  framed : list bytes
}.

Definition run_init : run_state :=
  {| recv_buffer := []; message_count := 0; delivered := []; framed := [] |}.

(** One pass of the inner [while True] of [run]: [None] when the loop
    breaks, the cut message and the rest of the buffer otherwise. *)
Definition next_message (buf : bytes) : option (bytes * bytes) :=
  match find buf HEADER 0 with
  | None => None
  | Some header_pos =>
      match find buf FOOTER header_pos with
      | None => None
      | Some footer_pos =>
          let message_end := footer_pos + length FOOTER in
          Some (slice buf (Z.of_nat header_pos) (Z.of_nat message_end),
                slice_from buf (Z.of_nat message_end))
      end
  end.

(** The inner loop, "process complete messages". An exception of
    [process_message] leaves the loop with the state reached so far. *)
Fixpoint process_complete (fuel : nat) (st : run_state)
  : run_state * option exn :=
  match fuel with
  | O => (st, None)
  | S fuel' =>
      match next_message (recv_buffer st) with
      | None => (st, None)
      | Some (message, rest) =>
          let st1 := {| recv_buffer := rest;
                        message_count := message_count st;
                        delivered := delivered st;
                        framed := framed st ++ [message] |} in
          match process_message message with
          | inl e => (st1, Some e)
          | inr None => process_complete fuel' st1
          | inr (Some imu_data) =>
              let count := message_count st1 + 1 in
              process_complete fuel'
                {| recv_buffer := rest;
                   message_count := count;
                   delivered := delivered st1 ++ [(imu_data, count)];
                   framed := framed st1 |}
          end
      end
  end.

(** What [self.sock.recv(4096)] can do: return bytes (none at all when the
    device closed the connection) or time out. The list of events ends
    where the user stops the loop. *)
Inductive recv_event :=
  | Recv (data : bytes)
  | RecvTimeout.

(** [recv_buffer += data] *)
Definition push (st : run_state) (data : bytes) : run_state :=
  {| recv_buffer := recv_buffer st ++ data;
     message_count := message_count st;
     delivered := delivered st;
     framed := framed st |}.

(** The inner loop on the current buffer. Every pass removes at least the
    footer from the buffer, so the length of the buffer bounds the number
    of passes (see [process_complete_enough] and [process_buffer_exit]). *)
Definition process_buffer (st : run_state) : run_state * option exn :=
  process_complete (length (recv_buffer st)) st.

(** One pass of the outer loop once data has arrived. *)
Definition on_data (st : run_state) (data : bytes) : run_state * option exn :=
  process_buffer (push st data).

(** The outer loop of [run] over the events of the socket. *)
Fixpoint run_loop (events : list recv_event) (st : run_state)
  : run_state * option exn :=
  match events with
  | [] => (st, None)
  | RecvTimeout :: rest => run_loop rest st
  | Recv data :: rest =>
      match data with
      | [] => (st, None)
      | _ =>
          match on_data st data with
          | (st2, Some e) => (st2, Some e)
          | (st2, None) => run_loop rest st2
          end
      end
  end.

(** [run]: an exception ends the loop and is logged; the state is what the
    callback has seen. *)
Definition run (events : list recv_event) : run_state :=
  fst (run_loop events run_init).

End Reader.

(* ================================================================= *)
(** ** [src/head_tracker.py]: class [HeadTracker], on the real numbers *)

(** Every number is a real number here: a sample holds no NaN, no infinity
    and no negative zero, and the loops of [_wrap_angle] end on every
    angle. [FTracker] below has the special values. *)
Module Tracker.
Local Open Scope R_scope.

(** A sample with six real values. *)
Definition Reading := IMUData R.

Record HeadTracker : Type := mkTracker {
  (* Calibration state *)
  gyro_bias_x : R;
  gyro_bias_y : R;
  gyro_bias_z : R;
  is_calibrated : bool;
  calibration_samples : list (R * R * R);
  calibration_count : nat;
  calibration_target : nat;
  (* Head orientation (degrees) *)
  pitch : R;
  yaw : R;
  roll : R;
  (* Zero-point reference *)
  zero_pitch : R;
  zero_yaw : R;
  zero_roll : R;
  (* Timing and thresholds *)
  last_time : R;
  movement_threshold : R;
  (* Scaling factors *)
  pitch_scale : R;
  yaw_scale : R;
  roll_scale : R
}.

(** [__init__]; [now] is the value of [time.time()]. *)
Definition init (now : R) : HeadTracker :=
  {| gyro_bias_x := 0; gyro_bias_y := 0; gyro_bias_z := 0;
     is_calibrated := false;
     calibration_samples := [];
     calibration_count := 0;
     calibration_target := 500;
     pitch := 0; yaw := 0; roll := 0;
     zero_pitch := 0; zero_yaw := 0; zero_roll := 0;
     last_time := now;
     movement_threshold := 5 / 10;
     pitch_scale := 3; yaw_scale := 60; roll_scale := 1 |}.

(** Python's [sum]: starts from 0 and adds from the left. *)
Definition sum (l : list R) : R := fold_left Rplus l 0.

(** [calibrate_gyroscope]: collect samples for the bias calibration. *)
Definition calibrate_gyroscope (t : HeadTracker) (imu_data : Reading)
  : HeadTracker * bool :=
  if is_calibrated t then (t, true)
  else
    let samples :=
      calibration_samples t ++ [(gx imu_data, gy imu_data, gz imu_data)] in
    let count := (calibration_count t + 1)%nat in
    if (calibration_target t <=? count)%nat then
      (* Calculate average bias *)
      ({| gyro_bias_x :=
            sum (map (fun s => fst (fst s)) samples) / INR (length samples);
          gyro_bias_y :=
            sum (map (fun s => snd (fst s)) samples) / INR (length samples);
          gyro_bias_z :=
            sum (map (fun s => snd s) samples) / INR (length samples);
          is_calibrated := true;
          calibration_samples := samples;
          calibration_count := count;
          calibration_target := calibration_target t;
          pitch := 0; yaw := 0; roll := 0;
          zero_pitch := zero_pitch t;
          zero_yaw := zero_yaw t;
          zero_roll := zero_roll t;
          last_time := 0;
          movement_threshold := movement_threshold t;
          pitch_scale := pitch_scale t;
          yaw_scale := yaw_scale t;
          roll_scale := roll_scale t |}, true)
    else
      ({| gyro_bias_x := gyro_bias_x t;
          gyro_bias_y := gyro_bias_y t;
          gyro_bias_z := gyro_bias_z t;
          is_calibrated := is_calibrated t;
          calibration_samples := samples;
          calibration_count := count;
          calibration_target := calibration_target t;
          pitch := pitch t; yaw := yaw t; roll := roll t;
          zero_pitch := zero_pitch t;
          zero_yaw := zero_yaw t;
          zero_roll := zero_roll t;
          last_time := last_time t;
          movement_threshold := movement_threshold t;
          pitch_scale := pitch_scale t;
          yaw_scale := yaw_scale t;
          roll_scale := roll_scale t |}, false).

(** [reset_calibration] *)
Definition reset_calibration (t : HeadTracker) : HeadTracker :=
  {| gyro_bias_x := 0; gyro_bias_y := 0; gyro_bias_z := 0;
     is_calibrated := false;
     calibration_samples := [];
     calibration_count := 0;
     calibration_target := calibration_target t;
     pitch := pitch t; yaw := yaw t; roll := roll t;
     zero_pitch := zero_pitch t;
     zero_yaw := zero_yaw t;
     zero_roll := zero_roll t;
     last_time := last_time t;
     movement_threshold := movement_threshold t;
     pitch_scale := pitch_scale t;
     yaw_scale := yaw_scale t;
     roll_scale := roll_scale t |}.

(** [zero_view]: the current orientation becomes the zero reference. *)
Definition zero_view (t : HeadTracker) : HeadTracker :=
  {| gyro_bias_x := gyro_bias_x t;
     gyro_bias_y := gyro_bias_y t;
     gyro_bias_z := gyro_bias_z t;
     is_calibrated := is_calibrated t;
     calibration_samples := calibration_samples t;
     calibration_count := calibration_count t;
     calibration_target := calibration_target t;
     pitch := pitch t; yaw := yaw t; roll := roll t;
     zero_pitch := pitch t;
     zero_yaw := yaw t;
     zero_roll := roll t;
     last_time := last_time t;
     movement_threshold := movement_threshold t;
     pitch_scale := pitch_scale t;
     yaw_scale := yaw_scale t;
     roll_scale := roll_scale t |}.

(** The two loops of [_wrap_angle], each bounded by a number of passes. *)
Fixpoint wrap_down (fuel : nat) (angle : R) : R :=
  match fuel with
  | O => angle
  | S fuel' =>
      if Rlt_dec 180 angle then wrap_down fuel' (angle - 360) else angle
  end.

Fixpoint wrap_up (fuel : nat) (angle : R) : R :=
  match fuel with
  | O => angle
  | S fuel' =>
      if Rlt_dec angle (-180) then wrap_up fuel' (angle + 360) else angle
  end.

Definition wrap_loops (fuel : nat) (angle : R) : R :=
  wrap_up fuel (wrap_down fuel angle).

(** A number of passes that neither loop exceeds on [angle]
    (see [wrap_loops_exit] and [wrap_loops_enough]). *)
Definition wrap_passes (angle : R) : nat :=
  Z.to_nat (up (Rabs angle / 360)).

(** [_wrap_angle]: keep angle between -180 and 180 degrees. On a real
    number the loops end; [FTracker._wrap_angle] has the floats on which
    they do not. *)
Definition _wrap_angle (angle : R) : R :=
  wrap_loops (wrap_passes angle) angle.

Record Orientation : Type := mkOrientation {
  o_pitch : R;
  o_yaw : R;
  o_roll : R
}.

(** [get_relative_orientation] *)
Definition get_relative_orientation (t : HeadTracker) : Orientation :=
  {| o_pitch := _wrap_angle ((pitch t - zero_pitch t) * pitch_scale t);
     o_yaw := _wrap_angle ((yaw t - zero_yaw t) * yaw_scale t);
     o_roll := _wrap_angle ((roll t - zero_roll t) * roll_scale t) |}.

(** [get_calibration_progress]: progress as percentage. *)
Definition get_calibration_progress (t : HeadTracker) : R :=
  INR (calibration_count t) / INR (calibration_target t) * 100.

(** [math.atan2(y, x)] on real numbers, where the one zero stands for
    +0.0; [PyFloat.atan2] has both zeros. *)
Definition atan2 (y x : R) : R :=
  if Rlt_dec 0 x then atan (y / x)
  else if Rlt_dec x 0 then
    if Rle_dec 0 y then atan (y / x) + PI else atan (y / x) - PI
  else if Rlt_dec 0 y then PI / 2
  else if Rlt_dec y 0 then - (PI / 2)
  else 0.

(** [update]: sensor fusion; [current_time] is [time.time()]. *)
Definition update (t : HeadTracker) (imu_data : Reading) (current_time : R)
  : HeadTracker :=
  if negb (is_calibrated t) then t
  else
    let dt := current_time - last_time t in
    if Req_dec_T (last_time t) 0 then
      {| gyro_bias_x := gyro_bias_x t;
         gyro_bias_y := gyro_bias_y t;
         gyro_bias_z := gyro_bias_z t;
         is_calibrated := is_calibrated t;
         calibration_samples := calibration_samples t;
         calibration_count := calibration_count t;
         calibration_target := calibration_target t;
         pitch := pitch t; yaw := yaw t; roll := roll t;
         zero_pitch := zero_pitch t;
         zero_yaw := zero_yaw t;
         zero_roll := zero_roll t;
         last_time := current_time;
         movement_threshold := movement_threshold t;
         pitch_scale := pitch_scale t;
         yaw_scale := yaw_scale t;
         roll_scale := roll_scale t |}
    else
      (* Remove gyroscope bias *)
      let gyro_x := gx imu_data - gyro_bias_x t in
      let gyro_y := gy imu_data - gyro_bias_y t in
      let gyro_z := gz imu_data - gyro_bias_z t in
      (* Gyroscope integration *)
      let pitch_gyro := pitch t + gyro_x * dt in
      let yaw_gyro := yaw t + gyro_y * dt in
      let roll_gyro := roll t + gyro_z * dt in
      (* Accelerometer orientation *)
      let a_x := ax imu_data in
      let a_y := ay imu_data in
      let a_z := az imu_data in
      let acc_magnitude := sqrt (a_x * a_x + a_y * a_y + a_z * a_z) in
      let '(new_pitch, new_yaw, new_roll) :=
        if Rlt_dec (1 / 100) acc_magnitude then
          let pitch_accel :=
            atan2 (- a_x) (sqrt (a_y * a_y + a_z * a_z)) * 180 / PI in
          let roll_accel := atan2 a_y a_z * 180 / PI in
          (* Complementary filter *)
          let alpha := 96 / 100 in
          (alpha * pitch_gyro + (1 - alpha) * pitch_accel,
           yaw_gyro,
           alpha * roll_gyro + (1 - alpha) * roll_accel)
        else
          (* Fallback to gyroscope-only *)
          (pitch_gyro, yaw_gyro, roll_gyro) in
      {| gyro_bias_x := gyro_bias_x t;
         gyro_bias_y := gyro_bias_y t;
         gyro_bias_z := gyro_bias_z t;
         is_calibrated := is_calibrated t;
         calibration_samples := calibration_samples t;
         calibration_count := calibration_count t;
         calibration_target := calibration_target t;
         (* Wrap angles *)
         pitch := _wrap_angle new_pitch;
         yaw := _wrap_angle new_yaw;
         roll := _wrap_angle new_roll;
         zero_pitch := zero_pitch t;
         zero_yaw := zero_yaw t;
         zero_roll := zero_roll t;
         last_time := current_time;
         movement_threshold := movement_threshold t;
         pitch_scale := pitch_scale t;
         yaw_scale := yaw_scale t;
         roll_scale := roll_scale t |}.

(** The calls a client can make, and the states they lead to. *)
Inductive call : Type :=
  | CalibrateGyroscope (imu_data : Reading)
  | Update (imu_data : Reading) (current_time : R)
  | ZeroView
  | ResetCalibration.

Definition exec (t : HeadTracker) (c : call) : HeadTracker :=
  match c with
  | CalibrateGyroscope d => fst (calibrate_gyroscope t d)
  | Update d now => update t d now
  | ZeroView => zero_view t
  | ResetCalibration => reset_calibration t
  end.

Definition execs (t : HeadTracker) (cs : list call) : HeadTracker :=
  fold_left exec cs t.

(** Feeding a list of samples to [calibrate_gyroscope], one call each. *)
Definition feed (t : HeadTracker) (samples : list Reading) : HeadTracker :=
  fold_left (fun t d => fst (calibrate_gyroscope t d)) samples t.

(** [n] calls of [update] with the same sample, at times
    [start + dt], [start + 2 dt], ... *)
Fixpoint updates (t : HeadTracker) (d : Reading) (start dt : R) (n : nat)
  : HeadTracker :=
  match n with
  | O => t
  | S n' => update (updates t d start dt n') d (start + INR n * dt)
  end.

(** [get_movement_description]: human-readable description of the head
    movement. *)
Definition get_movement_description (t : HeadTracker) (imu_data : Reading)
  : string :=
  let gyro_x := gx imu_data - gyro_bias_x t in
  let gyro_y := gy imu_data - gyro_bias_y t in
  let gyro_z := gz imu_data - gyro_bias_z t in
  let movements : list string := [] in
  let movements :=
    if Rlt_dec (movement_threshold t) (Rabs gyro_x)
    then movements
         ++ [if Rlt_dec 0 gyro_x then "NODDING UP" else "NODDING DOWN"]%string
    else movements in
  let movements :=
    if Rlt_dec (movement_threshold t) (Rabs gyro_y)
    then movements
         ++ [if Rlt_dec 0 gyro_y then "TURNING RIGHT" else "TURNING LEFT"]%string
    else movements in
  let movements :=
    if Rlt_dec (movement_threshold t) (Rabs gyro_z)
    then movements
         ++ [if Rlt_dec 0 gyro_z then "TILTING RIGHT" else "TILTING LEFT"]%string
    else movements in
  match movements with
  | [] => "STATIONARY"%string
  | _ => String.concat " + " movements
  end.

(** Exceptions [get_orientation_bar] can meet: a division by zero, and an
    [IndexError] of a list assignment. *)
Inductive bar_exn := ZeroDivisionError | IndexOutOfRange.

(** [int(x)]: the integer towards zero. *)
Definition py_int (x : R) : Z :=
  if Rle_dec 0 x then Int_part x else (- Int_part (- x))%Z.

(** [l[i] = x]: a negative index counts from the end; an index outside the
    list is an [IndexError]. *)
Definition list_assign {A : Type} (l : list A) (i : Z) (x : A)
  : bar_exn + list A :=
  let len := Z.of_nat (length l) in
  let j := if (i <? 0)%Z then (i + len)%Z else i in
  if ((0 <=? j)%Z && (j <? len)%Z)%bool
  then inr (firstn (Z.to_nat j) l ++ x :: skipn (S (Z.to_nat j)) l)
  else inl IndexOutOfRange.

(** The black circle that marks the current position, as its UTF-8 text. *)
Definition bullet : string :=
  String (ascii_of_nat 226)
    (String (ascii_of_nat 151) (String (ascii_of_nat 143) EmptyString)).

(** The list [bar] of [get_orientation_bar] before it is joined: one string
    per character cell. *)
Definition orientation_bar_cells (value max_val : R)
  : bar_exn + list string :=
  if Req_dec_T max_val 0 then inl ZeroDivisionError
  else
    let normalized := Rmax (-1) (Rmin 1 (value / max_val)) in
    let bar_length := 20%Z in
    let center := (bar_length / 2)%Z in
    let pos := py_int (IZR center + normalized * (IZR center - 1)) in
    let bar := repeat "-"%string (Z.to_nat bar_length) in
    match list_assign bar center "|"%string with
    | inl e => inl e
    | inr bar => list_assign bar pos bullet
    end.

(** [get_orientation_bar]: a visual bar representation of an orientation
    ([self] is not used). *)
Definition get_orientation_bar (value max_val : R) : bar_exn + string :=
  match orientation_bar_cells value max_val with
  | inl e => inl e
  | inr bar => inr (String.concat "" bar)
  end.

End Tracker.

(* ================================================================= *)
(** ** [console_head_tracking.py]: class [ConsoleHeadTrackingApp] *)

(** The display and its pauses are output only and are left out; the state
    of the application is its head tracker. The key
    [self.keyboard_handler.get_key()] returns is an argument. *)
Module Console.
Import Tracker.
Local Open Scope R_scope.

(** [KeyboardInterrupt] is not an [Exception]: the [except Exception] of
    [process_keyboard_input] lets it through. *)
Inductive signal := KeyboardInterrupt.

Definition ctrl_c : string := String (ascii_of_nat 3) EmptyString.

(** [process_keyboard_input]: process keyboard commands. *)
Definition process_keyboard_input (t : HeadTracker) (key : option string)
  : HeadTracker * option signal :=
  match key with
  | None => (t, None)
  | Some k =>
      if (k =? "")%string then (t, None)
      else if (k =? "t")%string then (zero_view t, None)
      else if (k =? "r")%string then (reset_calibration t, None)
      else if ((k =? "q")%string || (k =? ctrl_c)%string)%bool
      then (t, Some KeyboardInterrupt)
      else (t, None)
  end.

(** [head_tracking_callback]: main callback for processing IMU data;
    [now] is the value of [time.time()] inside [update]. *)
Definition head_tracking_callback
  (t : HeadTracker) (imu_data : Reading) (key : option string) (now : R)
  : HeadTracker * option signal :=
  (* Handle keyboard input during normal operation *)
  let '(t1, s) :=
    if is_calibrated t then process_keyboard_input t key else (t, None) in
  match s with
  | Some e => (t1, Some e)
  | None =>
      (* Handle calibration *)
      if negb (is_calibrated t1)
      then (fst (calibrate_gyroscope t1 imu_data), None)
      else
        (* Normal operation - update and display *)
        (update t1 imu_data now, None)
  end.

(** What one sample brings to the callback: the sample, the key waiting at
    that moment and the time. *)
Definition tick : Type := (Reading * option string * R)%type.

(** The callback over the samples a reader delivers; a
    [KeyboardInterrupt] ends the reader's loop. *)
Fixpoint session (t : HeadTracker) (ticks : list tick)
  : HeadTracker * option signal :=
  match ticks with
  | [] => (t, None)
  | (d, key, now) :: rest =>
      match head_tracking_callback t d key now with
      | (t', Some e) => (t', Some e)
      | (t', None) => session t' rest
      end
  end.

End Console.

(* ================================================================= *)
(** ** [head_tracking_3d.py]: class [HeadTracking3D] *)

(** The OpenGL calls and the prints are output only and are left out. *)
Module View3D.
Local Open Scope R_scope.

Record HeadTracking3D : Type := mkApp {
  head_tracker : Tracker.HeadTracker;
  pitch : R;
  yaw : R;
  roll : R;
  running : bool;
  camera_sensitivity : R;
  debug_mode : bool
}.

(** [__init__]; [now] is the value of [time.time()] in [HeadTracker()]. *)
Definition init (now : R) : HeadTracking3D :=
  {| head_tracker := Tracker.init now;
     pitch := 0; yaw := 0; roll := 0;
     running := true;
     camera_sensitivity := 1;
     debug_mode := true |}.

(** [math.radians] *)
Definition radians (x : R) : R := x * (PI / 180).

(** [imu_callback]: callback for IMU data. *)
Definition imu_callback (app : HeadTracking3D) (imu_data : Tracker.Reading)
  (now : R) : HeadTracking3D :=
  if negb (Tracker.is_calibrated (head_tracker app)) then
    {| head_tracker :=
         fst (Tracker.calibrate_gyroscope (head_tracker app) imu_data);
       pitch := pitch app; yaw := yaw app; roll := roll app;
       running := running app;
       camera_sensitivity := camera_sensitivity app;
       debug_mode := debug_mode app |}
  else
    (* Update head tracking *)
    let tracker := Tracker.update (head_tracker app) imu_data now in
    let rel_orientation := Tracker.get_relative_orientation tracker in
    (* Update camera angles *)
    {| head_tracker := tracker;
       pitch := radians (Tracker.o_pitch rel_orientation)
                * camera_sensitivity app;
       yaw := radians (Tracker.o_yaw rel_orientation)
              * camera_sensitivity app;
       roll := radians (Tracker.o_roll rel_orientation)
               * camera_sensitivity app;
       running := running app;
       camera_sensitivity := camera_sensitivity app;
       debug_mode := debug_mode app |}.

(** The pygame events [handle_events] tells apart. *)
Inductive key : Type :=
  | K_ESCAPE | K_q | K_t | K_r | K_PLUS | K_EQUALS | K_MINUS | K_other.

Inductive event : Type :=
  | QUIT
  | KEYDOWN (k : key)
  | OtherEvent.

(** The body of the loop of [handle_events], for one event. *)
Definition handle_event (app : HeadTracking3D) (e : event) : HeadTracking3D :=
  let stop :=
    {| head_tracker := head_tracker app;
       pitch := pitch app; yaw := yaw app; roll := roll app;
       running := false;
       camera_sensitivity := camera_sensitivity app;
       debug_mode := debug_mode app |} in
  let with_tracker t :=
    {| head_tracker := t;
       pitch := pitch app; yaw := yaw app; roll := roll app;
       running := running app;
       camera_sensitivity := camera_sensitivity app;
       debug_mode := debug_mode app |} in
  let with_sensitivity s :=
    {| head_tracker := head_tracker app;
       pitch := pitch app; yaw := yaw app; roll := roll app;
       running := running app;
       camera_sensitivity := s;
       debug_mode := debug_mode app |} in
  match e with
  | QUIT => stop
  | KEYDOWN K_ESCAPE | KEYDOWN K_q => stop
  | KEYDOWN K_t => with_tracker (Tracker.zero_view (head_tracker app))
  | KEYDOWN K_r => with_tracker (Tracker.reset_calibration (head_tracker app))
  | KEYDOWN K_PLUS | KEYDOWN K_EQUALS =>
      (* Increase sensitivity *)
      with_sensitivity (Rmin 2 (camera_sensitivity app + 1 / 10))
  | KEYDOWN K_MINUS =>
      (* Decrease sensitivity *)
      with_sensitivity (Rmax (1 / 10) (camera_sensitivity app - 1 / 10))
  | KEYDOWN K_other => app
  | OtherEvent => app
  end.

(** [handle_events] on the events [pygame.event.get()] returns. *)
Definition handle_events (app : HeadTracking3D) (events : list event)
  : HeadTracking3D :=
  fold_left handle_event events app.

(** What the two threads of the application do to its state, one step at
    a time: the reader thread calls [imu_callback], the main thread calls
    [handle_events]. *)
Inductive step : Type :=
  | ImuData (imu_data : Tracker.Reading) (now : R)
  | Events (events : list event).

Definition exec (app : HeadTracking3D) (s : step) : HeadTracking3D :=
  match s with
  | ImuData d now => imu_callback app d now
  | Events es => handle_events app es
  end.

Definition execs (app : HeadTracking3D) (steps : list step) : HeadTracking3D :=
  fold_left exec steps app.

End View3D.

(* ================================================================= *)
(** ** The wire format, as the properties below refer to it *)

Module Wire.
Import Py Reader.

(** Binary32 numbers: mantissa of 24 bits, infinities at exponent 128. *)
Definition is_float32 (v : spec_float) : bool := valid_binary 24 128 v.

Definition is_finite (v : spec_float) : bool :=
  match v with
  | S754_zero _ | S754_finite _ _ _ => true
  | S754_infinity _ | S754_nan => false
  end.

Definition finite_float32 (v : spec_float) : Prop :=
  is_float32 v = true /\ is_finite v = true.

Definition byte_of_Z (z : Z) : byte :=
  match Byte.of_N (Z.to_N (z mod 256)) with
  | Some x => x
  | None => x00
  end.

Definition sign_bit (s : bool) : Z := if s then 2147483648 else 0.

(** The bit pattern of a binary32 number (the quiet NaN for [S754_nan]). *)
Definition bits_of_float (v : spec_float) : Z :=
  match v with
  | S754_zero s => sign_bit s
  | S754_infinity s => sign_bit s + 255 * 8388608
  | S754_nan => 2143289344
  | S754_finite s m e =>
      if (Zpos m <? 8388608)%Z then sign_bit s + Zpos m
      else sign_bit s + (e + 150) * 8388608 + (Zpos m - 8388608)
  end%Z.

(** [struct.pack('<f', v)] *)
Definition pack_f (v : spec_float) : bytes :=
  let x := bits_of_float v in
  [byte_of_Z x; byte_of_Z (x / 256); byte_of_Z (x / 65536);
   byte_of_Z (x / 16777216)].

(** The 24-byte numeric window holding [v0 .. v5] in this order. *)
Definition window_of (v0 v1 v2 v3 v4 v5 : spec_float) : bytes :=
  pack_f v0 ++ pack_f v1 ++ pack_f v2 ++ pack_f v3 ++ pack_f v4 ++ pack_f v5.

(** A frame: start marker, session id, payload, trailing metadata, end
    marker. *)
Definition frame (session_id payload metadata : bytes) : bytes :=
  HEADER ++ session_id ++ payload ++ metadata ++ FOOTER.

(** A sensor payload: [lead] (20 bytes) before the numeric window, [gap]
    between the window and the sensor-message marker that ends it. *)
Definition sensor_payload (lead window gap : bytes) : bytes :=
  lead ++ window ++ gap ++ SENSOR_MSG.

(** The middle payload [process_message] strips out of a message, and the
    section it cuts out of that payload. *)
Definition payload_of (message : bytes) : bytes :=
  slice message (Z.of_nat (length HEADER) + 8)
                (- Z.of_nat (length FOOTER) - 31).

Definition data_section (payload : bytes) : bytes :=
  slice payload DATA_START_OFFSET DATA_END_OFFSET.

(** The [k]-th little-endian binary32 field of a window. *)
Definition field (w : bytes) (k : nat) : spec_float :=
  match firstn 4 (skipn (4 * k) w) with
  | [b0; b1; b2; b3] => float_of_bits (le_u32 b0 b1 b2 b3)
  | _ => S754_nan
  end.

(** The sample a window denotes: [ax=v0, ay=v1, az=v2, gz=v3, gy=v4,
    gx=v5]. *)
Definition sample_of_window (w : bytes) : Sample :=
  {| ax := field w 0; ay := field w 1; az := field w 2;
     gz := field w 3; gy := field w 4; gx := field w 5 |}.

(** The six values of a sample in wire order [v0 .. v5]. *)
Definition axis_values (s : Sample) : list spec_float :=
  [ax s; ay s; az s; gz s; gy s; gx s].

(** The two placements of the numeric window the design document gives:
    24 bytes from offset 20 of the payload, and 24 bytes ending 26 bytes
    before the end of the payload. *)
Definition window_from_start (payload : bytes) : bytes :=
  firstn 24 (skipn 20 payload).

Definition window_from_end (payload : bytes) : bytes :=
  firstn 24 (skipn (length payload - 50) payload).

(** The framing loop fed chunk by chunk: accumulate, then process the
    complete messages, for every chunk in turn. *)
Fixpoint feed_chunks (chunks : list bytes) (st : run_state) : run_state :=
  match chunks with
  | [] => st
  | c :: rest =>
      match on_data st c with
      | (st', Some _) => st'
      | (st', None) => feed_chunks rest st'
      end
  end.

(** Concrete frames used below. *)
Definition zeros (n : nat) : bytes := repeat x00 n.

Definition nan_window : bytes :=
  [x00; x00; xc0; x7f] ++ zeros 20.

Definition nan_frame : bytes :=
  frame (zeros 8) (sensor_payload (zeros 20) nan_window (zeros 20)) (zeros 31).

Definition long_window : bytes :=
  [x00; x00; x80; x3f] ++ zeros 20.

(** A payload of 74 bytes: 4 more than the section offsets add up to. *)
Definition long_frame : bytes :=
  frame (zeros 8)
        (sensor_payload (zeros 20) long_window ([x01; x02; x03; x04] ++ zeros 20))
        (zeros 31).

End Wire.

(* ================================================================= *)
(** ** Vocabulary for the orientation properties *)

Module Motion.
Import Tracker.
Local Open Scope R_scope.

(** The arithmetic mean of a non-empty list. *)
Definition mean (l : list R) : R := fold_right Rplus 0 l / INR (length l).

Definition in_range (a : R) : Prop := -180 <= a <= 180.

(** What holds of the calibration fields, and of the orientation, in every
    state the calls lead to. *)
Definition calibration_ok (t : HeadTracker) : Prop :=
  calibration_target t = 500%nat
  /\ (calibration_count t <= calibration_target t)%nat
  /\ (is_calibrated t = true <-> calibration_count t = calibration_target t)
  /\ calibration_count t = length (calibration_samples t).

Definition orientation_ok (t : HeadTracker) : Prop :=
  in_range (pitch t) /\ in_range (yaw t) /\ in_range (roll t).

(** A sequence tends to [l]. *)
Definition tends_to (u : nat -> R) (l : R) : Prop :=
  forall eps, 0 < eps -> exists N, forall n, (N <= n)%nat -> Rabs (u n - l) < eps.


(** A tracker just after a calibration on a gyroscope at rest, with the
    clock primed at time 1. *)
Definition primed : HeadTracker :=
  {| gyro_bias_x := 0; gyro_bias_y := 0; gyro_bias_z := 0;
     is_calibrated := true;
     calibration_samples := repeat (0, 0, 0) 500;
     calibration_count := 500;
     calibration_target := 500;
     pitch := 0; yaw := 0; roll := 0;
     zero_pitch := 0; zero_yaw := 0; zero_roll := 0;
     last_time := 1;
     movement_threshold := 5 / 10;
     pitch_scale := 3; yaw_scale := 60; roll_scale := 1 |}.

(** The gyroscope part of a sample, as [calibrate_gyroscope] stores it. *)
Definition gyro_of (d : Reading) : R * R * R := (gx d, gy d, gz d).

(** A constant sample. *)
Definition constant_reading (x y z : R) : Reading :=
  {| gx := x; gy := y; gz := z; ax := 0; ay := 0; az := 0 |}.

End Motion.

(* ================================================================= *)
(** ** Vocabulary for the properties of the stream and of the callers *)

Module Traffic.
Import Py Reader.




(** What holds of the logs of [run] at every moment. *)
Definition logs_ok (st : run_state) : Prop :=
  Forall (fun m => starts_with HEADER m = true
                   /\ endswith m FOOTER = true
                   /\ 25 <= length m) (framed st)
  /\ message_count st = length (delivered st)
  /\ map snd (delivered st) = seq 1 (length (delivered st))
  /\ length (delivered st) <= length (framed st).

End Traffic.

Module Posture.
Import Tracker.
Local Open Scope R_scope.

(** The head at rest and upright: the gyroscope reads the bias, gravity is
    along +z. *)
Definition upright (t : HeadTracker) : Reading :=
  {| gx := gyro_bias_x t; gy := gyro_bias_y t; gz := gyro_bias_z t;
     ax := 0; ay := 0; az := 1 |}.

(** A calibrated tracker with the head tilted: pitch 10, roll -20, a zero
    gyroscope bias and the clock primed at time 1. *)
Definition tilted : HeadTracker :=
  {| gyro_bias_x := 0; gyro_bias_y := 0; gyro_bias_z := 0;
     is_calibrated := true;
     calibration_samples := repeat (0, 0, 0) 500;
     calibration_count := 500;
     calibration_target := 500;
     pitch := 10; yaw := 0; roll := -20;
     zero_pitch := 0; zero_yaw := 0; zero_roll := 0;
     last_time := 1;
     movement_threshold := 5 / 10;
     pitch_scale := 3; yaw_scale := 60; roll_scale := 1 |}.

(** An event of the 3D view that stops the application. *)
Definition stops (e : View3D.event) : bool :=
  match e with
  | View3D.QUIT
  | View3D.KEYDOWN View3D.K_ESCAPE
  | View3D.KEYDOWN View3D.K_q => true
  | _ => false
  end.

(** The 20 cells of an orientation bar with the marker in cell [pos]: the
    centre line in cell 10, dashes elsewhere. *)
Definition bar_with (pos : nat) : list string :=
  map (fun i => if (i =? pos)%nat then bullet
                else if (i =? 10)%nat then "|"%string else "-"%string)
      (seq 0 20).

End Posture.

(* ================================================================= *)
(** ** Python floats with their special values *)

(** The real-number model of the head tracker above says nothing of the
    values a decoded sample can hold that are not real numbers: NaN, the
    infinities and the negative zero. This module has them. A finite float
    is a real number, and the arithmetic on finite floats is exact: the
    rounding of binary64 is not modelled. Where rounding decides whether a
    loop ends ([FTracker.wrap_down]) the model stops and says so. *)
Module PyFloat.
Local Open Scope R_scope.

Inductive float : Type :=
  | Fin (r : R)   (* a finite number; [Fin 0] is the positive zero *)
  | NegZero       (* -0.0 *)
  | PosInf        (* inf *)
  | NegInf        (* -inf *)
  | NaN.          (* nan *)

(** The real number a finite float stands for. *)
Definition to_R (x : float) : option R :=
  match x with
  | Fin r => Some r
  | NegZero => Some 0
  | _ => None
  end.

Definition value (x : float) : R :=
  match x with
  | Fin r => r
  | _ => 0
  end.

Definition is_finite (x : float) : bool :=
  match x with
  | Fin _ | NegZero => true
  | _ => false
  end.

Definition is_zero (x : float) : bool :=
  match x with
  | Fin r => if Req_dec_T r 0 then true else false
  | NegZero => true
  | _ => false
  end.

(** The sign bit. *)
Definition negative (x : float) : bool :=
  match x with
  | Fin r => if Rlt_dec r 0 then true else false
  | NegZero | NegInf => true
  | _ => false
  end.

Definition zero (sign : bool) : float := if sign then NegZero else Fin 0.
Definition inf (sign : bool) : float := if sign then NegInf else PosInf.

(** [-x] *)
Definition neg (x : float) : float :=
  match x with
  | Fin r => if Req_dec_T r 0 then NegZero else Fin (- r)
  | NegZero => Fin 0
  | PosInf => NegInf
  | NegInf => PosInf
  | NaN => NaN
  end.

(** [x + y] *)
Definition add (x y : float) : float :=
  match x, y with
  | NaN, _ | _, NaN => NaN
  | PosInf, NegInf | NegInf, PosInf => NaN
  | PosInf, _ | _, PosInf => PosInf
  | NegInf, _ | _, NegInf => NegInf
  | NegZero, NegZero => NegZero
  | NegZero, Fin b => Fin b
  | Fin a, NegZero => Fin a
  | Fin a, Fin b => Fin (a + b)
  end.

(** [x - y] *)
Definition sub (x y : float) : float := add x (neg y).

(** [x * y] *)
Definition mul (x y : float) : float :=
  match x, y with
  | NaN, _ | _, NaN => NaN
  | (PosInf | NegInf), _ =>
      if is_zero y then NaN else inf (xorb (negative x) (negative y))
  | _, (PosInf | NegInf) =>
      if is_zero x then NaN else inf (xorb (negative x) (negative y))
  | _, _ =>
      if (is_zero x || is_zero y)%bool
      then zero (xorb (negative x) (negative y))
      else Fin (value x * value y)
  end.

(** [abs(x)] *)
Definition abs (x : float) : float :=
  match x with
  | Fin r => Fin (Rabs r)
  | NegZero => Fin 0
  | PosInf | NegInf => PosInf
  | NaN => NaN
  end.

(** [x < y]: false as soon as one side is NaN; the two zeros are equal. *)
Definition ltb (x y : float) : bool :=
  match x, y with
  | NaN, _ | _, NaN => false
  | _, NegInf => false
  | NegInf, _ => true
  | PosInf, _ => false
  | _, PosInf => true
  | _, _ => if Rlt_dec (value x) (value y) then true else false
  end.

(** [x > y] *)
Definition gtb (x y : float) : bool := ltb y x.

(** [x == y] *)
Definition eqb (x y : float) : bool :=
  match x, y with
  | NaN, _ | _, NaN => false
  | PosInf, PosInf | NegInf, NegInf => true
  | (PosInf | NegInf), _ | _, (PosInf | NegInf) => false
  | _, _ => if Req_dec_T (value x) (value y) then true else false
  end.

(** How a computation on floats can end. *)
Inductive error := ValueError | ZeroDivisionError.

Inductive outcome (A : Type) : Type :=
  | Returns (a : A)
  | Raises (e : error)
  | Diverges   (* a loop did not end within the passes allowed *)
  | Inexact.   (* the arithmetic of a loop rounds: not modelled *)

Arguments Returns {A} a.
Arguments Raises {A} e.
Arguments Diverges {A}.
Arguments Inexact {A}.

Definition bind {A B} (c : outcome A) (k : A -> outcome B) : outcome B :=
  match c with
  | Returns a => k a
  | Raises e => Raises e
  | Diverges => Diverges
  | Inexact => Inexact
  end.

(** [x / y]: a zero divisor raises, whatever [x] is. *)
Definition div (x y : float) : outcome float :=
  if is_zero y then Raises ZeroDivisionError
  else
    match x, y with
    | NaN, _ | _, NaN => Returns NaN
    | (PosInf | NegInf), (PosInf | NegInf) => Returns NaN
    | (PosInf | NegInf), _ => Returns (inf (xorb (negative x) (negative y)))
    | _, (PosInf | NegInf) => Returns (zero (xorb (negative x) (negative y)))
    | _, _ =>
        if is_zero x then Returns (zero (xorb (negative x) (negative y)))
        else Returns (Fin (value x / value y))
    end.

(** [math.sqrt(x)] *)
Definition sqrt (x : float) : outcome float :=
  match x with
  | Fin r => if Rlt_dec r 0 then Raises ValueError else Returns (Fin (sqrt r))
  | NegZero => Returns NegZero
  | PosInf => Returns PosInf
  | NegInf => Raises ValueError
  | NaN => Returns NaN
  end.

(** [math.atan2(y, x)], with the special cases of the C standard. *)
Definition atan2 (y x : float) : float :=
  match y, x with
  | NaN, _ | _, NaN => NaN
  | PosInf, PosInf => Fin (PI / 4)
  | PosInf, NegInf => Fin (3 * PI / 4)
  | PosInf, _ => Fin (PI / 2)
  | NegInf, PosInf => Fin (- (PI / 4))
  | NegInf, NegInf => Fin (- (3 * PI / 4))
  | NegInf, _ => Fin (- (PI / 2))
  | _, PosInf => zero (negative y)
  | _, NegInf => if negative y then Fin (- PI) else Fin PI
  | _, _ =>
      if is_zero y then
        if negative x then (if negative y then Fin (- PI) else Fin PI)
        else zero (negative y)
      else if is_zero x then
        if negative y then Fin (- (PI / 2)) else Fin (PI / 2)
      else if Rlt_dec 0 (value x) then Fin (atan (value y / value x))
      else if Rlt_dec 0 (value y) then Fin (atan (value y / value x) + PI)
      else Fin (atan (value y / value x) - PI)
  end.

(** The float a decoded binary32 number becomes. *)
Definition of_float32 (v : spec_float) : float :=
  match v with
  | S754_zero s => zero s
  | S754_infinity s => inf s
  | S754_nan => NaN
  | S754_finite s m e =>
      Fin ((if s then -1 else 1) * IZR (Zpos m) * powerRZ 2 e)
  end.

End PyFloat.

(* ================================================================= *)
(** ** [src/head_tracker.py] on Python floats *)

(** The head tracker again, on floats with their special values. The
    methods return an [outcome]: a result, an exception, or no result. *)
Module FTracker.
Import PyFloat.
Local Open Scope R_scope.

Local Notation "x <- c ;; k" := (bind c (fun x => k))
  (at level 61, c at next level, right associativity).

Definition Reading := IMUData float.

Record HeadTracker : Type := mkTracker {
  gyro_bias_x : float;
  gyro_bias_y : float;
  gyro_bias_z : float;
  is_calibrated : bool;
  calibration_samples : list (float * float * float);
  calibration_count : nat;
  calibration_target : nat;
  pitch : float;
  yaw : float;
  roll : float;
  zero_pitch : float;
  zero_yaw : float;
  zero_roll : float;
  last_time : float;
  movement_threshold : float;
  pitch_scale : float;
  yaw_scale : float;
  roll_scale : float
}.

(** [__init__]; [now] is the value of [time.time()]. *)
Definition init (now : float) : HeadTracker :=
  {| gyro_bias_x := Fin 0; gyro_bias_y := Fin 0; gyro_bias_z := Fin 0;
     is_calibrated := false;
     calibration_samples := [];
     calibration_count := 0;
     calibration_target := 500;
     pitch := Fin 0; yaw := Fin 0; roll := Fin 0;
     zero_pitch := Fin 0; zero_yaw := Fin 0; zero_roll := Fin 0;
     last_time := now;
     movement_threshold := Fin (5 / 10);
     pitch_scale := Fin 3; yaw_scale := Fin 60; roll_scale := Fin 1 |}.

(** Python's [sum]: starts from 0 and adds from the left. *)
Definition sum (l : list float) : float := fold_left add l (Fin 0).

(** [calibrate_gyroscope] *)
Definition calibrate_gyroscope (t : HeadTracker) (imu_data : Reading)
  : outcome (HeadTracker * bool) :=
  if is_calibrated t then Returns (t, true)
  else
    let samples :=
      calibration_samples t ++ [(gx imu_data, gy imu_data, gz imu_data)] in
    let count := (calibration_count t + 1)%nat in
    if (calibration_target t <=? count)%nat then
      (* Calculate average bias *)
      bias_x <- div (sum (map (fun s => fst (fst s)) samples))
                    (Fin (INR (length samples))) ;;
      bias_y <- div (sum (map (fun s => snd (fst s)) samples))
                    (Fin (INR (length samples))) ;;
      bias_z <- div (sum (map (fun s => snd s) samples))
                    (Fin (INR (length samples))) ;;
      Returns
        ({| gyro_bias_x := bias_x;
            gyro_bias_y := bias_y;
            gyro_bias_z := bias_z;
            is_calibrated := true;
            calibration_samples := samples;
            calibration_count := count;
            calibration_target := calibration_target t;
            pitch := Fin 0; yaw := Fin 0; roll := Fin 0;
            zero_pitch := zero_pitch t;
            zero_yaw := zero_yaw t;
            zero_roll := zero_roll t;
            last_time := Fin 0;
            movement_threshold := movement_threshold t;
            pitch_scale := pitch_scale t;
            yaw_scale := yaw_scale t;
            roll_scale := roll_scale t |}, true)
    else
      Returns
        ({| gyro_bias_x := gyro_bias_x t;
            gyro_bias_y := gyro_bias_y t;
            gyro_bias_z := gyro_bias_z t;
            is_calibrated := is_calibrated t;
            calibration_samples := samples;
            calibration_count := count;
            calibration_target := calibration_target t;
            pitch := pitch t; yaw := yaw t; roll := roll t;
            zero_pitch := zero_pitch t;
            zero_yaw := zero_yaw t;
            zero_roll := zero_roll t;
            last_time := last_time t;
            movement_threshold := movement_threshold t;
            pitch_scale := pitch_scale t;
            yaw_scale := yaw_scale t;
            roll_scale := roll_scale t |}, false).

(** [reset_calibration] *)
Definition reset_calibration (t : HeadTracker) : HeadTracker :=
  {| gyro_bias_x := Fin 0; gyro_bias_y := Fin 0; gyro_bias_z := Fin 0;
     is_calibrated := false;
     calibration_samples := [];
     calibration_count := 0;
     calibration_target := calibration_target t;
     pitch := pitch t; yaw := yaw t; roll := roll t;
     zero_pitch := zero_pitch t;
     zero_yaw := zero_yaw t;
     zero_roll := zero_roll t;
     last_time := last_time t;
     movement_threshold := movement_threshold t;
     pitch_scale := pitch_scale t;
     yaw_scale := yaw_scale t;
     roll_scale := roll_scale t |}.

(** [zero_view] *)
Definition zero_view (t : HeadTracker) : HeadTracker :=
  {| gyro_bias_x := gyro_bias_x t;
     gyro_bias_y := gyro_bias_y t;
     gyro_bias_z := gyro_bias_z t;
     is_calibrated := is_calibrated t;
     calibration_samples := calibration_samples t;
     calibration_count := calibration_count t;
     calibration_target := calibration_target t;
     pitch := pitch t; yaw := yaw t; roll := roll t;
     zero_pitch := pitch t;
     zero_yaw := yaw t;
     zero_roll := roll t;
     last_time := last_time t;
     movement_threshold := movement_threshold t;
     pitch_scale := pitch_scale t;
     yaw_scale := yaw_scale t;
     roll_scale := roll_scale t |}.

(** How [angle - 360] and [angle + 360] come out in binary64. Below 2^56
    in magnitude a float is a multiple of its last place, which divides 8,
    and so are 360 and the result, which is no larger: the result is exact.
    From 2^63 on the last place is 2048 or more, and the result rounds back
    to [angle]. In between the result is rounded to a neighbour: not
    modelled. An infinity stays what it is, as [add] and [sub] have it. *)
Inductive turn : Type := Exact | Absorbed | Rounded.

Definition turn_of (angle : float) : turn :=
  match angle with
  | Fin r =>
      if Rlt_dec (Rabs r) 72057594037927936 then Exact
      else if Rle_dec 9223372036854775808 (Rabs r) then Absorbed
      else Rounded
  | _ => Exact
  end.

(** The two loops of [_wrap_angle]; [fuel] bounds the passes. *)
Fixpoint wrap_down (fuel : nat) (angle : float) : outcome float :=
  if gtb angle (Fin 180) then
    match turn_of angle, fuel with
    | Rounded, _ => Inexact
    | _, O => Diverges
    | Exact, S fuel' => wrap_down fuel' (sub angle (Fin 360))
    | Absorbed, S fuel' => wrap_down fuel' angle
    end
  else Returns angle.

Fixpoint wrap_up (fuel : nat) (angle : float) : outcome float :=
  if ltb angle (Fin (-180)) then
    match turn_of angle, fuel with
    | Rounded, _ => Inexact
    | _, O => Diverges
    | Exact, S fuel' => wrap_up fuel' (add angle (Fin 360))
    | Absorbed, S fuel' => wrap_up fuel' angle
    end
  else Returns angle.

(** [_wrap_angle] *)
Definition _wrap_angle (fuel : nat) (angle : float) : outcome float :=
  angle <- wrap_down fuel angle ;;
  wrap_up fuel angle.

Record Orientation : Type := mkOrientation {
  o_pitch : float;
  o_yaw : float;
  o_roll : float
}.

(** [get_relative_orientation] *)
Definition get_relative_orientation (fuel : nat) (t : HeadTracker)
  : outcome Orientation :=
  p <- _wrap_angle fuel (mul (sub (pitch t) (zero_pitch t)) (pitch_scale t)) ;;
  y <- _wrap_angle fuel (mul (sub (yaw t) (zero_yaw t)) (yaw_scale t)) ;;
  r <- _wrap_angle fuel (mul (sub (roll t) (zero_roll t)) (roll_scale t)) ;;
  Returns {| o_pitch := p; o_yaw := y; o_roll := r |}.

(** [update]; [current_time] is [time.time()]. *)
Definition update (fuel : nat) (t : HeadTracker) (imu_data : Reading)
  (current_time : float) : outcome HeadTracker :=
  if negb (is_calibrated t) then Returns t
  else
    let dt := sub current_time (last_time t) in
    if eqb (last_time t) (Fin 0) then
      Returns
        {| gyro_bias_x := gyro_bias_x t;
           gyro_bias_y := gyro_bias_y t;
           gyro_bias_z := gyro_bias_z t;
           is_calibrated := is_calibrated t;
           calibration_samples := calibration_samples t;
           calibration_count := calibration_count t;
           calibration_target := calibration_target t;
           pitch := pitch t; yaw := yaw t; roll := roll t;
           zero_pitch := zero_pitch t;
           zero_yaw := zero_yaw t;
           zero_roll := zero_roll t;
           last_time := current_time;
           movement_threshold := movement_threshold t;
           pitch_scale := pitch_scale t;
           yaw_scale := yaw_scale t;
           roll_scale := roll_scale t |}
    else
      (* Remove gyroscope bias *)
      let gyro_x := sub (gx imu_data) (gyro_bias_x t) in
      let gyro_y := sub (gy imu_data) (gyro_bias_y t) in
      let gyro_z := sub (gz imu_data) (gyro_bias_z t) in
      (* Gyroscope integration *)
      let pitch_gyro := add (pitch t) (mul gyro_x dt) in
      let yaw_gyro := add (yaw t) (mul gyro_y dt) in
      let roll_gyro := add (roll t) (mul gyro_z dt) in
      (* Accelerometer orientation *)
      let a_x := ax imu_data in
      let a_y := ay imu_data in
      let a_z := az imu_data in
      acc_magnitude <-
        sqrt (add (add (mul a_x a_x) (mul a_y a_y)) (mul a_z a_z)) ;;
      new <-
        (if gtb acc_magnitude (Fin (1 / 100)) then
           s <- sqrt (add (mul a_y a_y) (mul a_z a_z)) ;;
           pitch_accel <- div (mul (atan2 (neg a_x) s) (Fin 180)) (Fin PI) ;;
           roll_accel <- div (mul (atan2 a_y a_z) (Fin 180)) (Fin PI) ;;
           (* Complementary filter *)
           let alpha := Fin (96 / 100) in
           Returns
             (add (mul alpha pitch_gyro) (mul (sub (Fin 1) alpha) pitch_accel),
              yaw_gyro,
              add (mul alpha roll_gyro) (mul (sub (Fin 1) alpha) roll_accel))
         else
           (* Fallback to gyroscope-only *)
           Returns (pitch_gyro, yaw_gyro, roll_gyro)) ;;
      let '(new_pitch, new_yaw, new_roll) := new in
      (* Wrap angles *)
      p <- _wrap_angle fuel new_pitch ;;
      y <- _wrap_angle fuel new_yaw ;;
      r <- _wrap_angle fuel new_roll ;;
      Returns
        {| gyro_bias_x := gyro_bias_x t;
           gyro_bias_y := gyro_bias_y t;
           gyro_bias_z := gyro_bias_z t;
           is_calibrated := is_calibrated t;
           calibration_samples := calibration_samples t;
           calibration_count := calibration_count t;
           calibration_target := calibration_target t;
           pitch := p; yaw := y; roll := r;
           zero_pitch := zero_pitch t;
           zero_yaw := zero_yaw t;
           zero_roll := zero_roll t;
           last_time := current_time;
           movement_threshold := movement_threshold t;
           pitch_scale := pitch_scale t;
           yaw_scale := yaw_scale t;
           roll_scale := roll_scale t |}.

(** [get_movement_description] *)
Definition get_movement_description (t : HeadTracker) (imu_data : Reading)
  : string :=
  let gyro_x := sub (gx imu_data) (gyro_bias_x t) in
  let gyro_y := sub (gy imu_data) (gyro_bias_y t) in
  let gyro_z := sub (gz imu_data) (gyro_bias_z t) in
  let movements : list string := [] in
  let movements :=
    if gtb (abs gyro_x) (movement_threshold t)
    then movements
         ++ [if gtb gyro_x (Fin 0) then "NODDING UP" else "NODDING DOWN"]%string
    else movements in
  let movements :=
    if gtb (abs gyro_y) (movement_threshold t)
    then movements
         ++ [if gtb gyro_y (Fin 0) then "TURNING RIGHT" else "TURNING LEFT"]%string
    else movements in
  let movements :=
    if gtb (abs gyro_z) (movement_threshold t)
    then movements
         ++ [if gtb gyro_z (Fin 0) then "TILTING RIGHT" else "TILTING LEFT"]%string
    else movements in
  match movements with
  | [] => "STATIONARY"%string
  | _ => String.concat " + " movements
  end.

(** The calls a client can make. *)
Inductive call : Type :=
  | CalibrateGyroscope (imu_data : Reading)
  | Update (imu_data : Reading) (current_time : float)
  | ZeroView
  | ResetCalibration.

Definition exec (fuel : nat) (t : HeadTracker) (c : call)
  : outcome HeadTracker :=
  match c with
  | CalibrateGyroscope d =>
      r <- calibrate_gyroscope t d ;; Returns (fst r)
  | Update d now => update fuel t d now
  | ZeroView => Returns (zero_view t)
  | ResetCalibration => Returns (reset_calibration t)
  end.

(** A sequence of calls; it goes on as long as the calls return. *)
Fixpoint execs (fuel : nat) (t : HeadTracker) (cs : list call)
  : outcome HeadTracker :=
  match cs with
  | [] => Returns t
  | c :: cs' => t' <- exec fuel t c ;; execs fuel t' cs'
  end.

(** [n] calls of [update] with the same sample, at the times
    [start + dt], [start + 2 dt], ... *)
Fixpoint updates (fuel : nat) (t : HeadTracker) (d : Reading) (start dt : R)
  (n : nat) : outcome HeadTracker :=
  match n with
  | O => Returns t
  | S n' =>
      t' <- updates fuel t d start dt n' ;;
      update fuel t' d (Fin (start + INR n * dt))
  end.

End FTracker.

(* ================================================================= *)
(** ** Vocabulary for the properties on floats *)

Module FloatTerms.
Import PyFloat FTracker.
Local Open Scope R_scope.

(** [x] is the finite float of real value [r]. *)
Definition fin (x : float) (r : R) : Prop := to_R x = Some r.





(** A finite float between -180 and 180. *)
Definition angle_ok (x : float) : Prop :=
  exists r, fin x r /\ -180 <= r <= 180.


(** [y] is [x] moved by a whole number of turns. *)
Definition moved (x y : float) : Prop :=
  exists a k, fin x a /\ fin y (a + 360 * IZR k).

(** The state [update] leaves: new angles, new time of the last update. *)
Definition with_angles (t : HeadTracker) (p y r now : float) : HeadTracker :=
  {| gyro_bias_x := gyro_bias_x t;
     gyro_bias_y := gyro_bias_y t;
     gyro_bias_z := gyro_bias_z t;
     is_calibrated := is_calibrated t;
     calibration_samples := calibration_samples t;
     calibration_count := calibration_count t;
     calibration_target := calibration_target t;
     pitch := p; yaw := y; roll := r;
     zero_pitch := zero_pitch t;
     zero_yaw := zero_yaw t;
     zero_roll := zero_roll t;
     last_time := now;
     movement_threshold := movement_threshold t;
     pitch_scale := pitch_scale t;
     yaw_scale := yaw_scale t;
     roll_scale := roll_scale t |}.

Definition finite (x : float) : Prop := exists r, fin x r.

Definition finite_rates (s : float * float * float) : Prop :=
  finite (fst (fst s)) /\ finite (snd (fst s)) /\ finite (snd s).

(** A state with nothing but finite numbers in the fields [update] reads,
    and its three angles between -180 and 180. *)
Definition sound (t : HeadTracker) : Prop :=
  finite (gyro_bias_x t) /\ finite (gyro_bias_y t) /\ finite (gyro_bias_z t)
  /\ finite (last_time t)
  /\ Forall finite_rates (calibration_samples t)
  /\ angle_ok (pitch t) /\ angle_ok (yaw t) /\ angle_ok (roll t).



(** The head at rest with gravity along -z: the gyroscope reads the bias,
    the accelerometer reads zero on x and y, each zero with the sign
    given, and -1 on z. *)
Definition at_rest_of (t : HeadTracker) (x_sign y_sign : bool) : Reading :=
  {| gx := gyro_bias_x t; gy := gyro_bias_y t; gz := gyro_bias_z t;
     ax := zero x_sign; ay := zero y_sign; az := Fin (-1) |}.

(** The angle the accelerometer gives for the roll at rest: 180 degrees
    with the sign of the zero read on y. *)
Definition rest_roll (y_sign : bool) : R := if y_sign then -180 else 180.

(** The angles after [n] updates at rest. *)
Definition pitch_at_rest (fuel : nat) (t : HeadTracker) (x_sign y_sign : bool)
  (start dt : R) (n : nat) : outcome float :=
  bind (updates fuel t (at_rest_of t x_sign y_sign) start dt n)
       (fun t' => Returns (pitch t')).

Definition roll_at_rest (fuel : nat) (t : HeadTracker) (x_sign y_sign : bool)
  (start dt : R) (n : nat) : outcome float :=
  bind (updates fuel t (at_rest_of t x_sign y_sign) start dt n)
       (fun t' => Returns (roll t')).

(** A tracker just after a calibration on a gyroscope at rest, with the
    clock primed at time 1. *)
Definition primed : HeadTracker :=
  {| gyro_bias_x := Fin 0; gyro_bias_y := Fin 0; gyro_bias_z := Fin 0;
     is_calibrated := true;
     calibration_samples := repeat (Fin 0, Fin 0, Fin 0) 500;
     calibration_count := 500;
     calibration_target := 500;
     pitch := Fin 0; yaw := Fin 0; roll := Fin 0;
     zero_pitch := Fin 0; zero_yaw := Fin 0; zero_roll := Fin 0;
     last_time := Fin 1;
     movement_threshold := Fin (5 / 10);
     pitch_scale := Fin 3; yaw_scale := Fin 60; roll_scale := Fin 1 |}.

(** A calibrated tracker with the head tilted: pitch 10, roll -20. *)
Definition tilted : HeadTracker :=
  with_angles primed (Fin 10) (Fin 0) (Fin (-20)) (Fin 1).

(** The largest finite binary32 number, (2^24 - 1) 2^104. *)
Definition max_float32 : spec_float := S754_finite false 16777215 104.

(** The sample of a frame whose six fields hold a NaN. *)
Definition nan_reading : Reading :=
  {| gx := of_float32 S754_nan; gy := of_float32 S754_nan;
     gz := of_float32 S754_nan; ax := of_float32 S754_nan;
     ay := of_float32 S754_nan; az := of_float32 S754_nan |}.

(** The sample of a frame whose x rate is the largest binary32 number, with
    gravity along -z. *)
Definition huge_reading : Reading :=
  {| gx := of_float32 max_float32;
     gy := of_float32 (S754_zero false);
     gz := of_float32 (S754_zero false);
     ax := of_float32 (S754_zero false);
     ay := of_float32 (S754_zero false);
     az := Fin (-1) |}.

(** What [(x - x) * s] wraps to: a zero when [x] and [s] are finite, NaN
    otherwise. *)
Definition zero_or_nan (x s y : float) : Prop :=
  if (is_finite x && is_finite s)%bool then fin y 0 else y = NaN.

(** A sequence of results tends to [l]: from some index on the calls
    return finite floats as close to [l] as asked. *)
Definition settles_at (u : nat -> outcome float) (l : R) : Prop :=
  forall eps, 0 < eps ->
    exists N, forall n, (N <= n)%nat ->
      exists x r, u n = Returns x /\ fin x r /\ Rabs (r - l) < eps.

End FloatTerms.

(* ================================================================= *)
(** * Properties *)

(* ================================================================= *)
(** ** Binary32 bit patterns *)

Module FloatFacts.
Import Py Wire.
Local Open Scope Z_scope.

Lemma digits2_pos_bounds (m : positive) :
  2 ^ (Zpos (digits2_pos m) - 1) <= Zpos m < 2 ^ Zpos (digits2_pos m).
Proof.
  induction m as [m IH | m IH | ]; cbn [digits2_pos].
  - rewrite Pos2Z.inj_succ, (Pos2Z.inj_xI m).
    replace (Z.succ (Zpos (digits2_pos m)) - 1)
      with (Z.succ (Zpos (digits2_pos m) - 1)) by lia.
    rewrite !Z.pow_succ_r by lia. lia.
  - rewrite Pos2Z.inj_succ, (Pos2Z.inj_xO m).
    replace (Z.succ (Zpos (digits2_pos m)) - 1)
      with (Z.succ (Zpos (digits2_pos m) - 1)) by lia.
    rewrite !Z.pow_succ_r by lia. lia.
  - cbn. lia.
Qed.

(** A valid finite binary32 is subnormal (exponent -149, fewer than 24
    mantissa bits) or normal (exactly 24 mantissa bits). *)
Lemma valid_finite_cases s m e :
  is_float32 (S754_finite s m e) = true ->
  (Zpos m < 8388608 /\ e = -149)
  \/ (8388608 <= Zpos m < 16777216 /\ -149 <= e <= 104).
Proof.
  unfold is_float32, valid_binary, bounded, canonical_mantissa, fexp, emin.
  intros H. apply andb_true_iff in H. destruct H as [Hc Hb].
  apply Z.eqb_eq in Hc. apply Z.leb_le in Hb.
  unfold fexp, emin in Hc.
  pose proof (digits2_pos_bounds m) as Hd.
  set (d := Zpos (digits2_pos m)) in *.
  assert (Hd0 : 0 < d) by (unfold d; lia).
  destruct (Z_le_gt_dec (3 - 128 - 24) (d + e - 24)) as [Hle | Hgt].
  - rewrite Z.max_l in Hc by lia.
    assert (d = 24) by lia. right.
    replace d with 24 in Hd by lia. cbn in Hd. lia.
  - rewrite Z.max_r in Hc by lia. left. split; [ | lia].
    assert (d <= 23) by lia.
    assert (2 ^ d <= 2 ^ 23) by (apply Z.pow_le_mono_r; lia).
    change (2 ^ 23) with 8388608 in *. lia.
Qed.

Lemma bits_of_float_range v :
  is_float32 v = true -> 0 <= bits_of_float v < 4294967296.
Proof.
  destruct v as [s | s | | s m e]; intros Hv; cbn [bits_of_float].
  - destruct s; cbn; lia.
  - destruct s; cbn; lia.
  - lia.
  - destruct (valid_finite_cases _ _ _ Hv) as [[Hm He] | [Hm He]].
    + destruct (Z.ltb_spec (Zpos m) 8388608); [ | lia].
      destruct s; cbn [sign_bit]; lia.
    + destruct (Z.ltb_spec (Zpos m) 8388608); [lia | ].
      destruct s; cbn [sign_bit]; lia.
Qed.

(** Decoding the bit pattern of a finite binary32 gives the number back. *)
Lemma float_of_bits_of_float v :
  is_float32 v = true -> is_finite v = true ->
  float_of_bits (bits_of_float v) = v.
Proof.
  destruct v as [s | s | | s m e]; intros Hv Hf; try discriminate.
  - destruct s; reflexivity.
  - destruct (valid_finite_cases _ _ _ Hv) as [[Hm He] | [Hm He]];
      cbn [bits_of_float].
    + destruct (Z.ltb_spec (Zpos m) 8388608); [ | lia].
      unfold float_of_bits.
      set (x := sign_bit s + Zpos m).
      assert (Hs : (2147483648 <=? x) = s).
      { unfold x. destruct s; cbn [sign_bit].
        - apply Z.leb_le. lia.
        - apply Z.leb_gt. lia. }
      assert (He' : (x / 8388608) mod 256 = 0).
      { unfold x. destruct s; cbn [sign_bit]; Z.div_mod_to_equations; lia. }
      assert (Hm' : x mod 8388608 = Zpos m).
      { unfold x. destruct s; cbn [sign_bit]; Z.div_mod_to_equations; lia. }
      rewrite Hs, He', Hm'. cbn. subst e. reflexivity.
    + destruct (Z.ltb_spec (Zpos m) 8388608); [lia | ].
      unfold float_of_bits.
      set (x := sign_bit s + (e + 150) * 8388608 + (Zpos m - 8388608)).
      assert (Hs : (2147483648 <=? x) = s).
      { unfold x. destruct s; cbn [sign_bit].
        - apply Z.leb_le. lia.
        - apply Z.leb_gt. lia. }
      assert (He' : (x / 8388608) mod 256 = e + 150).
      { unfold x. destruct s; cbn [sign_bit]; Z.div_mod_to_equations; lia. }
      assert (Hm' : x mod 8388608 = Zpos m - 8388608).
      { unfold x. destruct s; cbn [sign_bit]; Z.div_mod_to_equations; lia. }
      rewrite Hs, He', Hm'.
      destruct (Z.eqb_spec (e + 150) 0); [lia | ].
      destruct (Z.eqb_spec (e + 150) 255); [lia | ].
      replace (Zpos m - 8388608 + 8388608) with (Zpos m) by lia.
      replace (e + 150 - 150) with e by lia. reflexivity.
Qed.

Lemma byte_val_of_Z z : byte_val (byte_of_Z z) = z mod 256.
Proof.
  unfold byte_val, byte_of_Z.
  assert (Hr : 0 <= z mod 256 < 256) by (apply Z.mod_pos_bound; lia).
  destruct (Byte.of_N (Z.to_N (z mod 256))) as [x | ] eqn:E.
  - apply Byte.to_of_N in E. rewrite E. lia.
  - apply Byte.of_N_None_iff in E. lia.
Qed.

Lemma le_u32_pack x :
  0 <= x < 4294967296 ->
  le_u32 (byte_of_Z x) (byte_of_Z (x / 256)) (byte_of_Z (x / 65536))
         (byte_of_Z (x / 16777216)) = x.
Proof.
  intros Hx. unfold le_u32. rewrite !byte_val_of_Z.
  Z.div_mod_to_equations. lia.
Qed.

(** [struct.unpack] undoes [struct.pack] on finite binary32 numbers. *)
Lemma unpack_pack v :
  is_float32 v = true -> is_finite v = true ->
  unpack_f (pack_f v) = ret v.
Proof.
  intros Hv Hf. unfold pack_f, unpack_f.
  rewrite le_u32_pack by (apply bits_of_float_range; exact Hv).
  rewrite float_of_bits_of_float by assumption. reflexivity.
Qed.

Lemma byte_val_range x : 0 <= byte_val x < 256.
Proof.
  unfold byte_val. pose proof (Byte.to_N_bounded x). lia.
Qed.

End FloatFacts.

(* ================================================================= *)
(** ** Slices and hexadecimal text *)

Module SeqFacts.
Import Py.

Section Slices.
Context {A : Type}.
Implicit Types s : list A.

Lemma slice_nat s (a b : nat) :
  a <= b <= length s ->
  slice s (Z.of_nat a) (Z.of_nat b) = firstn (b - a) (skipn a s).
Proof.
  intros H. unfold slice, norm_index.
  destruct (Z.ltb_spec (Z.of_nat a) 0); [lia | ].
  destruct (Z.ltb_spec (Z.of_nat b) 0); [lia | ].
  rewrite !Z.min_l by lia.
  replace (Z.to_nat (Z.of_nat b - Z.of_nat a)) with (b - a) by lia.
  rewrite Nat2Z.id. reflexivity.
Qed.

Lemma slice_to_end s (a c : nat) :
  0 < c -> a + c <= length s ->
  slice s (Z.of_nat a) (- Z.of_nat c)
  = firstn (length s - a - c) (skipn a s).
Proof.
  intros Hc H. unfold slice, norm_index.
  destruct (Z.ltb_spec (Z.of_nat a) 0); [lia | ].
  destruct (Z.ltb_spec (- Z.of_nat c) 0); [ | lia].
  rewrite Z.min_l by lia. rewrite Z.max_r by lia.
  replace (Z.to_nat (- Z.of_nat c + Z.of_nat (length s) - Z.of_nat a))
    with (length s - a - c) by lia.
  rewrite Nat2Z.id. reflexivity.
Qed.

Lemma slice_prefix s (n : nat) : slice s 0 (Z.of_nat n) = firstn n s.
Proof.
  unfold slice, norm_index.
  destruct (Z.ltb_spec 0 0); [lia | ].
  destruct (Z.ltb_spec (Z.of_nat n) 0); [lia | ].
  rewrite (Z.min_l 0) by lia. rewrite Z.sub_0_r. cbn [Z.to_nat skipn].
  destruct (Nat.le_gt_cases n (length s)).
  - rewrite Z.min_l by lia. rewrite Nat2Z.id. reflexivity.
  - rewrite Z.min_r by lia. rewrite Nat2Z.id.
    rewrite !firstn_all2 by lia. reflexivity.
Qed.

Lemma slice_from_nat s (a : nat) :
  a <= length s -> slice_from s (Z.of_nat a) = skipn a s.
Proof.
  intros H. unfold slice_from. rewrite slice_nat by lia.
  apply firstn_all2. rewrite length_skipn. lia.
Qed.

(** The middle of three parts, cut by a front offset and a back offset. *)
Lemma slice_middle (front mid back : list A) :
  0 < length back ->
  slice (front ++ mid ++ back)
        (Z.of_nat (length front)) (- Z.of_nat (length back)) = mid.
Proof.
  intros Hb. rewrite slice_to_end by (rewrite ?length_app; lia).
  rewrite skipn_app, skipn_all, Nat.sub_diag. cbn [skipn app].
  rewrite !length_app.
  replace (length front + (length mid + length back) - length front
           - length back) with (length mid + 0) by lia.
  rewrite firstn_app_2. cbn. apply app_nil_r.
Qed.
End Slices.

Lemma bytes_eqb_eq a b : bytes_eqb a b = true <-> a = b.
Proof.
  revert b. induction a as [ | x a IH]; intros [ | y b]; cbn;
    try (split; [discriminate | congruence]); [tauto | ].
  rewrite andb_true_iff, IH. split.
  - intros [H1 H2]. apply Byte.byte_dec_bl in H1. congruence.
  - intros H. injection H as -> ->. split; [ | reflexivity].
    apply Byte.byte_dec_lb. reflexivity.
Qed.

Lemma endswith_app a suffix : endswith (a ++ suffix) suffix = true.
Proof.
  unfold endswith. rewrite length_app. apply andb_true_iff. split.
  - apply Nat.leb_le. lia.
  - replace (length a + length suffix - length suffix) with (length a) by lia.
    rewrite skipn_app, skipn_all, Nat.sub_diag. cbn. apply bytes_eqb_eq.
    reflexivity.
Qed.

Lemma endswith_inv s suffix :
  endswith s suffix = true ->
  s = firstn (length s - length suffix) s ++ suffix.
Proof.
  unfold endswith. intros H. apply andb_true_iff in H. destruct H as [_ H].
  apply bytes_eqb_eq in H.
  transitivity (firstn (length s - length suffix) s
                ++ skipn (length s - length suffix) s).
  - symmetry. apply firstn_skipn.
  - f_equal. exact H.
Qed.

(** *** [hex] and [fromhex] *)

Lemma length_hex b : length (hex b) = 2 * length b.
Proof. induction b as [ | x b IH]; cbn [hex length]; lia. Qed.

Lemma hex_app a b : hex (a ++ b) = hex a ++ hex b.
Proof.
  induction a as [ | x a IH]; cbn [hex app]; [reflexivity | ].
  rewrite IH. reflexivity.
Qed.

Lemma skipn_hex n b : skipn (2 * n) (hex b) = hex (skipn n b).
Proof.
  revert b. induction n as [ | n IH]; intros b; [reflexivity | ].
  replace (2 * S n) with (S (S (2 * n))) by lia.
  destruct b as [ | x b]; [reflexivity | ]. cbn [hex skipn]. apply IH.
Qed.

Lemma firstn_hex n b : firstn (2 * n) (hex b) = hex (firstn n b).
Proof.
  revert b. induction n as [ | n IH]; intros b; [reflexivity | ].
  replace (2 * S n) with (S (S (2 * n))) by lia.
  destruct b as [ | x b]; [reflexivity | ]. cbn [hex firstn].
  rewrite IH. reflexivity.
Qed.

Lemma fromhex_hex_byte (x : byte) (rest : str) :
  fromhex (hex_digit (Byte.to_N x / 16) :: hex_digit (Byte.to_N x mod 16)
           :: rest)
  = bind (fromhex rest) (fun b => ret (x :: b)).
Proof. destruct x; reflexivity. Qed.

(** Parsing the text [hex] prints gives the bytes back. *)
Lemma fromhex_hex b : fromhex (hex b) = ret b.
Proof.
  induction b as [ | x b IH]; [reflexivity | ].
  cbn [hex]. rewrite fromhex_hex_byte, IH. reflexivity.
Qed.

End SeqFacts.

(* ================================================================= *)
(** ** Decoding a message *)

Module DecodeFacts.
Import Py Reader Wire SeqFacts.

Lemma range0_8 n :
  48 <= n ->
  firstn 6 (range0 n 8) = [0; 8; 16; 24; 32; 40] /\ 6 <= length (range0 n 8).
Proof.
  intros Hn. unfold range0.
  assert (Hq : 6 <= (n + 8 - 1) / 8)
    by (apply Nat.div_le_lower_bound; lia).
  destruct (Nat.le_exists_sub _ _ Hq) as [q [Eq _]].
  rewrite Eq, Nat.add_comm. split.
  - reflexivity.
  - rewrite length_map, length_seq. lia.
Qed.

(** The [k]-th chunk of the hex text of [w] parses to the [k]-th field. *)
Lemma chunk_value w k i :
  i = k * 8 ->
  4 * k + 4 <= length w ->
  (b <- fromhex (slice (hex w) (Z.of_nat i) (Z.of_nat i + 8)) ;;
   unpack_f b)
  = ret (field w k).
Proof.
  intros -> Hk.
  replace (Z.of_nat (k * 8) + 8)%Z with (Z.of_nat (k * 8 + 8)) by lia.
  rewrite slice_nat by (rewrite length_hex; lia).
  replace (k * 8 + 8 - k * 8) with (2 * 4) by lia.
  replace (k * 8) with (2 * (4 * k)) by lia.
  rewrite skipn_hex, firstn_hex, fromhex_hex. unfold field.
  assert (Hl : length (firstn 4 (skipn (4 * k) w)) = 4)
    by (rewrite length_firstn, length_skipn; lia).
  destruct (firstn 4 (skipn (4 * k) w)) as [ | b0 [ | b1 [ | b2 [ | b3 [ | ? ?]]]]];
    try discriminate.
  reflexivity.
Qed.

(** [decode_imu_data] on the hex text of a byte string: the sample of its
    first 24 bytes, when there are that many. *)
Lemma decode_hex w :
  decode_imu_data (hex w)
  = if length w <? 24 then ret None else ret (Some (sample_of_window w)).
Proof.
  unfold decode_imu_data. rewrite length_hex.
  destruct (Nat.ltb_spec (length w) 24) as [Hlt | Hge].
  - destruct (Nat.ltb_spec (2 * length w) 48); [reflexivity | lia].
  - destruct (Nat.ltb_spec (2 * length w) 48); [lia | ].
    destruct (range0_8 (n := 2 * length w)) as [Hr Hl]; [lia | ].
    rewrite length_map.
    destruct (Nat.ltb_spec (length (range0 (2 * length w) 8)) 6); [lia | ].
    change 6%Z with (Z.of_nat 6). rewrite slice_prefix.
    rewrite firstn_map, Hr. cbn [map mapM].
    rewrite (chunk_value w 0 (i := 0)), (chunk_value w 1 (i := 8)),
      (chunk_value w 2 (i := 16)), (chunk_value w 3 (i := 24)),
      (chunk_value w 4 (i := 32)), (chunk_value w 5 (i := 40)) by lia.
    reflexivity.
Qed.

Lemma field_firstn n w k :
  4 * k + 4 <= n -> field (firstn n w) k = field w k.
Proof.
  intros H. unfold field.
  rewrite skipn_firstn_comm, firstn_firstn.
  replace (Nat.min 4 (n - 4 * k)) with 4 by lia. reflexivity.
Qed.

(** A sample is determined by the first 24 bytes of its window. *)
Lemma sample_of_window_firstn n w :
  24 <= n -> sample_of_window (firstn n w) = sample_of_window w.
Proof.
  intros H. unfold sample_of_window.
  rewrite !field_firstn by lia. reflexivity.
Qed.

Lemma data_section_long payload :
  46 <= length payload ->
  data_section payload = firstn (length payload - 46) (skipn 20 payload).
Proof.
  intros H. unfold data_section, DATA_START_OFFSET, DATA_END_OFFSET.
  change 20%Z with (Z.of_nat 20). change (-26)%Z with (- Z.of_nat 26)%Z.
  rewrite slice_to_end by lia.
  replace (length payload - 20 - 26) with (length payload - 46) by lia.
  reflexivity.
Qed.

(** What [process_message] computes, check by check. *)
Lemma process_message_spec message :
  process_message message
  = if length message <? 64 then ret None
    else if negb (endswith (payload_of message) SENSOR_MSG) then ret None
    else if length (payload_of message) <? 70 then ret None
    else ret (Some (sample_of_window (window_from_start (payload_of message)))).
Proof.
  unfold process_message. fold (payload_of message).
  change (length HEADER + 8 + length FOOTER + 31) with 64.
  destruct (length message <? 64); [reflexivity | ].
  destruct (endswith (payload_of message) SENSOR_MSG); [ | reflexivity].
  cbn [negb]. set (p := payload_of message).
  change (DATA_START_OFFSET + Z.abs DATA_END_OFFSET)%Z with 46%Z.
  fold (data_section p).
  destruct (Z.ltb_spec (Z.of_nat (length p)) 46).
  - destruct (Nat.ltb_spec (length p) 70); [reflexivity | lia].
  - rewrite decode_hex, data_section_long by lia.
    rewrite length_firstn, length_skipn.
    destruct (Nat.ltb_spec (length p) 70);
      destruct (Nat.ltb_spec (Nat.min (length p - 46) (length p - 20)) 24);
      try lia; [reflexivity | ].
    rewrite sample_of_window_firstn by lia.
    unfold window_from_start. rewrite sample_of_window_firstn by lia.
    reflexivity.
Qed.

(** No message makes [process_message] raise. *)
Lemma process_message_total message :
  exists r, process_message message = ret r.
Proof.
  rewrite process_message_spec.
  destruct (length message <? 64); [eexists; reflexivity | ].
  destruct (negb (endswith (payload_of message) SENSOR_MSG));
    [eexists; reflexivity | ].
  destruct (length (payload_of message) <? 70); eexists; reflexivity.
Qed.

Lemma process_message_Some message s :
  process_message message = ret (Some s) ->
  64 <= length message
  /\ endswith (payload_of message) SENSOR_MSG = true
  /\ 70 <= length (payload_of message)
  /\ s = sample_of_window (window_from_start (payload_of message)).
Proof.
  rewrite process_message_spec.
  destruct (Nat.ltb_spec (length message) 64); [discriminate | ].
  destruct (endswith (payload_of message) SENSOR_MSG); [ | discriminate].
  cbn [negb].
  destruct (Nat.ltb_spec (length (payload_of message)) 70); [discriminate | ].
  intros E. injection E as <-. auto.
Qed.

Lemma payload_of_frame session_id payload metadata :
  length session_id = 8 -> length metadata = 31 ->
  payload_of (frame session_id payload metadata) = payload.
Proof.
  intros Hs Hm. unfold payload_of, frame.
  replace (Z.of_nat (length HEADER) + 8)%Z
    with (Z.of_nat (length (HEADER ++ session_id)))
    by (rewrite length_app, Hs; lia).
  replace (- Z.of_nat (length FOOTER) - 31)%Z
    with (- Z.of_nat (length (metadata ++ FOOTER)))%Z
    by (rewrite length_app, Hm; lia).
  rewrite (app_assoc HEADER session_id).
  apply slice_middle. rewrite length_app, Hm. lia.
Qed.

(** A well laid out sensor frame decodes to the sample of its window. *)
Lemma process_sensor_frame session_id lead w gap metadata :
  length session_id = 8 -> length lead = 20 -> length w = 24 ->
  20 <= length gap -> length metadata = 31 ->
  process_message (frame session_id (sensor_payload lead w gap) metadata)
  = ret (Some (sample_of_window w)).
Proof.
  intros Hs Hl Hw Hg Hm. rewrite process_message_spec.
  rewrite payload_of_frame by assumption.
  assert (Hlen : length (sensor_payload lead w gap) = 50 + length gap).
  { unfold sensor_payload. rewrite !length_app, Hl, Hw.
    change (length SENSOR_MSG) with 6. lia. }
  destruct (Nat.ltb_spec
              (length (frame session_id (sensor_payload lead w gap) metadata))
              64) as [Hlt | _].
  { unfold frame in Hlt. rewrite !length_app, Hlen in Hlt. lia. }
  replace (endswith (sensor_payload lead w gap) SENSOR_MSG) with true.
  2:{ unfold sensor_payload. symmetry.
      rewrite (app_assoc w gap), (app_assoc lead). apply endswith_app. }
  cbn [negb].
  destruct (Nat.ltb_spec (length (sensor_payload lead w gap)) 70); [lia | ].
  unfold window_from_start, sensor_payload.
  rewrite skipn_app, skipn_all2, Hl, Nat.sub_diag by lia. cbn [skipn app].
  rewrite firstn_app, Hw, Nat.sub_diag, firstn_all2 by lia.
  cbn [firstn]. rewrite app_nil_r. reflexivity.
Qed.

Lemma field_window_of v0 v1 v2 v3 v4 v5 :
  finite_float32 v0 -> finite_float32 v1 -> finite_float32 v2 ->
  finite_float32 v3 -> finite_float32 v4 -> finite_float32 v5 ->
  sample_of_window (window_of v0 v1 v2 v3 v4 v5)
  = {| ax := v0; ay := v1; az := v2; gz := v3; gy := v4; gx := v5 |}.
Proof.
  intros [A0 B0] [A1 B1] [A2 B2] [A3 B3] [A4 B4] [A5 B5].
  unfold sample_of_window, field, window_of, pack_f.
  cbn [app Nat.mul Nat.add skipn firstn].
  rewrite !FloatFacts.le_u32_pack
    by (apply FloatFacts.bits_of_float_range; assumption).
  rewrite !FloatFacts.float_of_bits_of_float by assumption.
  reflexivity.
Qed.

End DecodeFacts.

(* ================================================================= *)
(** ** The framing loop *)

Module FramingFacts.
Import Py Reader Wire SeqFacts.

Lemma starts_with_length sub s :
  starts_with sub s = true -> length sub <= length s.
Proof.
  revert s. induction sub as [ | x sub IH]; intros s H; cbn; [lia | ].
  destruct s as [ | y s]; [discriminate | ]. cbn in H.
  apply andb_true_iff in H. destruct H as [_ H]. apply IH in H. cbn. lia.
Qed.

Lemma starts_with_app sub s q :
  starts_with sub s = true -> starts_with sub (s ++ q) = true.
Proof.
  revert s. induction sub as [ | x sub IH]; intros s H; [reflexivity | ].
  destruct s as [ | y s]; [discriminate | ]. cbn in *.
  apply andb_true_iff in H. destruct H as [H1 H2].
  rewrite H1, (IH _ H2). reflexivity.
Qed.

Lemma starts_with_app_false sub s q :
  starts_with sub s = false -> length sub <= length s ->
  starts_with sub (s ++ q) = false.
Proof.
  revert s. induction sub as [ | x sub IH]; intros s H Hl; [discriminate | ].
  destruct s as [ | y s]; [cbn in Hl; lia | ]. cbn in *.
  destruct (Byte.eqb x y); [ | reflexivity]. cbn in *.
  apply IH; [assumption | lia].
Qed.

Lemma find_first_bound sub s i :
  find_first sub s = Some i -> i + length sub <= length s.
Proof.
  revert i. induction s as [ | c s IH]; intros i; cbn [find_first].
  - destruct (starts_with sub []) eqn:E; [ | discriminate].
    intros [= <-]. apply starts_with_length in E. lia.
  - destruct (starts_with sub (c :: s)) eqn:E.
    + intros [= <-]. apply starts_with_length in E. lia.
    + destruct (find_first sub s) as [j | ]; [ | discriminate].
      cbn. intros [= <-]. specialize (IH j eq_refl). cbn. lia.
Qed.

(** The lowest occurrence does not move when bytes are appended. *)
Lemma find_first_app sub s q i :
  find_first sub s = Some i -> find_first sub (s ++ q) = Some i.
Proof.
  revert i. induction s as [ | c s IH]; intros i; cbn [find_first app].
  - destruct (starts_with sub []) eqn:E; [ | discriminate].
    intros [= <-]. destruct sub; [ | discriminate].
    destruct q; reflexivity.
  - destruct (starts_with sub (c :: s)) eqn:E.
    + intros [= <-]. change (c :: s ++ q) with ((c :: s) ++ q).
      rewrite (starts_with_app _ _ q E). reflexivity.
    + destruct (find_first sub s) as [j | ] eqn:F; [ | discriminate].
      cbn. intros [= <-].
      pose proof (find_first_bound _ _ F) as Hb.
      change (c :: s ++ q) with ((c :: s) ++ q).
      rewrite starts_with_app_false by (cbn; auto; lia).
      rewrite (IH j eq_refl). reflexivity.
Qed.

Lemma find_bound s sub start i :
  find s sub start = Some i -> start <= i /\ i + length sub <= length s.
Proof.
  unfold find. destruct (Nat.ltb_spec (length s) start); [discriminate | ].
  destruct (find_first sub (skipn start s)) as [j | ] eqn:F; [ | discriminate].
  cbn. intros [= <-]. apply find_first_bound in F.
  rewrite length_skipn in F. lia.
Qed.

Lemma find_app s sub start q i :
  find s sub start = Some i -> find (s ++ q) sub start = Some i.
Proof.
  unfold find. destruct (Nat.ltb_spec (length s) start); [discriminate | ].
  destruct (find_first sub (skipn start s)) as [j | ] eqn:F; [ | discriminate].
  cbn [option_map]. intros [= <-]. rewrite length_app.
  destruct (Nat.ltb_spec (length s + length q) start); [lia | ].
  rewrite skipn_app.
  replace (start - length s) with 0 by lia. cbn [skipn].
  rewrite (find_first_app _ _ q F). reflexivity.
Qed.

(** The message cut from a buffer and the bytes left over. *)
Lemma next_message_eq buf message rest :
  next_message buf = Some (message, rest) ->
  exists h f,
    find buf HEADER 0 = Some h /\ find buf FOOTER h = Some f
    /\ h <= f /\ f + 19 <= length buf
    /\ message = firstn (f + 19 - h) (skipn h buf)
    /\ rest = skipn (f + 19) buf.
Proof.
  unfold next_message.
  destruct (find buf HEADER 0) as [h | ] eqn:Hh; [ | discriminate].
  destruct (find buf FOOTER h) as [f | ] eqn:Hf; [ | discriminate].
  pose proof (find_bound _ _ _ Hf) as [Hhf Hfl].
  change (length FOOTER) with 19 in *.
  rewrite slice_nat, slice_from_nat by lia.
  intros [= <- <-]. exists h, f. auto 10.
Qed.

Lemma next_message_shrinks buf message rest :
  next_message buf = Some (message, rest) -> length rest < length buf.
Proof.
  intros H. destruct (next_message_eq _ H) as (h & f & _ & _ & _ & Hl & _ & ->).
  rewrite length_skipn. lia.
Qed.

(** A message found in the buffer is found again, with the same bounds,
    after more bytes have arrived. *)
Lemma next_message_app buf q message rest :
  next_message buf = Some (message, rest) ->
  next_message (buf ++ q) = Some (message, rest ++ q).
Proof.
  intros H.
  destruct (next_message_eq _ H) as (h & f & Hh & Hf & Hhf & Hl & -> & ->).
  unfold next_message.
  rewrite (find_app _ _ _ q Hh), (find_app _ _ _ q Hf).
  change (length FOOTER) with 19.
  rewrite slice_nat, slice_from_nat by (rewrite length_app; lia).
  rewrite !skipn_app.
  replace (h - length buf) with 0 by lia.
  replace (f + 19 - length buf) with 0 by lia. cbn [skipn].
  rewrite firstn_app, length_skipn.
  replace (f + 19 - h - (length buf - h)) with 0 by lia.
  cbn [firstn]. rewrite app_nil_r. reflexivity.
Qed.

Lemma next_message_nil : next_message [] = None.
Proof. reflexivity. Qed.

Lemma buffer_nil (st : run_state) :
  length (recv_buffer st) <= 0 -> next_message (recv_buffer st) = None.
Proof.
  intros H. destruct (recv_buffer st); [reflexivity | cbn in H; lia].
Qed.

(** Fuel beyond the length of the buffer changes nothing. *)
Lemma process_complete_enough n :
  forall st f1 f2,
    length (recv_buffer st) <= n ->
    length (recv_buffer st) <= f1 -> length (recv_buffer st) <= f2 ->
    process_complete f1 st = process_complete f2 st.
Proof.
  induction n as [ | n IH]; intros st f1 f2 Hn H1 H2.
  - pose proof (buffer_nil st Hn) as E.
    destruct f1, f2; cbn [process_complete]; rewrite ?E; reflexivity.
  - destruct f1 as [ | f1].
    { pose proof (buffer_nil st H1) as E.
      destruct f2; cbn [process_complete]; rewrite ?E; reflexivity. }
    destruct f2 as [ | f2].
    { pose proof (buffer_nil st H2) as E.
      cbn [process_complete]; rewrite ?E; reflexivity. }
    cbn [process_complete].
    destruct (next_message (recv_buffer st)) as [[message rest] | ] eqn:E;
      [ | reflexivity].
    apply next_message_shrinks in E.
    destruct (process_message message) as [e | [d | ]]; [reflexivity | | ];
      apply IH; cbn [recv_buffer]; lia.
Qed.

(** The inner loop, one pass at a time. *)
Lemma process_buffer_unfold st :
  process_buffer st
  = match next_message (recv_buffer st) with
    | None => (st, None)
    | Some (message, rest) =>
        let st1 := {| recv_buffer := rest;
                      message_count := message_count st;
                      delivered := delivered st;
                      framed := framed st ++ [message] |} in
        match process_message message with
        | inl e => (st1, Some e)
        | inr None => process_buffer st1
        | inr (Some imu_data) =>
            process_buffer
              {| recv_buffer := rest;
                 message_count := message_count st + 1;
                 delivered :=
                   delivered st ++ [(imu_data, message_count st + 1)];
                 framed := framed st ++ [message] |}
        end
    end.
Proof.
  unfold process_buffer.
  destruct (length (recv_buffer st)) as [ | k] eqn:L.
  - rewrite buffer_nil by lia. reflexivity.
  - cbn [process_complete].
    destruct (next_message (recv_buffer st)) as [[message rest] | ] eqn:E;
      [ | reflexivity].
    apply next_message_shrinks in E.
    cbn [message_count delivered framed recv_buffer].
    destruct (process_message message) as [e | [d | ]]; [reflexivity | | ];
      apply process_complete_enough with (n := k); cbn [recv_buffer]; lia.
Qed.

(** The inner loop never ends on an exception... *)
Lemma process_complete_no_exception fuel :
  forall st, snd (process_complete fuel st) = None.
Proof.
  induction fuel as [ | fuel IH]; intros st; cbn [process_complete];
    [reflexivity | ].
  destruct (next_message (recv_buffer st)) as [[message rest] | ];
    [ | reflexivity].
  destruct (DecodeFacts.process_message_total message) as [r ->].
  unfold ret. destruct r; apply IH.
Qed.

(** ... and it ends because a [break] is reached: no complete message is
    left in the buffer. *)
Lemma process_complete_exit fuel :
  forall st,
    length (recv_buffer st) <= fuel ->
    next_message (recv_buffer (fst (process_complete fuel st))) = None.
Proof.
  induction fuel as [ | fuel IH]; intros st H; cbn [process_complete].
  - apply buffer_nil. exact H.
  - destruct (next_message (recv_buffer st)) as [[message rest] | ] eqn:E;
      [ | exact E].
    apply next_message_shrinks in E.
    destruct (DecodeFacts.process_message_total message) as [r ->].
    unfold ret. destruct r; apply IH; cbn [recv_buffer]; lia.
Qed.

Lemma process_buffer_exit st :
  next_message (recv_buffer (fst (process_buffer st))) = None.
Proof. apply process_complete_exit. lia. Qed.

Lemma process_buffer_no_exception st :
  process_buffer st = (fst (process_buffer st), None).
Proof.
  pose proof (process_complete_no_exception (length (recv_buffer st)) st) as H.
  unfold process_buffer. destruct (process_complete _ st) as [st' e].
  cbn in *. subst e. reflexivity.
Qed.

Lemma process_buffer_done st :
  next_message (recv_buffer st) = None -> process_buffer st = (st, None).
Proof. intros H. rewrite process_buffer_unfold, H. reflexivity. Qed.

(** Processing the buffer, then receiving [q] and processing again, is
    processing the buffer with [q] already there. *)
Lemma process_buffer_resume n :
  forall st q,
    length (recv_buffer st) <= n ->
    process_buffer (push (fst (process_buffer st)) q)
    = process_buffer (push st q).
Proof.
  induction n as [ | n IH]; intros st q Hn.
  - rewrite (process_buffer_done st) by (apply buffer_nil; exact Hn).
    reflexivity.
  - rewrite (process_buffer_unfold st).
    destruct (next_message (recv_buffer st)) as [[message rest] | ] eqn:E;
      [ | reflexivity].
    rewrite (process_buffer_unfold (push st q)). cbn [push recv_buffer].
    rewrite (next_message_app _ q E).
    apply next_message_shrinks in E.
    cbn [message_count delivered framed].
    destruct (DecodeFacts.process_message_total message) as [r ->].
    unfold ret. cbv zeta.
    destruct r as [d | ].
    + rewrite IH by (cbn [recv_buffer]; lia). reflexivity.
    + rewrite IH by (cbn [recv_buffer]; lia). reflexivity.
Qed.

Lemma push_push st a b : push (push st a) b = push st (a ++ b).
Proof. unfold push. cbn. rewrite app_assoc. reflexivity. Qed.

Lemma push_nil st : push st [] = st.
Proof. destruct st. unfold push. cbn. rewrite app_nil_r. reflexivity. Qed.

Lemma on_data_resume st a b :
  on_data (fst (on_data st a)) b = on_data st (a ++ b).
Proof.
  unfold on_data.
  rewrite process_buffer_resume with (n := length (recv_buffer (push st a)))
    by lia.
  rewrite push_push. reflexivity.
Qed.

(** Chunk by chunk or all at once: the framing loop ends in the same
    state. *)
Lemma feed_chunks_concat chunks :
  forall st,
    next_message (recv_buffer st) = None ->
    feed_chunks chunks st = fst (on_data st (concat chunks)).
Proof.
  induction chunks as [ | c chunks IH]; intros st Hst.
  - cbn [concat feed_chunks]. unfold on_data.
    rewrite push_nil, process_buffer_done by exact Hst. reflexivity.
  - cbn [concat feed_chunks]. unfold on_data at 1.
    rewrite process_buffer_no_exception. fold (on_data st c).
    rewrite IH by (unfold on_data; apply process_buffer_exit).
    rewrite on_data_resume. reflexivity.
Qed.

Lemma run_loop_concat chunks :
  forall st,
    next_message (recv_buffer st) = None ->
    Forall (fun c => c <> []) chunks ->
    run_loop (map Recv chunks) st = on_data st (concat chunks).
Proof.
  induction chunks as [ | c chunks IH]; intros st Hst Hne.
  - cbn [concat map run_loop]. unfold on_data.
    rewrite push_nil, process_buffer_done by exact Hst. reflexivity.
  - inversion Hne as [ | ? ? Hc Hrest]; subst.
    cbn [concat map run_loop].
    destruct c as [ | x c]; [congruence | ].
    unfold on_data at 1.
    rewrite process_buffer_no_exception. fold (on_data st (x :: c)).
    rewrite IH;
      [ | unfold on_data; apply process_buffer_exit | assumption].
    apply on_data_resume.
Qed.

Lemma run_single stream :
  run_loop [Recv stream] run_init = on_data run_init stream.
Proof.
  cbn [run_loop]. destruct stream as [ | x stream].
  - reflexivity.
  - unfold on_data. rewrite process_buffer_no_exception. reflexivity.
Qed.

End FramingFacts.

(* ================================================================= *)
(** ** Angle wrapping *)

Unset Implicit Arguments.

Module WrapFacts.
Import Tracker Motion.
Local Open Scope R_scope.

Lemma wrap_down_id n a : a <= 180 -> wrap_down n a = a.
Proof.
  intros H. destruct n; cbn [wrap_down]; [reflexivity | ].
  destruct (Rlt_dec 180 a); [lra | reflexivity].
Qed.

Lemma wrap_up_id n a : -180 <= a -> wrap_up n a = a.
Proof.
  intros H. destruct n; cbn [wrap_up]; [reflexivity | ].
  destruct (Rlt_dec a (-180)); [lra | reflexivity].
Qed.

(** With enough passes the first loop ends below its bound, and above
    -180 when it ran at all. *)
Lemma wrap_down_exit n :
  forall a, a <= 180 + 360 * INR n ->
    wrap_down n a <= 180 /\ (180 < a -> -180 < wrap_down n a).
Proof.
  induction n as [ | n IH]; intros a H.
  - cbn in *. lra.
  - rewrite S_INR in H. cbn [wrap_down].
    destruct (Rlt_dec 180 a) as [Hgt | Hle]; [ | lra].
    destruct (IH (a - 360)) as [H1 H2]; [lra | ].
    split; [exact H1 | intros _].
    destruct (Rle_lt_dec (a - 360) 180) as [Hs | Hs].
    + rewrite wrap_down_id by exact Hs. lra.
    + apply H2. exact Hs.
Qed.

Lemma wrap_up_exit n :
  forall a, -180 - 360 * INR n <= a ->
    -180 <= wrap_up n a /\ (a < -180 -> wrap_up n a < 180).
Proof.
  induction n as [ | n IH]; intros a H.
  - cbn in *. lra.
  - rewrite S_INR in H. cbn [wrap_up].
    destruct (Rlt_dec a (-180)) as [Hlt | Hge]; [ | lra].
    destruct (IH (a + 360)) as [H1 H2]; [lra | ].
    split; [exact H1 | intros _].
    destruct (Rle_lt_dec (-180) (a + 360)) as [Hs | Hs].
    + rewrite wrap_up_id by exact Hs. lra.
    + apply H2. exact Hs.
Qed.

Lemma wrap_passes_bound a : Rabs a < 360 * INR (wrap_passes a).
Proof.
  unfold wrap_passes.
  destruct (archimed (Rabs a / 360)) as [Hup _].
  assert (H0 : 0 <= Rabs a / 360).
  { pose proof (Rabs_pos a). apply Rmult_le_pos; lra. }
  assert (Hz : (0 <= up (Rabs a / 360))%Z).
  { apply le_IZR. lra. }
  rewrite INR_IZR_INZ, Z2Nat.id by exact Hz. lra.
Qed.



Lemma wrap_down_passes a :
  wrap_down (wrap_passes a) a <= 180
  /\ (180 < a -> -180 < wrap_down (wrap_passes a) a)
  /\ (a <= 180 -> wrap_down (wrap_passes a) a = a).
Proof.
  pose proof (wrap_passes_bound a) as Hb.
  pose proof (Rle_abs a) as Ha.
  destruct (wrap_down_exit (wrap_passes a) a) as [H1 H2]; [lra | ].
  repeat split; auto. intros H. apply wrap_down_id. exact H.
Qed.

(** Both loops of [_wrap_angle] end within [wrap_passes] passes: at the
    result neither loop condition holds. *)
Lemma wrap_loops_exit a :
  ~ 180 < _wrap_angle a /\ ~ _wrap_angle a < -180.
Proof.
  unfold _wrap_angle, wrap_loops.
  destruct (wrap_down_passes a) as (H1 & H2 & H3).
  pose proof (wrap_passes_bound a) as Hb.
  destruct (Rle_lt_dec a 180) as [Hs | Hs].
  - rewrite H3 by exact Hs.
    assert (Hn : - a <= Rabs a) by (rewrite <- Rabs_Ropp; apply Rle_abs).
    destruct (wrap_up_exit (wrap_passes a) a) as [H4 H5]; [lra | ].
    destruct (Rle_lt_dec (-180) a) as [Hl | Hl].
    + rewrite wrap_up_id by exact Hl. lra.
    + specialize (H5 Hl). lra.
  - specialize (H2 Hs). rewrite wrap_up_id by lra. lra.
Qed.


Lemma wrap_in_range a : in_range (_wrap_angle a).
Proof. destruct (wrap_loops_exit a). unfold in_range. lra. Qed.

Lemma wrap_id a : in_range a -> _wrap_angle a = a.
Proof.
  intros [H1 H2]. unfold _wrap_angle, wrap_loops.
  rewrite wrap_down_id by exact H2. apply wrap_up_id. exact H1.
Qed.

Lemma wrap_passes_pos a : 180 < Rabs a -> (1 <= wrap_passes a)%nat.
Proof.
  intros H. pose proof (wrap_passes_bound a) as Hb.
  destruct (wrap_passes a); [cbn in Hb; lra | lia].
Qed.

(** One pass of the first loop is all it takes up to 540 degrees... *)
Lemma wrap_down_once a : 180 < a <= 540 -> _wrap_angle a = a - 360.
Proof.
  intros [H1 H2]. unfold _wrap_angle, wrap_loops.
  assert (Hp : (1 <= wrap_passes a)%nat).
  { apply wrap_passes_pos. pose proof (Rle_abs a). lra. }
  destruct (wrap_passes a) as [ | n]; [lia | ].
  cbn [wrap_down]. destruct (Rlt_dec 180 a); [ | lra].
  rewrite wrap_down_id by lra. apply wrap_up_id. lra.
Qed.

(** ... and one pass of the second down to -540 degrees. *)
Lemma wrap_up_once a : -540 <= a < -180 -> _wrap_angle a = a + 360.
Proof.
  intros [H1 H2]. unfold _wrap_angle, wrap_loops.
  assert (Hp : (1 <= wrap_passes a)%nat).
  { apply wrap_passes_pos. rewrite <- Rabs_Ropp. pose proof (Rle_abs (- a)).
    lra. }
  rewrite wrap_down_id by lra.
  destruct (wrap_passes a) as [ | n]; [lia | ].
  cbn [wrap_up]. destruct (Rlt_dec a (-180)); [ | lra].
  apply wrap_up_id. lra.
Qed.


End WrapFacts.

(* ================================================================= *)
(** ** Calibration *)

Module CalibrationFacts.
Import Tracker Motion.
Local Open Scope R_scope.

(** While the target is not reached, [calibrate_gyroscope] only collects. *)
Lemma feed_collecting l :
  forall t,
    is_calibrated t = false ->
    (calibration_count t + length l < calibration_target t)%nat ->
    feed t l
    = {| gyro_bias_x := gyro_bias_x t;
         gyro_bias_y := gyro_bias_y t;
         gyro_bias_z := gyro_bias_z t;
         is_calibrated := false;
         calibration_samples := calibration_samples t ++ map gyro_of l;
         calibration_count := calibration_count t + length l;
         calibration_target := calibration_target t;
         pitch := pitch t; yaw := yaw t; roll := roll t;
         zero_pitch := zero_pitch t;
         zero_yaw := zero_yaw t;
         zero_roll := zero_roll t;
         last_time := last_time t;
         movement_threshold := movement_threshold t;
         pitch_scale := pitch_scale t;
         yaw_scale := yaw_scale t;
         roll_scale := roll_scale t |}.
Proof.
  induction l as [ | d l IH]; intros t Hc Hn.
  - destruct t; cbn in *. subst.
    rewrite app_nil_r, Nat.add_0_r. reflexivity.
  - change (feed t (d :: l)) with (feed (fst (calibrate_gyroscope t d)) l).
    unfold calibrate_gyroscope. rewrite Hc.
    cbn [length] in Hn.
    destruct (Nat.leb_spec (calibration_target t) (calibration_count t + 1));
      [lia | ].
    cbn [fst]. rewrite IH; cbn; [ | reflexivity | lia].
    rewrite <- app_assoc, <- Nat.add_assoc. reflexivity.
Qed.

(** The call that reaches the target computes the bias and switches to
    the calibrated state. *)
Lemma calibrate_completes t d :
  is_calibrated t = false ->
  (calibration_count t + 1 = calibration_target t)%nat ->
  calibrate_gyroscope t d
  = (let samples := calibration_samples t ++ [gyro_of d] in
     {| gyro_bias_x :=
          sum (map (fun s => fst (fst s)) samples) / INR (length samples);
        gyro_bias_y :=
          sum (map (fun s => snd (fst s)) samples) / INR (length samples);
        gyro_bias_z :=
          sum (map (fun s => snd s) samples) / INR (length samples);
        is_calibrated := true;
        calibration_samples := samples;
        calibration_count := calibration_target t;
        calibration_target := calibration_target t;
        pitch := 0; yaw := 0; roll := 0;
        zero_pitch := zero_pitch t;
        zero_yaw := zero_yaw t;
        zero_roll := zero_roll t;
        last_time := 0;
        movement_threshold := movement_threshold t;
        pitch_scale := pitch_scale t;
        yaw_scale := yaw_scale t;
        roll_scale := roll_scale t |}, true).
Proof.
  intros Hc Hn. unfold calibrate_gyroscope. rewrite Hc, Hn.
  rewrite Nat.leb_refl. reflexivity.
Qed.

(** Once calibrated, [calibrate_gyroscope] changes nothing. *)
Lemma feed_calibrated l :
  forall t, is_calibrated t = true -> feed t l = t.
Proof.
  induction l as [ | d l IH]; intros t Hc; [reflexivity | ].
  change (feed t (d :: l)) with (feed (fst (calibrate_gyroscope t d)) l).
  unfold calibrate_gyroscope. rewrite Hc. cbn [fst]. apply IH. exact Hc.
Qed.

Lemma feed_app t l1 l2 : feed t (l1 ++ l2) = feed (feed t l1) l2.
Proof. unfold feed. apply fold_left_app. Qed.

Lemma sum_fold_right l : sum l = fold_right Rplus 0 l.
Proof.
  unfold sum. apply fold_symmetric; intros; ring.
Qed.

Lemma sum_constant c l :
  Forall (fun x => x = c) l -> fold_right Rplus 0 l = INR (length l) * c.
Proof.
  induction 1 as [ | x l Hx _ IH].
  - cbn. ring.
  - cbn [fold_right length]. rewrite S_INR, IH, Hx. ring.
Qed.

Lemma mean_constant c l :
  l <> [] -> Forall (fun x => x = c) l -> mean l = c.
Proof.
  intros Hl H. unfold mean. rewrite (sum_constant c l H).
  field. apply not_0_INR. destruct l; [congruence | discriminate].
Qed.

(** The state after the sample that completes a fresh calibration of
    [n + 1] samples. *)
Lemma feed_fresh t l d :
  is_calibrated t = false ->
  calibration_count t = 0%nat ->
  calibration_samples t = [] ->
  (length l + 1 = calibration_target t)%nat ->
  let t' := feed t (l ++ [d]) in
  is_calibrated t' = true
  /\ gyro_bias_x t' = mean (map (@gx R) (l ++ [d]))
  /\ gyro_bias_y t' = mean (map (@gy R) (l ++ [d]))
  /\ gyro_bias_z t' = mean (map (@gz R) (l ++ [d]))
  /\ pitch t' = 0 /\ yaw t' = 0 /\ roll t' = 0
  /\ last_time t' = 0
  /\ calibration_samples t' = map gyro_of (l ++ [d])
  /\ calibration_count t' = calibration_target t.
Proof.
  intros Hc H0 Hs Hn t'. subst t'.
  rewrite feed_app, (feed_collecting l t Hc) by lia.
  cbn [feed fold_left]. rewrite calibrate_completes; cbn; [ | reflexivity | lia].
  rewrite Hs. cbn [app]. rewrite <- map_last.
  unfold mean. rewrite <- !sum_fold_right, !length_map, !map_map.
  cbn [gyro_of fst snd]. repeat split; reflexivity.
Qed.

End CalibrationFacts.

(* ================================================================= *)
(** ** Invariants of the tracker *)

Module InvariantFacts.
Import Tracker Motion.
Local Open Scope R_scope.

(** [update] leaves the calibration fields alone. *)
Lemma update_calibration_fields t d now :
  is_calibrated (update t d now) = is_calibrated t
  /\ calibration_count (update t d now) = calibration_count t
  /\ calibration_target (update t d now) = calibration_target t
  /\ calibration_samples (update t d now) = calibration_samples t
  /\ gyro_bias_x (update t d now) = gyro_bias_x t
  /\ gyro_bias_y (update t d now) = gyro_bias_y t
  /\ gyro_bias_z (update t d now) = gyro_bias_z t.
Proof.
  unfold update.
  destruct (negb (is_calibrated t)); [tauto | ].
  destruct (Req_dec_T (last_time t) 0); [cbn; tauto | ].
  destruct (Rlt_dec _ _); cbn; tauto.
Qed.

(** The orientation after [update] is wrapped, or it is the one before. *)
Lemma update_orientation t d now :
  (in_range (pitch (update t d now)) /\ in_range (yaw (update t d now))
   /\ in_range (roll (update t d now)))
  \/ (pitch (update t d now) = pitch t /\ yaw (update t d now) = yaw t
      /\ roll (update t d now) = roll t).
Proof.
  unfold update.
  destruct (negb (is_calibrated t)); [right; tauto | ].
  destruct (Req_dec_T (last_time t) 0); [right; cbn; tauto | ].
  left. destruct (Rlt_dec _ _); cbn; auto using WrapFacts.wrap_in_range.
Qed.

Lemma in_range_0 : in_range 0.
Proof. unfold in_range. lra. Qed.

Lemma init_ok now : calibration_ok (init now) /\ orientation_ok (init now).
Proof.
  unfold calibration_ok, orientation_ok. cbn.
  repeat split; try apply in_range_0; try lia; try discriminate.
Qed.

Lemma exec_calibration_ok t c : calibration_ok t -> calibration_ok (exec t c).
Proof.
  intros (Ht & Hle & Hiff & Hlen). destruct c as [d | d now | | ]; cbn [exec].
  - unfold calibrate_gyroscope.
    destruct (is_calibrated t) eqn:Hc; cbn [fst].
    { unfold calibration_ok. rewrite Hc. tauto. }
    assert (Hlt : (calibration_count t < calibration_target t)%nat).
    { destruct (Nat.eq_dec (calibration_count t) (calibration_target t)) as [E | E].
      - apply Hiff in E. discriminate.
      - lia. }
    destruct (Nat.leb_spec (calibration_target t) (calibration_count t + 1));
      unfold calibration_ok; cbn; rewrite length_app; cbn [length].
    + repeat split; try lia; auto.
    + repeat split; try lia; try discriminate.
  - destruct (update_calibration_fields t d now) as (E1 & E2 & E3 & E4 & _).
    unfold calibration_ok. rewrite E1, E2, E3, E4. tauto.
  - unfold calibration_ok. cbn. tauto.
  - unfold calibration_ok. cbn. repeat split; try lia; try discriminate.
Qed.

Lemma exec_orientation_ok t c : orientation_ok t -> orientation_ok (exec t c).
Proof.
  intros H. destruct c as [d | d now | | ]; cbn [exec].
  - unfold calibrate_gyroscope.
    destruct (is_calibrated t); cbn [fst]; [exact H | ].
    destruct (_ <=? _)%nat; unfold orientation_ok; cbn;
      auto using in_range_0.
  - destruct (update_orientation t d now) as [Hw | (E1 & E2 & E3)].
    + exact Hw.
    + unfold orientation_ok. rewrite E1, E2, E3. exact H.
  - exact H.
  - exact H.
Qed.

Lemma execs_ok calls :
  forall t,
    calibration_ok t /\ orientation_ok t ->
    calibration_ok (execs t calls) /\ orientation_ok (execs t calls).
Proof.
  induction calls as [ | c calls IH]; intros t [H1 H2]; [tauto | ].
  cbn [execs fold_left]. apply IH.
  split; [apply exec_calibration_ok | apply exec_orientation_ok]; assumption.
Qed.

Lemma progress_range t :
  calibration_ok t -> 0 <= get_calibration_progress t <= 100.
Proof.
  intros (Ht & Hle & _ & _). unfold get_calibration_progress.
  rewrite Ht in *. apply le_INR in Hle.
  pose proof (pos_INR (calibration_count t)) as Hp.
  replace (INR 500) with 500 in * by (cbn; lra).
  split.
  - apply Rmult_le_pos; [ | lra]. apply Rmult_le_pos; [exact Hp | lra].
  - lra.
Qed.

End InvariantFacts.

(* ================================================================= *)
(** ** Fusion with the head at rest *)

Module FusionFacts.
Import Tracker Motion.
Local Open Scope R_scope.

Lemma atan2_zero_front : atan2 (- 0) 1 = 0.
Proof.
  unfold atan2. destruct (Rlt_dec 0 1); [ | lra].
  replace (- 0 / 1) with 0 by field. apply atan_0.
Qed.

Lemma pow_weight n : 0 < (96 / 100) ^ n <= 1.
Proof.
  induction n as [ | n IH]; cbn [pow]; lra.
Qed.

Lemma weight_vanishes c : tends_to (fun n => (96 / 100) ^ n * c) 0.
Proof.
  intros eps Heps.
  assert (Hq : Rabs (96 / 100) < 1) by (rewrite Rabs_pos_eq; lra).
  assert (Hy : 0 < eps / (Rabs c + 1)).
  { pose proof (Rabs_pos c). apply Rdiv_lt_0_compat; lra. }
  destruct (pow_lt_1_zero (96 / 100) Hq _ Hy) as [N HN].
  exists N. intros n Hn. specialize (HN n Hn).
  rewrite Rminus_0_r, Rabs_mult.
  pose proof (Rabs_pos c) as Hc. pose proof (Rabs_pos ((96 / 100) ^ n)) as Hp.
  apply Rlt_le_trans with (eps / (Rabs c + 1) * (Rabs c + 1)).
  - nra.
  - right. field. lra.
Qed.

End FusionFacts.

(* ================================================================= *)
(** ** The arithmetic of finite floats *)

Module PyFloatFacts.
Import PyFloat FloatTerms.
Local Open Scope R_scope.

Lemma fin_cases x r : fin x r -> x = Fin r \/ (x = NegZero /\ r = 0).
Proof.
  unfold fin. destruct x; cbn; intros H; try discriminate;
    injection H as <-; auto.
Qed.

Lemma fin_Fin r : fin (Fin r) r.
Proof. reflexivity. Qed.

Lemma fin_zero s : fin (zero s) 0.
Proof. destruct s; reflexivity. Qed.

Lemma fin_inj x a b : fin x a -> fin x b -> a = b.
Proof. unfold fin. intros -> H. injection H as <-. reflexivity. Qed.

Lemma fin_finite x r : fin x r -> is_finite x = true.
Proof. intros [-> | [-> _]] %fin_cases; reflexivity. Qed.

Lemma finite_fin x : is_finite x = true -> exists r, fin x r.
Proof.
  destruct x; cbn; try discriminate; intros _;
    [exists r | exists 0]; reflexivity.
Qed.

Lemma fin_value x r : fin x r -> value x = r.
Proof. intros [-> | [-> ->]] %fin_cases; reflexivity. Qed.

Lemma fin_is_zero x r :
  fin x r -> is_zero x = if Req_dec_T r 0 then true else false.
Proof.
  intros [-> | [-> ->]] %fin_cases; cbn; [reflexivity | ].
  destruct (Req_dec_T 0 0); [reflexivity | contradiction].
Qed.

Lemma is_zero_fin x : is_zero x = true -> fin x 0.
Proof.
  destruct x; cbn; try discriminate; [ | reflexivity].
  destruct (Req_dec_T r 0) as [-> | _]; [reflexivity | discriminate].
Qed.

Lemma is_zero_zero s : is_zero (zero s) = true.
Proof.
  destruct s; cbn; [reflexivity | ].
  destruct (Req_dec_T 0 0); [reflexivity | contradiction].
Qed.

Lemma negative_zero s : negative (zero s) = s.
Proof.
  destruct s; cbn; [reflexivity | ].
  destruct (Rlt_dec 0 0); [lra | reflexivity].
Qed.

Lemma fin_neg x a : fin x a -> fin (neg x) (- a).
Proof.
  intros [-> | [-> ->]] %fin_cases; cbn.
  - destruct (Req_dec_T a 0) as [-> | _]; unfold fin; cbn; f_equal; ring.
  - unfold fin; cbn; f_equal; ring.
Qed.

Lemma neg_zero s : neg (zero s) = zero (negb s).
Proof.
  destruct s; cbn; [reflexivity | ].
  destruct (Req_dec_T 0 0); [reflexivity | contradiction].
Qed.

Lemma fin_add x y a b : fin x a -> fin y b -> fin (add x y) (a + b).
Proof.
  intros [-> | [-> ->]] %fin_cases [-> | [-> ->]] %fin_cases;
    unfold fin; cbn; f_equal; ring.
Qed.

Lemma fin_sub x y a b : fin x a -> fin y b -> fin (sub x y) (a - b).
Proof.
  intros Hx Hy. unfold sub. apply (fin_add _ _ _ _ Hx (fin_neg _ _ Hy)).
Qed.

Lemma fin_mul x y a b : fin x a -> fin y b -> fin (mul x y) (a * b).
Proof.
  intros [-> | [-> ->]] %fin_cases [-> | [-> ->]] %fin_cases; cbn;
    repeat match goal with
           | |- context [Req_dec_T ?u ?v] => destruct (Req_dec_T u v)
           end;
    cbn; subst;
    try (match goal with
         | |- fin (zero _) _ =>
             match goal with |- fin (zero ?s) ?v =>
               replace v with 0 by ring; apply fin_zero end
         end);
    try (unfold fin; cbn; f_equal; ring).
Qed.

Lemma fin_abs x a : fin x a -> fin (abs x) (Rabs a).
Proof.
  intros [-> | [-> ->]] %fin_cases; unfold fin; cbn; f_equal.
  rewrite Rabs_R0. reflexivity.
Qed.

Lemma fin_ltb x y a b :
  fin x a -> fin y b -> ltb x y = if Rlt_dec a b then true else false.
Proof.
  intros [-> | [-> ->]] %fin_cases [-> | [-> ->]] %fin_cases; reflexivity.
Qed.

Lemma fin_gtb x y a b :
  fin x a -> fin y b -> gtb x y = if Rlt_dec b a then true else false.
Proof. intros Hx Hy. apply (fin_ltb _ _ _ _ Hy Hx). Qed.

Lemma fin_eqb x y a b :
  fin x a -> fin y b -> eqb x y = if Req_dec_T a b then true else false.
Proof.
  intros [-> | [-> ->]] %fin_cases [-> | [-> ->]] %fin_cases; reflexivity.
Qed.

Lemma fin_div x y a b :
  fin x a -> fin y b -> b <> 0 ->
  exists z, div x y = Returns z /\ fin z (a / b).
Proof.
  intros Hx Hy Hb. unfold div.
  rewrite (fin_is_zero _ _ Hy).
  destruct (Req_dec_T b 0) as [E | _]; [contradiction | ].
  destruct (fin_cases _ _ Hy) as [-> | [_ ->]]; [ | contradiction].
  destruct (fin_cases _ _ Hx) as [-> | [-> ->]]; cbn.
  - destruct (Req_dec_T a 0) as [-> | _].
    + eexists. split; [reflexivity | ].
      replace (0 / b) with 0 by (field; exact Hb). apply fin_zero.
    + eexists. split; reflexivity.
  - eexists. split; [reflexivity | ].
    replace (0 / b) with 0 by (field; exact Hb). apply fin_zero.
Qed.

Lemma fin_sqrt x a :
  fin x a -> 0 <= a -> exists z, sqrt x = Returns z /\ fin z (R_sqrt.sqrt a).
Proof.
  intros [-> | [-> ->]] %fin_cases Ha; cbn.
  - destruct (Rlt_dec a 0); [lra | ].
    eexists. split; reflexivity.
  - eexists. split; [reflexivity | ]. rewrite sqrt_0. reflexivity.
Qed.

Lemma atan_negative u : u < 0 -> atan u < 0.
Proof. intros H. rewrite <- atan_0. apply atan_increasing. exact H. Qed.

Lemma atan_positive u : 0 < u -> 0 < atan u.
Proof. intros H. rewrite <- atan_0. apply atan_increasing. exact H. Qed.

Ltac split_decisions :=
  repeat match goal with
         | |- context [Req_dec_T ?u ?v] => destruct (Req_dec_T u v)
         | |- context [Rlt_dec ?u ?v] => destruct (Rlt_dec u v)
         | |- context [Rle_dec ?u ?v] => destruct (Rle_dec u v)
         end.

(** [math.atan2] of finite floats is a finite angle between -pi and pi. *)
Lemma fin_atan2 y x b a :
  fin y b -> fin x a ->
  exists r, fin (atan2 y x) r /\ - PI <= r <= PI.
Proof.
  pose proof PI_RGT_0 as Hpi.
  pose proof (atan_bound (b / a)) as Hb.
  assert (H1 : 0 < b -> a < 0 -> atan (b / a) < 0).
  { intros Hb0 Ha0. apply atan_negative. unfold Rdiv.
    pose proof (Rinv_lt_0_compat a Ha0). nra. }
  assert (H2 : b < 0 -> a < 0 -> 0 < atan (b / a)).
  { intros Hb0 Ha0. apply atan_positive. unfold Rdiv.
    pose proof (Rinv_lt_0_compat a Ha0). nra. }
  intros [-> | [-> ->]] %fin_cases [-> | [-> ->]] %fin_cases; cbn;
    split_decisions; cbn;
    eexists; (split; [first [reflexivity | apply fin_zero] | ]); lra.
Qed.

(** At the branch cut the sign of the zero decides. *)
Lemma atan2_zero_behind y x a :
  is_zero y = true -> fin x a -> a < 0 ->
  atan2 y x = if negative y then Fin (- PI) else Fin PI.
Proof.
  intros Hy [-> | [-> ->]] %fin_cases Ha; [ | lra].
  apply is_zero_fin in Hy.
  destruct (fin_cases _ _ Hy) as [-> | [-> _]]; cbn; split_decisions;
    try lra; reflexivity.
Qed.

Lemma atan2_zero_ahead y x a :
  is_zero y = true -> fin x a -> 0 < a -> fin (atan2 y x) 0.
Proof.
  intros Hy [-> | [-> ->]] %fin_cases Ha; [ | lra].
  apply is_zero_fin in Hy.
  destruct (fin_cases _ _ Hy) as [-> | [-> _]]; cbn; split_decisions;
    try lra; reflexivity.
Qed.

Lemma of_float32_finite v :
  Wire.is_finite v = true -> exists r, fin (of_float32 v) r.
Proof.
  destruct v; cbn; try discriminate; intros _.
  - exists 0. apply fin_zero.
  - eexists. reflexivity.
Qed.

End PyFloatFacts.

(* ================================================================= *)
(** ** [_wrap_angle] on floats *)

Module FWrapFacts.
Import PyFloat FTracker FloatTerms PyFloatFacts.
Local Open Scope R_scope.

Lemma moved_refl x a : fin x a -> moved x x.
Proof.
  intros H. exists a, 0%Z. split; [exact H | ].
  replace (a + 360 * 0) with a by ring. exact H.
Qed.







Lemma wrap_angle_inside x a fuel :
  fin x a -> -180 <= a <= 180 -> _wrap_angle fuel x = Returns x.
Proof.
  intros Hx Ha. unfold _wrap_angle.
  assert (E1 : wrap_down fuel x = Returns x).
  { destruct fuel; cbn [wrap_down];
      rewrite (fin_gtb _ _ _ _ Hx (fin_Fin 180));
      destruct (Rlt_dec 180 a); try lra; reflexivity. }
  rewrite E1. cbn [bind].
  destruct fuel; cbn [wrap_up];
    rewrite (fin_ltb _ _ _ _ Hx (fin_Fin (-180)));
    destruct (Rlt_dec a (-180)); try lra; reflexivity.
Qed.

(** An infinite angle keeps both loops busy for ever. *)
Lemma sub_PosInf_360 : sub PosInf (Fin 360) = PosInf.
Proof.
  unfold sub. cbn. destruct (Req_dec_T 360 0); [lra | reflexivity].
Qed.

Lemma wrap_down_PosInf n : wrap_down n PosInf = Diverges.
Proof.
  induction n as [ | n IH]; [reflexivity | ].
  cbn [wrap_down gtb ltb turn_of]. rewrite sub_PosInf_360. exact IH.
Qed.

Lemma wrap_up_NegInf n : wrap_up n NegInf = Diverges.
Proof.
  induction n as [ | n IH]; [reflexivity | exact IH].
Qed.





Lemma wrap_angle_NaN fuel : _wrap_angle fuel NaN = Returns NaN.
Proof. destruct fuel; reflexivity. Qed.

Lemma wrap_angle_PosInf fuel : _wrap_angle fuel PosInf = Diverges.
Proof. unfold _wrap_angle. rewrite wrap_down_PosInf. reflexivity. Qed.

Lemma wrap_angle_NegInf fuel : _wrap_angle fuel NegInf = Diverges.
Proof.
  unfold _wrap_angle.
  assert (E : wrap_down fuel NegInf = Returns NegInf)
    by (destruct fuel; reflexivity).
  rewrite E. cbn [bind]. apply wrap_up_NegInf.
Qed.


End FWrapFacts.

(* ================================================================= *)
(** ** The head tracker on floats *)

Module FTrackerFacts.
Import PyFloat FTracker FloatTerms PyFloatFacts FWrapFacts.
Local Open Scope R_scope.


Lemma bind_Returns {A B} (a : A) (k : A -> outcome B) :
  bind (Returns a) k = k a.
Proof. reflexivity. Qed.

(** One fusion step on finite numbers: the three angles handed to
    [_wrap_angle] are finite. [w] is the weight of the gyroscope: 0.96, or
    1 when the accelerometer reads next to nothing. *)
Lemma update_fuses t d now
  (l n bx bY bz p y r vgx vgy vgz vax vay vaz : R) :
  is_calibrated t = true ->
  fin (last_time t) l -> l <> 0 -> fin now n ->
  fin (gyro_bias_x t) bx -> fin (gyro_bias_y t) bY -> fin (gyro_bias_z t) bz ->
  fin (pitch t) p -> fin (yaw t) y -> fin (roll t) r ->
  fin (gx d) vgx -> fin (gy d) vgy -> fin (gz d) vgz ->
  fin (ax d) vax -> fin (ay d) vay -> fin (az d) vaz ->
  exists np ny nr s u v w,
    (forall fuel,
       update fuel t d now
       = bind (_wrap_angle fuel np) (fun p' =>
         bind (_wrap_angle fuel ny) (fun y' =>
         bind (_wrap_angle fuel nr) (fun r' =>
         Returns (with_angles t p' y' r' now)))))
    /\ sqrt (add (mul (ay d) (ay d)) (mul (az d) (az d))) = Returns s
    /\ fin s (R_sqrt.sqrt (vay * vay + vaz * vaz))
    /\ fin (atan2 (neg (ax d)) s) u /\ - PI <= u <= PI
    /\ fin (atan2 (ay d) (az d)) v /\ - PI <= v <= PI
    /\ w = (if Rlt_dec (1 / 100)
                        (R_sqrt.sqrt (vax * vax + vay * vay + vaz * vaz))
            then 96 / 100 else 1)
    /\ fin np (w * (p + (vgx - bx) * (n - l)) + (1 - w) * (u * 180 / PI))
    /\ fin ny (y + (vgy - bY) * (n - l))
    /\ fin nr (w * (r + (vgz - bz) * (n - l)) + (1 - w) * (v * 180 / PI)).
Proof.
  intros Hc Hl Hl0 Hn Hbx Hby Hbz Hp Hy Hr Hgx Hgy Hgz Hax Hay Haz.
  pose proof (fin_sub _ _ _ _ Hn Hl) as Hdt.
  pose proof (fin_add _ _ _ _ Hp
                (fin_mul _ _ _ _ (fin_sub _ _ _ _ Hgx Hbx) Hdt)) as Hpg.
  pose proof (fin_add _ _ _ _ Hy
                (fin_mul _ _ _ _ (fin_sub _ _ _ _ Hgy Hby) Hdt)) as Hyg.
  pose proof (fin_add _ _ _ _ Hr
                (fin_mul _ _ _ _ (fin_sub _ _ _ _ Hgz Hbz) Hdt)) as Hrg.
  pose proof (fin_add _ _ _ _ (fin_mul _ _ _ _ Hay Hay)
                (fin_mul _ _ _ _ Haz Haz)) as Hyz.
  pose proof (fin_add _ _ _ _
                (fin_add _ _ _ _ (fin_mul _ _ _ _ Hax Hax)
                   (fin_mul _ _ _ _ Hay Hay))
                (fin_mul _ _ _ _ Haz Haz)) as Hxyz.
  destruct (fin_sqrt _ _ Hxyz) as (m & Em & Hm); [nra | ].
  destruct (fin_sqrt _ _ Hyz) as (s & Es & Hs); [nra | ].
  destruct (fin_atan2 _ _ _ _ (fin_neg _ _ Hax) Hs) as (u & Hu & Bu).
  destruct (fin_atan2 _ _ _ _ Hay Haz) as (v & Hv & Bv).
  destruct (fin_div _ _ _ _ (fin_mul _ _ _ _ Hu (fin_Fin 180)) (fin_Fin PI)
              PI_neq0) as (pa & Epa & Hpa).
  destruct (fin_div _ _ _ _ (fin_mul _ _ _ _ Hv (fin_Fin 180)) (fin_Fin PI)
              PI_neq0) as (ra & Era & Hra).
  assert (Hupd : forall fuel,
            update fuel t d now
            = bind (if gtb m (Fin (1 / 100)) then
                      Returns
                        (add (mul (Fin (96 / 100))
                                (add (pitch t)
                                   (mul (sub (gx d) (gyro_bias_x t))
                                      (sub now (last_time t)))))
                             (mul (sub (Fin 1) (Fin (96 / 100))) pa),
                         add (yaw t)
                           (mul (sub (gy d) (gyro_bias_y t))
                              (sub now (last_time t))),
                         add (mul (Fin (96 / 100))
                                (add (roll t)
                                   (mul (sub (gz d) (gyro_bias_z t))
                                      (sub now (last_time t)))))
                             (mul (sub (Fin 1) (Fin (96 / 100))) ra))
                    else
                      Returns
                        (add (pitch t)
                           (mul (sub (gx d) (gyro_bias_x t))
                              (sub now (last_time t))),
                         add (yaw t)
                           (mul (sub (gy d) (gyro_bias_y t))
                              (sub now (last_time t))),
                         add (roll t)
                           (mul (sub (gz d) (gyro_bias_z t))
                              (sub now (last_time t)))))
                (fun new =>
                   let '(new_pitch, new_yaw, new_roll) := new in
                   bind (_wrap_angle fuel new_pitch) (fun p' =>
                   bind (_wrap_angle fuel new_yaw) (fun y' =>
                   bind (_wrap_angle fuel new_roll) (fun r' =>
                   Returns (with_angles t p' y' r' now)))))).
  { intros fuel. unfold update.
    destruct (negb (is_calibrated t)) eqn:N;
      [rewrite Hc in N; discriminate | ].
    rewrite (fin_eqb _ _ _ _ Hl (fin_Fin 0)).
    destruct (Req_dec_T l 0) as [E | _]; [contradiction | ].
    cbv zeta. rewrite Em, bind_Returns. cbv beta.
    destruct (gtb m (Fin (1 / 100))); [ | reflexivity].
    rewrite Es, bind_Returns, Epa, bind_Returns, Era, bind_Returns.
    reflexivity. }
  rewrite (fin_gtb _ _ _ _ Hm (fin_Fin (1 / 100))) in Hupd.
  destruct (Rlt_dec (1 / 100)
              (R_sqrt.sqrt (vax * vax + vay * vay + vaz * vaz))).
  - do 3 eexists. exists s, u, v, (96 / 100).
    split; [intros fuel; rewrite Hupd, bind_Returns; reflexivity | ].
    repeat (split; [first [assumption | reflexivity | lra] | ]).
    split; [ | split; [exact Hyg | ]].
    + apply fin_add; [apply fin_mul; [apply fin_Fin | exact Hpg] | ].
      apply fin_mul; [apply fin_sub; apply fin_Fin | exact Hpa].
    + apply fin_add; [apply fin_mul; [apply fin_Fin | exact Hrg] | ].
      apply fin_mul; [apply fin_sub; apply fin_Fin | exact Hra].
  - do 3 eexists. exists s, u, v, 1.
    split; [intros fuel; rewrite Hupd, bind_Returns; reflexivity | ].
    repeat (split; [first [assumption | reflexivity | lra] | ]).
    split; [ | split; [exact Hyg | ]].
    + replace (1 * (p + (vgx - bx) * (n - l)) + (1 - 1) * (u * 180 / PI))
        with (p + (vgx - bx) * (n - l)) by ring.
      exact Hpg.
    + replace (1 * (r + (vgz - bz) * (n - l)) + (1 - 1) * (v * 180 / PI))
        with (r + (vgz - bz) * (n - l)) by ring.
      exact Hrg.
Qed.


Lemma angle_ok_finite x : angle_ok x -> finite x.
Proof. intros (r & Hr & _). exists r. exact Hr. Qed.

Lemma angle_ok_zero : angle_ok (Fin 0).
Proof. exists 0. split; [reflexivity | lra]. Qed.











End FTrackerFacts.

(* ================================================================= *)
(** ** The head at rest, on floats *)

Module FRestFacts.
Import PyFloat FTracker FloatTerms PyFloatFacts FWrapFacts FTrackerFacts.
Local Open Scope R_scope.

(** One [update] at rest: the pitch shrinks by the filter weight, the yaw
    stays, and the roll moves towards 180 degrees, signed as the zero read
    on the y axis. No pass of [_wrap_angle] is needed. *)
Lemma update_resting fuel t xs ys now (l n p y r : R) :
  is_calibrated t = true ->
  fin (last_time t) l -> l <> 0 -> fin now n ->
  finite (gyro_bias_x t) -> finite (gyro_bias_y t) -> finite (gyro_bias_z t) ->
  fin (pitch t) p -> -180 <= p <= 180 ->
  fin (yaw t) y -> -180 <= y <= 180 ->
  fin (roll t) r -> -180 <= r <= 180 ->
  exists p' y' r',
    update fuel t (at_rest_of t xs ys) now
    = Returns (with_angles t p' y' r' now)
    /\ fin p' (96 / 100 * p)
    /\ fin y' y
    /\ fin r' (96 / 100 * r + 4 / 100 * rest_roll ys).
Proof.
  intros Hc Hl Hl0 Hn [bx Hbx] [bY Hby] [bz Hbz] Hp Bp Hy By Hr Br.
  destruct (update_fuses t (at_rest_of t xs ys) now l n bx bY bz p y r
              bx bY bz 0 0 (-1) Hc Hl Hl0 Hn Hbx Hby Hbz Hp Hy Hr
              Hbx Hby Hbz (fin_zero xs) (fin_zero ys) (fin_Fin (-1)))
    as (np & ny & nr & s & u & v & w & E & _ & Hs & Hu & _ & Hv & _ & Ew
        & Fp & Fy & Fr).
  cbn [at_rest_of ax ay az] in Hs, Hu, Hv.
  assert (E1 : 0 * 0 + -1 * -1 = 1) by ring.
  assert (E2 : 0 * 0 + 0 * 0 + -1 * -1 = 1) by ring.
  rewrite E1, sqrt_1 in Hs. rewrite E2, sqrt_1 in Ew.
  destruct (Rlt_dec (1 / 100) 1) as [_ | N]; [ | lra]. subst w.
  assert (Eu : u = 0).
  { apply (fin_inj _ _ _ Hu).
    apply (atan2_zero_ahead _ _ 1); [ | exact Hs | lra].
    rewrite neg_zero. apply is_zero_zero. }
  assert (Ev : v * 180 / PI = rest_roll ys).
  { rewrite (atan2_zero_behind _ _ (-1) (is_zero_zero ys) (fin_Fin (-1)))
      in Hv by lra.
    rewrite negative_zero in Hv. pose proof PI_neq0 as Hpi.
    destruct ys; cbn [rest_roll]; unfold fin in Hv; cbn in Hv;
      injection Hv as <-; field; exact Hpi. }
  rewrite Ev in Fr. subst u.
  assert (Ep' : 96 / 100 * (p + (bx - bx) * (n - l))
                + (1 - 96 / 100) * (0 * 180 / PI) = 96 / 100 * p).
  { pose proof PI_neq0. field. assumption. }
  assert (Ey' : y + (bY - bY) * (n - l) = y) by ring.
  assert (Er' : 96 / 100 * (r + (bz - bz) * (n - l))
                + (1 - 96 / 100) * rest_roll ys
                = 96 / 100 * r + 4 / 100 * rest_roll ys) by field.
  rewrite Ep' in Fp. rewrite Ey' in Fy. rewrite Er' in Fr.
  exists np, ny, nr.
  split; [ | repeat split; assumption].
  rewrite E.
  rewrite (wrap_angle_inside np _ fuel Fp) by lra.
  rewrite bind_Returns.
  rewrite (wrap_angle_inside ny _ fuel Fy) by lra.
  rewrite bind_Returns.
  rewrite (wrap_angle_inside nr _ fuel Fr)
    by (destruct ys; cbn [rest_roll]; lra).
  reflexivity.
Qed.

(** The closed form of the angles after [n] updates at rest. *)
Lemma updates_resting fuel t xs ys (start dt p y r : R) n :
  is_calibrated t = true ->
  fin (last_time t) start -> 0 < start -> 0 < dt ->
  finite (gyro_bias_x t) -> finite (gyro_bias_y t) -> finite (gyro_bias_z t) ->
  fin (pitch t) p -> -180 <= p <= 180 ->
  fin (yaw t) y -> -180 <= y <= 180 ->
  fin (roll t) r -> -180 <= r <= 180 ->
  exists t',
    updates fuel t (at_rest_of t xs ys) start dt n = Returns t'
    /\ is_calibrated t' = true
    /\ gyro_bias_x t' = gyro_bias_x t
    /\ gyro_bias_y t' = gyro_bias_y t
    /\ gyro_bias_z t' = gyro_bias_z t
    /\ fin (last_time t') (start + INR n * dt)
    /\ fin (pitch t') ((96 / 100) ^ n * p)
    /\ fin (yaw t') y
    /\ fin (roll t')
         (rest_roll ys - (96 / 100) ^ n * (rest_roll ys - r)).
Proof.
  intros Hc Hl Hs Hd Hbx Hby Hbz Hp Bp Hy By Hr Br.
  induction n as [ | n IH].
  - exists t. cbn [updates pow INR].
    replace (start + 0 * dt) with start by ring.
    replace (1 * p) with p by ring.
    replace (rest_roll ys - 1 * (rest_roll ys - r)) with r by ring.
    repeat split; assumption.
  - destruct IH as (u & Eu & Uc & Ux & Uy & Uz & Ul & Up & Uyaw & Ur).
    cbn [updates]. rewrite Eu, bind_Returns.
    pose proof (FusionFacts.pow_weight n) as Hw.
    pose proof (pos_INR n) as Hn.
    assert (Erest : at_rest_of t xs ys = at_rest_of u xs ys).
    { unfold at_rest_of. rewrite Ux, Uy, Uz. reflexivity. }
    rewrite Erest.
    destruct (update_resting fuel u xs ys (Fin (start + INR (S n) * dt))
                (start + INR n * dt) (start + INR (S n) * dt)
                ((96 / 100) ^ n * p) y
                (rest_roll ys - (96 / 100) ^ n * (rest_roll ys - r)))
      as (p' & y' & r' & E & Fp & Fy & Fr); try assumption;
      try reflexivity; try (rewrite ?Ux, ?Uy, ?Uz; assumption).
    { nra. }
    { nra. }
    { destruct ys; cbn [rest_roll]; nra. }
    exists (with_angles u p' y' r' (Fin (start + INR (S n) * dt))).
    split; [exact E | ].
    cbn [with_angles is_calibrated gyro_bias_x gyro_bias_y gyro_bias_z
         last_time pitch yaw roll].
    repeat (split; [first [assumption | reflexivity] | ]).
    split; [ | split; [exact Fy | ]].
    + replace ((96 / 100) ^ S n * p) with (96 / 100 * ((96 / 100) ^ n * p))
        by (cbn [pow]; field).
      exact Fp.
    + replace (rest_roll ys - (96 / 100) ^ S n * (rest_roll ys - r))
        with (96 / 100 * (rest_roll ys - (96 / 100) ^ n * (rest_roll ys - r))
              + 4 / 100 * rest_roll ys)
        by (cbn [pow]; field).
      exact Fr.
Qed.

End FRestFacts.

(* ================================================================= *)
(** ** More on [_wrap_angle] and the states of the tracker, on floats *)

Module FStateFacts.
Import PyFloat FTracker FloatTerms PyFloatFacts FWrapFacts FTrackerFacts.
Local Open Scope R_scope.







(** The largest binary32 number is far above 2^63. *)
Lemma max_float32_value :
  fin (of_float32 max_float32) 340282346638528859811704183484516925440.
Proof.
  unfold fin, of_float32, max_float32, to_R. f_equal.
  unfold powerRZ. rewrite pow_IZR, positive_nat_Z, <- !mult_IZR.
  apply f_equal. vm_compute. reflexivity.
Qed.

Lemma primed_sound : sound primed.
Proof.
  unfold sound.
  cbn [primed gyro_bias_x gyro_bias_y gyro_bias_z last_time
       calibration_samples pitch yaw roll].
  repeat split; try apply angle_ok_zero; try (eexists; reflexivity).
  apply Forall_forall. intros s Hs. apply repeat_spec in Hs. subst s.
  repeat split; cbn; exists 0; reflexivity.
Qed.



End FStateFacts.

(* ================================================================= *)
(** * The properties of the design document *)

Import Py Reader Wire.

(** ** Frame decoding *)

(** C1, as the code has it. For six finite binary32 values, the frame laid
    out as the wire format says (start marker, 8 session-id bytes, a payload
    with the six little-endian values [ax, ay, az, gz, gy, gx] in the 24
    bytes at offset 20, then at least 20 further bytes, then the
    sensor-message marker, 31 metadata bytes, end marker) is decoded by
    [process_message] to the sample holding exactly these values. The 20
    bytes of [gap] and the 6 of the marker are the 26 bytes the code leaves
    out at the end of the payload. *)
Theorem decode_round_trip
  (vgx vgy vgz vax vay vaz : spec_float)
  (session_id lead gap metadata : bytes) :
  finite_float32 vgx -> finite_float32 vgy -> finite_float32 vgz ->
  finite_float32 vax -> finite_float32 vay -> finite_float32 vaz ->
  length session_id = 8 -> length lead = 20 -> 20 <= length gap ->
  length metadata = 31 ->
  process_message
    (frame session_id
           (sensor_payload lead (window_of vax vay vaz vgz vgy vgx) gap)
           metadata)
  = ret (Some {| gx := vgx; gy := vgy; gz := vgz;
                 ax := vax; ay := vay; az := vaz |}).
Proof.
  intros Hgx Hgy Hgz Hax Hay Haz Hs Hl Hg Hm.
  rewrite DecodeFacts.process_sensor_frame by (assumption || reflexivity).
  rewrite DecodeFacts.field_window_of by assumption.
  reflexivity.
Qed.

Lemma decode_round_trip_witness :
  process_message
    (frame (zeros 8)
           (sensor_payload
              (zeros 20)
              (window_of (S754_finite false 8388608 (-23)) (S754_zero false)
                         (S754_finite true 8388608 (-23))
                         (S754_finite false 1 (-149)) (S754_zero true)
                         (S754_finite false 12582912 (-24)))
              (zeros 20))
           (zeros 31))
  = ret (Some {| gx := S754_finite false 12582912 (-24);
                 gy := S754_zero true;
                 gz := S754_finite false 1 (-149);
                 ax := S754_finite false 8388608 (-23);
                 ay := S754_zero false;
                 az := S754_finite true 8388608 (-23) |}).
Proof.
  apply decode_round_trip;
    try (split; reflexivity); reflexivity.
Defined.

(** C1 as stated fails. With the sensor-message marker right after the 24
    bytes of the window, as the claim lays the frame out, the section the
    code cuts out of the payload is empty and the frame is dropped, for six
    finite values. *)
Lemma round_trip_without_gap_is_dropped :
  finite_float32 (S754_finite false 8388608 (-23))
  /\ finite_float32 (S754_zero false)
  /\ finite_float32 (S754_finite true 8388608 (-23))
  /\ finite_float32 (S754_finite false 1 (-149))
  /\ finite_float32 (S754_zero true)
  /\ finite_float32 (S754_finite false 12582912 (-24))
  /\ process_message
       (frame (zeros 8)
              (sensor_payload
                 (zeros 20)
                 (window_of (S754_finite false 8388608 (-23)) (S754_zero false)
                            (S754_finite true 8388608 (-23))
                            (S754_finite false 1 (-149)) (S754_zero true)
                            (S754_finite false 12582912 (-24)))
                 [])
              (zeros 31))
     = ret None.
Proof.
  repeat (split; [split; reflexivity | ]). vm_compute. reflexivity.
Qed.

(** C4, as the code has it. A frame laid out as the wire format says is
    decoded whatever its 24 window bytes hold: if one of the six fields is
    a NaN or an infinity, [process_message] raises nothing and returns the
    sample of the window, which carries the non-finite value in the field
    of that axis. *)
Theorem non_finite_values_are_delivered
  (session_id lead w gap metadata : bytes) (k : nat) :
  length session_id = 8 -> length lead = 20 -> length w = 24 ->
  20 <= length gap -> length metadata = 31 ->
  k < 6 -> is_finite (field w k) = false ->
  exists s,
    process_message (frame session_id (sensor_payload lead w gap) metadata)
    = ret (Some s)
    /\ s = sample_of_window w
    /\ is_finite (nth k (axis_values s) (S754_zero false)) = false.
Proof.
  intros Hs Hl Hw Hg Hm Hk Hnf. exists (sample_of_window w).
  split; [apply DecodeFacts.process_sensor_frame; assumption | ].
  split; [reflexivity | ].
  do 6 (destruct k as [ | k]; [exact Hnf | ]). lia.
Qed.

Lemma non_finite_values_are_delivered_witness :
  exists s,
    process_message nan_frame = ret (Some s)
    /\ s = sample_of_window nan_window
    /\ is_finite (nth 0 (axis_values s) (S754_zero false)) = false.
Proof.
  apply (non_finite_values_are_delivered
           (zeros 8) (zeros 20) nan_window (zeros 20) (zeros 31) 0);
    try reflexivity; cbn; lia.
Defined.

(** C4 as stated fails: the frame [nan_frame] has a NaN in its first field
    and is decoded to a sample, not dropped. *)
Lemma nan_frame_is_decoded :
  is_finite (field nan_window 0) = false
  /\ process_message nan_frame
     = ret (Some {| gx := S754_zero false; gy := S754_zero false;
                    gz := S754_zero false;
                    ax := S754_nan; ay := S754_zero false;
                    az := S754_zero false |})
  /\ process_message nan_frame <> ret None.
Proof.
  split; [reflexivity | ]. split; [vm_compute; reflexivity | ].
  vm_compute. discriminate.
Qed.

(** C5, as the code has it. When [process_message] decodes a message to a
    sample, the payload has at least 70 bytes, the section cut out of it
    (from offset 20 to 26 bytes before its end) has 46 bytes less than the
    payload, and the sample is read from the first 24 bytes of that section,
    which are the 24 bytes at offset 20 of the payload. The section is the
    24-byte window itself, and the window ends 26 bytes before the end of
    the payload, when the payload has exactly 70 bytes. *)
Theorem numeric_window_placement (message : bytes) (s : Sample) :
  process_message message = ret (Some s) ->
  70 <= length (payload_of message)
  /\ length (data_section (payload_of message))
     = length (payload_of message) - 46
  /\ firstn 24 (data_section (payload_of message))
     = window_from_start (payload_of message)
  /\ length (window_from_start (payload_of message)) = 24
  /\ s = sample_of_window (window_from_start (payload_of message))
  /\ (length (payload_of message) = 70 ->
      data_section (payload_of message)
      = window_from_start (payload_of message)
      /\ window_from_end (payload_of message)
         = window_from_start (payload_of message)).
Proof.
  intros H.
  destruct (DecodeFacts.process_message_Some _ H) as (_ & _ & Hlen & Hs).
  set (p := payload_of message) in *.
  rewrite DecodeFacts.data_section_long by lia.
  unfold window_from_start, window_from_end.
  rewrite firstn_firstn, !length_firstn, !length_skipn.
  replace (Nat.min 24 (length p - 46)) with 24 by lia.
  split; [lia | ]. split; [lia | ]. split; [reflexivity | ].
  split; [lia | ]. split; [exact Hs | ].
  intros E. rewrite E. split; reflexivity.
Qed.

Lemma numeric_window_placement_witness :
  70 <= length (payload_of long_frame)
  /\ length (data_section (payload_of long_frame))
     = length (payload_of long_frame) - 46
  /\ firstn 24 (data_section (payload_of long_frame))
     = window_from_start (payload_of long_frame)
  /\ length (window_from_start (payload_of long_frame)) = 24
  /\ sample_of_window long_window
     = sample_of_window (window_from_start (payload_of long_frame))
  /\ (length (payload_of long_frame) = 70 ->
      data_section (payload_of long_frame)
      = window_from_start (payload_of long_frame)
      /\ window_from_end (payload_of long_frame)
         = window_from_start (payload_of long_frame)).
Proof.
  apply (numeric_window_placement long_frame (sample_of_window long_window)).
  vm_compute. reflexivity.
Defined.

(** C5 as stated fails: [long_frame], with a payload of 74 bytes, is
    decoded to a sample, yet the section cut out of its payload has 28
    bytes, and the 24 bytes at offset 20 are not the 24 bytes that end 26
    bytes before the end of the payload. *)
Lemma long_frame_windows_differ :
  process_message long_frame = ret (Some (sample_of_window long_window))
  /\ length (data_section (payload_of long_frame)) = 28
  /\ window_from_start (payload_of long_frame)
     <> window_from_end (payload_of long_frame).
Proof.
  split; [vm_compute; reflexivity | ]. split; [vm_compute; reflexivity | ].
  vm_compute. discriminate.
Qed.

(** ** Framing *)

(** C8 (chunk-boundary independence). However a byte stream is split into
    chunks, the framing loop fed chunk by chunk ends in the state it
    reaches on the whole stream in one chunk: the same messages cut out in
    the same order ([framed]), the same samples handed to the callback with
    the same counts ([delivered]), the same bytes left in the buffer. The
    same holds of [run] on a socket that returns the chunks one [recv] at a
    time, a chunk there being non-empty (an empty [recv] is the end of the
    connection). *)
Theorem chunk_boundary_independence (stream : bytes) (chunks : list bytes) :
  concat chunks = stream ->
  feed_chunks chunks run_init = feed_chunks [stream] run_init
  /\ (Forall (fun c => c <> []) chunks ->
      run (map Recv chunks) = run [Recv stream]).
Proof.
  intros <-. split.
  - rewrite FramingFacts.feed_chunks_concat by reflexivity.
    cbn [feed_chunks]. unfold on_data at 2.
    rewrite FramingFacts.process_buffer_no_exception. reflexivity.
  - intros Hne. unfold run.
    rewrite FramingFacts.run_loop_concat by (reflexivity || assumption).
    rewrite FramingFacts.run_single. reflexivity.
Qed.

Lemma chunk_boundary_independence_witness :
  feed_chunks [firstn 3 long_frame; skipn 3 long_frame] run_init
  = feed_chunks [long_frame] run_init
  /\ (Forall (fun c => c <> []) [firstn 3 long_frame; skipn 3 long_frame] ->
      run (map Recv [firstn 3 long_frame; skipn 3 long_frame])
      = run [Recv long_frame]).
Proof.
  apply (chunk_boundary_independence
           long_frame [firstn 3 long_frame; skipn 3 long_frame]).
  reflexivity.
Defined.

(** A frame split inside its start marker, followed in the same chunk by a
    second frame and some noise: both are cut out and decoded, in order. *)
Example run_two_frames :
  let st := run [Recv (firstn 3 long_frame);
                 RecvTimeout;
                 Recv (skipn 3 long_frame ++ [xff; x28] ++ nan_frame
                       ++ [x28; x36])] in
  framed st = [long_frame; nan_frame]
  /\ map snd (delivered st) = [1; 2]
  /\ recv_buffer st = [x28; x36].
Proof. vm_compute. repeat split; reflexivity. Qed.

(** ** The head tracker *)

Import Tracker Motion.
Local Open Scope R_scope.

(** C2 (calibration determinism). From a tracker at the start of a
    calibration (not calibrated, nothing collected, target 500), feeding 500
    samples through [calibrate_gyroscope] calibrates it on the 500th call
    and not before: after fewer calls it is not calibrated and the bias is
    untouched; after the 500th it is calibrated, each bias is the
    arithmetic mean of the 500 values of its axis (so 500 samples with a
    constant [gx] give that constant), pitch, yaw and roll are 0 and the
    last-update time is the unset value 0; further calls change nothing. *)
Theorem calibration_determinism
  (t : HeadTracker) (samples more : list Reading) :
  is_calibrated t = false ->
  calibration_count t = 0%nat ->
  calibration_samples t = [] ->
  calibration_target t = 500%nat ->
  length samples = 500%nat ->
  (forall n, (n < 500)%nat ->
     is_calibrated (feed t (firstn n samples)) = false
     /\ gyro_bias_x (feed t (firstn n samples)) = gyro_bias_x t
     /\ gyro_bias_y (feed t (firstn n samples)) = gyro_bias_y t
     /\ gyro_bias_z (feed t (firstn n samples)) = gyro_bias_z t)
  /\ is_calibrated (feed t samples) = true
  /\ gyro_bias_x (feed t samples) = mean (map (@gx R) samples)
  /\ gyro_bias_y (feed t samples) = mean (map (@gy R) samples)
  /\ gyro_bias_z (feed t samples) = mean (map (@gz R) samples)
  /\ pitch (feed t samples) = 0
  /\ yaw (feed t samples) = 0
  /\ roll (feed t samples) = 0
  /\ last_time (feed t samples) = 0
  /\ feed t (samples ++ more) = feed t samples
  /\ (forall c, Forall (fun d => gx d = c) samples ->
        gyro_bias_x (feed t samples) = c).
Proof.
  intros Hc H0 Hs Ht Hlen.
  assert (Hne : samples <> []) by (intros ->; discriminate).
  destruct (exists_last Hne) as (l & d & E).
  assert (Hl : (length l + 1 = calibration_target t)%nat).
  { rewrite E, length_app in Hlen. cbn in Hlen. lia. }
  pose proof (CalibrationFacts.feed_fresh t l d Hc H0 Hs Hl) as F.
  cbv zeta in F. rewrite <- E in F.
  destruct F as (F1 & Fx & Fy & Fz & Fp & Fw & Fr & Fl & _ & _).
  split.
  { intros n Hn.
    rewrite CalibrationFacts.feed_collecting
      by (rewrite ?length_firstn; auto; lia).
    cbn. auto. }
  repeat (split; [assumption | ]). split.
  - rewrite CalibrationFacts.feed_app.
    apply CalibrationFacts.feed_calibrated. exact F1.
  - intros c Hall. rewrite Fx. apply CalibrationFacts.mean_constant.
    + intros Hm. apply map_eq_nil in Hm. contradiction.
    + apply Forall_map. exact Hall.
Qed.

Lemma calibration_determinism_witness :
  gyro_bias_x (feed (init 0) (repeat (constant_reading 2 0 0) 500)) = 2.
Proof.
  refine (proj2 (proj2 (proj2 (proj2 (proj2 (proj2 (proj2 (proj2 (proj2 (proj2
    (calibration_determinism (init 0) (repeat (constant_reading 2 0 0) 500) []
       eq_refl eq_refl eq_refl eq_refl _)))))))))) 2 _).
  - apply repeat_length.
  - apply Forall_forall. intros d Hd. apply repeat_spec in Hd. subst d.
    reflexivity.
Defined.

(** C9 (calibration invariant). In every state the calls
    [calibrate_gyroscope], [update], [zero_view] and [reset_calibration]
    lead to from a new tracker, the count is at most the target, which is
    500, the tracker is calibrated exactly when the count is the target,
    the count is the number of collected samples, and the progress is
    between 0 and 100. *)
Theorem calibration_invariant (now : R) (calls : list call) :
  (calibration_count (execs (init now) calls)
   <= calibration_target (execs (init now) calls))%nat
  /\ calibration_target (execs (init now) calls) = 500%nat
  /\ (is_calibrated (execs (init now) calls) = true
      <-> calibration_count (execs (init now) calls)
          = calibration_target (execs (init now) calls))
  /\ calibration_count (execs (init now) calls)
     = length (calibration_samples (execs (init now) calls))
  /\ 0 <= get_calibration_progress (execs (init now) calls) <= 100.
Proof.
  destruct (InvariantFacts.execs_ok calls (init now)
              (InvariantFacts.init_ok now)) as [Hc _].
  pose proof (InvariantFacts.progress_range _ Hc) as Hp.
  destruct Hc as (Ht & Hle & Hiff & Hlen). auto.
Qed.

(** C10 (frame of [reset_calibration]). [reset_calibration] sets the
    calibration fields (no samples, count 0, not calibrated, zero bias) and
    leaves every other field as it was: the orientation, the zero
    reference, the last-update time, the target, the threshold and the
    scales. A zero reference taken by [zero_view] before the reset is
    still there after it. *)
Theorem reset_calibration_frame (t : HeadTracker) :
  pitch (reset_calibration t) = pitch t
  /\ yaw (reset_calibration t) = yaw t
  /\ roll (reset_calibration t) = roll t
  /\ zero_pitch (reset_calibration t) = zero_pitch t
  /\ zero_yaw (reset_calibration t) = zero_yaw t
  /\ zero_roll (reset_calibration t) = zero_roll t
  /\ last_time (reset_calibration t) = last_time t
  /\ calibration_target (reset_calibration t) = calibration_target t
  /\ movement_threshold (reset_calibration t) = movement_threshold t
  /\ pitch_scale (reset_calibration t) = pitch_scale t
  /\ yaw_scale (reset_calibration t) = yaw_scale t
  /\ roll_scale (reset_calibration t) = roll_scale t
  /\ calibration_samples (reset_calibration t) = []
  /\ calibration_count (reset_calibration t) = 0%nat
  /\ is_calibrated (reset_calibration t) = false
  /\ gyro_bias_x (reset_calibration t) = 0
  /\ gyro_bias_y (reset_calibration t) = 0
  /\ gyro_bias_z (reset_calibration t) = 0
  /\ zero_pitch (reset_calibration (zero_view t)) = pitch t
  /\ zero_yaw (reset_calibration (zero_view t)) = yaw t
  /\ zero_roll (reset_calibration (zero_view t)) = roll t.
Proof. cbn. repeat split; reflexivity. Qed.

(** C7 (boundary values). [_wrap_angle] maps 180 to 180, 181 to -179, -181
    to 179 and 360 to 0. *)
Theorem wrap_angle_boundaries :
  _wrap_angle 180 = 180
  /\ _wrap_angle 181 = -179
  /\ _wrap_angle (-181) = 179
  /\ _wrap_angle 360 = 0.
Proof.
  split; [apply WrapFacts.wrap_id; unfold in_range; lra | ].
  split; [rewrite WrapFacts.wrap_down_once by lra; lra | ].
  split; [rewrite WrapFacts.wrap_up_once by lra; lra | ].
  rewrite WrapFacts.wrap_down_once by lra. lra.
Qed.

(** [primed] is the state a new tracker reaches through 500 calls of
    [calibrate_gyroscope] on a resting gyroscope and one call of
    [update]. *)
Lemma primed_reached :
  primed
  = update (feed (init 0) (repeat (constant_reading 0 0 0) 500))
           (constant_reading 0 0 0) 1.
Proof.
  set (l := repeat (constant_reading 0 0 0) 499).
  change (repeat (constant_reading 0 0 0) 500)
    with (constant_reading 0 0 0 :: l).
  assert (E : constant_reading 0 0 0 :: l = l ++ [constant_reading 0 0 0]).
  { unfold l. change (constant_reading 0 0 0 :: repeat (constant_reading 0 0 0) 499)
      with (repeat (constant_reading 0 0 0) (1 + 499)).
    change [constant_reading 0 0 0] with (repeat (constant_reading 0 0 0) 1).
    rewrite <- repeat_app. reflexivity. }
  rewrite E, CalibrationFacts.feed_app.
  rewrite (CalibrationFacts.feed_collecting l (init 0))
    by (try reflexivity; unfold l; rewrite repeat_length; cbn; lia).
  cbn [feed fold_left].
  rewrite CalibrationFacts.calibrate_completes
    by (try reflexivity; cbn; unfold l; rewrite repeat_length; reflexivity).
  cbn [fst init calibration_samples calibration_target zero_pitch zero_yaw
       zero_roll movement_threshold pitch_scale yaw_scale roll_scale app].
  assert (Hs : map gyro_of l ++ [gyro_of (constant_reading 0 0 0)]
               = repeat (0, 0, 0) 500).
  { unfold l. rewrite map_repeat.
    change [gyro_of (constant_reading 0 0 0)] with (repeat (0, 0, 0) 1).
    rewrite <- repeat_app. reflexivity. }
  rewrite Hs.
  assert (Hz : forall f : R * R * R -> R, f (0, 0, 0) = 0 ->
             sum (map f (repeat (0, 0, 0) 500)) / INR (length (repeat (0, 0, 0) 500)) = 0).
  { intros f Hf. rewrite map_repeat, Hf, CalibrationFacts.sum_fold_right.
    rewrite (CalibrationFacts.sum_constant 0)
      by (apply Forall_forall; intros x Hx; apply repeat_spec in Hx; exact Hx).
    unfold Rdiv. ring. }
  rewrite !Hz by reflexivity.
  unfold update. cbn [is_calibrated negb last_time].
  destruct (Req_dec_T 0 0) as [_ | N]; [ | contradiction].
  reflexivity.
Qed.

(** ** Angles on Python floats *)

Section OnFloats.
Import PyFloat FTracker FloatTerms.




(** C3, as the code has it. For a calibrated tracker whose clock is primed
    and whose numbers are finite, with the angles between -180 and 180,
    repeated [update] calls at a fixed positive time step with the
    gyroscope reading the bias and the accelerometer reading (0, 0, -1)
    return, multiply the pitch by 0.96 each step, so it tends to 0, and
    move the roll to R - 0.96^n (R - roll): the roll tends to R, the angle
    [atan2(ay, -1)] the accelerometer gives, which is 180 when the zero
    read on y is +0.0 and -180 when it is -0.0. Both stay between -180 and
    180 at every step. *)
Theorem gravity_aligned_limits
  (t : HeadTracker) (x_sign y_sign : bool) (start dt p r : R) :
  is_calibrated t = true -> sound t ->
  fin (last_time t) start -> 0 < start -> 0 < dt ->
  fin (pitch t) p -> fin (roll t) r ->
  (forall fuel n,
     exists t',
       updates fuel t (at_rest_of t x_sign y_sign) start dt n = Returns t'
       /\ fin (pitch t') ((96 / 100) ^ n * p)
       /\ fin (roll t')
            (rest_roll y_sign - (96 / 100) ^ n * (rest_roll y_sign - r))
       /\ angle_ok (pitch t') /\ angle_ok (roll t'))
  /\ (forall fuel,
        settles_at (pitch_at_rest fuel t x_sign y_sign start dt) 0)
  /\ (forall fuel,
        settles_at (roll_at_rest fuel t x_sign y_sign start dt)
          (rest_roll y_sign)).
Proof.
  intros Hc (Hbx & Hby & Hbz & _ & _ & (p' & Hp' & Bp) & (y & Hy & By)
             & (r' & Hr' & Br)) Hl Hs Hd Hp Hr.
  rewrite <- (PyFloatFacts.fin_inj _ _ _ Hp Hp') in Bp.
  rewrite <- (PyFloatFacts.fin_inj _ _ _ Hr Hr') in Br.
  clear p' r' Hp' Hr'.
  assert (Hclosed : forall fuel n,
            exists t',
              updates fuel t (at_rest_of t x_sign y_sign) start dt n
              = Returns t'
              /\ fin (pitch t') ((96 / 100) ^ n * p)
              /\ fin (roll t')
                   (rest_roll y_sign
                    - (96 / 100) ^ n * (rest_roll y_sign - r))).
  { intros fuel n.
    destruct (FRestFacts.updates_resting fuel t x_sign y_sign start dt p y r n
                Hc Hl Hs Hd Hbx Hby Hbz Hp Bp Hy By Hr Br)
      as (t' & E & _ & _ & _ & _ & _ & Fp & _ & Fr).
    exists t'. auto. }
  assert (HR : -180 <= rest_roll y_sign <= 180)
    by (destruct y_sign; cbn [rest_roll]; lra).
  split; [ | split].
  - intros fuel n. destruct (Hclosed fuel n) as (t' & E & Fp & Fr).
    exists t'. pose proof (FusionFacts.pow_weight n) as Hw.
    repeat (split; [assumption | ]).
    split; eexists; (split; [eassumption | nra]).
  - intros fuel eps Heps.
    destruct (FusionFacts.weight_vanishes p eps Heps) as [N HN].
    exists N. intros n Hn. destruct (Hclosed fuel n) as (t' & E & Fp & _).
    exists (pitch t'), ((96 / 100) ^ n * p).
    split; [unfold pitch_at_rest; rewrite E; reflexivity | ].
    split; [exact Fp | exact (HN n Hn)].
  - intros fuel eps Heps.
    destruct (FusionFacts.weight_vanishes (r - rest_roll y_sign) eps Heps)
      as [N HN].
    exists N. intros n Hn. destruct (Hclosed fuel n) as (t' & E & _ & Fr).
    exists (roll t'),
      (rest_roll y_sign - (96 / 100) ^ n * (rest_roll y_sign - r)).
    split; [unfold roll_at_rest; rewrite E; reflexivity | ].
    split; [exact Fr | ].
    specialize (HN n Hn).
    replace (rest_roll y_sign - (96 / 100) ^ n * (rest_roll y_sign - r)
             - rest_roll y_sign)
      with ((96 / 100) ^ n * (r - rest_roll y_sign) - 0) by ring.
    exact HN.
Qed.

Lemma gravity_aligned_limits_witness :
  (forall fuel n,
     exists t',
       updates fuel tilted (at_rest_of tilted true true) 1 (1 / 100) n
       = Returns t'
       /\ fin (pitch t') ((96 / 100) ^ n * 10)
       /\ fin (roll t') (rest_roll true - (96 / 100) ^ n * (rest_roll true - -20))
       /\ angle_ok (pitch t') /\ angle_ok (roll t'))
  /\ (forall fuel,
        settles_at (pitch_at_rest fuel tilted true true 1 (1 / 100)) 0)
  /\ (forall fuel,
        settles_at (roll_at_rest fuel tilted true true 1 (1 / 100))
          (rest_roll true)).
Proof.
  apply (gravity_aligned_limits tilted true true 1 (1 / 100) 10 (-20));
    try reflexivity; try lra.
  destruct FStateFacts.primed_sound as (S1 & S2 & S3 & S4 & S5 & _).
  repeat split; try assumption;
    eexists; (split; [reflexivity | lra]).
Defined.

(** C3 as stated fails. Start from the state a calibration on a resting
    gyroscope and the first [update] lead to ([primed]) and keep feeding
    the resting sample with gravity along -z every 10 ms: after 1000 steps
    the roll is above 179 degrees when the accelerometer reads +0.0 on y,
    below -179 degrees when it reads -0.0, and it does not tend to 0. *)
Lemma gravity_roll_leaves_zero :
  (forall fuel,
     exists t' r,
       updates fuel primed (at_rest_of primed false false) 1 (1 / 100) 1000
       = Returns t'
       /\ fin (roll t') r /\ 179 < r)
  /\ (forall fuel,
        exists t' r,
          updates fuel primed (at_rest_of primed false true) 1 (1 / 100) 1000
          = Returns t'
          /\ fin (roll t') r /\ r < -179)
  /\ (forall fuel,
        ~ settles_at (roll_at_rest fuel primed false false 1 (1 / 100)) 0).
Proof.
  assert (Hroll : forall fuel ys n,
            exists t',
              updates fuel primed (at_rest_of primed false ys) 1 (1 / 100) n
              = Returns t'
              /\ fin (roll t') (rest_roll ys - (96 / 100) ^ n * rest_roll ys)).
  { intros fuel ys n.
    destruct (FRestFacts.updates_resting fuel primed false ys 1 (1 / 100)
                0 0 0 n)
      as (t' & E & _ & _ & _ & _ & _ & _ & _ & Fr);
      try reflexivity; try lra; try (exists 0; reflexivity).
    exists t'. split; [exact E | ].
    replace (rest_roll ys - (96 / 100) ^ n * rest_roll ys)
      with (rest_roll ys - (96 / 100) ^ n * (rest_roll ys - 0)) by ring.
    exact Fr. }
  assert (Hsmall : (96 / 100) ^ 1000 * 180 < 1).
  { assert (H17 : (96 / 100) ^ 17 <= 1 / 2) by (cbn [pow]; lra).
    assert (H136 : ((96 / 100) ^ 17) ^ 8 <= (1 / 2) ^ 8).
    { apply pow_incr. pose proof (FusionFacts.pow_weight 17). lra. }
    replace 1000%nat with (17 * 8 + 864)%nat by reflexivity.
    rewrite pow_add, pow_mult.
    pose proof (FusionFacts.pow_weight 864) as H864.
    assert (H8 : (1 / 2) ^ 8 = 1 / 256) by (cbn [pow]; lra).
    assert (Hpos : 0 < ((96 / 100) ^ 17) ^ 8).
    { apply pow_lt. pose proof (FusionFacts.pow_weight 17). lra. }
    nra. }
  split; [ | split].
  - intros fuel. destruct (Hroll fuel false 1000%nat) as (t' & E & Fr).
    exists t'. eexists. split; [exact E | ]. split; [exact Fr | ].
    cbn [rest_roll]. lra.
  - intros fuel. destruct (Hroll fuel true 1000%nat) as (t' & E & Fr).
    exists t'. eexists. split; [exact E | ]. split; [exact Fr | ].
    cbn [rest_roll]. lra.
  - intros fuel H. destruct (H 1) as [N HN]; [lra | ].
    destruct (HN (S N) (Nat.le_succ_diag_r N)) as (x & v & Ex & Fx & Hv).
    destruct (Hroll fuel false (S N)) as (t' & E & Fr).
    unfold roll_at_rest in Ex. rewrite E in Ex. cbn [bind] in Ex.
    injection Ex as <-.
    rewrite (PyFloatFacts.fin_inj _ _ _ Fx Fr) in Hv.
    apply Rabs_def2 in Hv. cbn [rest_roll pow] in Hv.
    pose proof (FusionFacts.pow_weight N) as Hw. nra.
Qed.

End OnFloats.

(* ================================================================= *)
(** * Further properties of the reader *)

Module ReaderMore.
Import Py Reader Wire Traffic SeqFacts.
Local Open Scope nat_scope.

Lemma fromhex_error_bounded n :
  forall s e, length s <= n -> fromhex s = inl e -> e = ValueError.
Proof.
  induction n as [ | n IH]; intros s e Hn.
  - destruct s; [discriminate | cbn in Hn; lia].
  - destruct s as [ | c rest]; [discriminate | ]. cbn [fromhex].
    destruct (is_space c).
    { apply IH. cbn in Hn. lia. }
    destruct rest as [ | d rest']; [intros [= <-]; reflexivity | ].
    destruct (hex_value c); [ | intros [= <-]; reflexivity].
    destruct (hex_value d); [ | intros [= <-]; reflexivity].
    destruct (Byte.of_N _) as [x | ]; [ | intros [= <-]; reflexivity].
    destruct (fromhex rest') as [e' | bs] eqn:E; cbn; [ | discriminate].
    intros [= <-]. apply (IH rest'); [cbn in Hn; lia | exact E].
Qed.

Lemma fromhex_error s e : fromhex s = inl e -> e = ValueError.
Proof. apply fromhex_error_bounded with (n := length s). lia. Qed.

Lemma unpack_f_error b e : unpack_f b = inl e -> e = StructError.
Proof.
  destruct b as [ | b0 [ | b1 [ | b2 [ | b3 [ | ? ?]]]]]; cbn;
    try discriminate; intros [= <-]; reflexivity.
Qed.

Lemma chunk_error chunk e :
  (b <- fromhex chunk ;; unpack_f b) = inl e ->
  e = ValueError \/ e = StructError.
Proof.
  destruct (fromhex chunk) as [e' | b] eqn:E; cbn.
  - intros [= <-]. left. exact (fromhex_error _ _ E).
  - intros H. right. exact (unpack_f_error _ _ H).
Qed.

Section MapM.
Context {A B : Type} (f : A -> result B).

Lemma mapM_length l vs : mapM f l = inr vs -> length vs = length l.
Proof.
  revert vs. induction l as [ | a l IH]; intros vs; cbn [mapM].
  - intros [= <-]. reflexivity.
  - destruct (f a) as [e | b]; cbn; [discriminate | ].
    destruct (mapM f l) as [e | bs]; cbn; [discriminate | ].
    intros [= <-]. cbn. rewrite (IH bs eq_refl). reflexivity.
Qed.

Lemma mapM_error l e : mapM f l = inl e -> exists a, In a l /\ f a = inl e.
Proof.
  induction l as [ | a l IH]; cbn [mapM]; [discriminate | ].
  destruct (f a) as [e' | b] eqn:E; cbn.
  - intros [= <-]. exists a. split; [left; reflexivity | exact E].
  - destruct (mapM f l) as [e' | bs]; cbn; [ | discriminate].
    intros [= <-]. destruct (IH eq_refl) as (a' & Hin & Ha).
    exists a'. split; [right; exact Hin | exact Ha].
Qed.
End MapM.

(** X1. [decode_imu_data] raises on no text at all, hexadecimal or not:
    its [except] clause covers every error its body can meet. *)
Theorem decode_imu_data_never_raises (hex_data : str) :
  exists r, decode_imu_data hex_data = ret r.
Proof.
  unfold decode_imu_data.
  destruct (length hex_data <? 48); [eexists; reflexivity | ].
  match goal with
  | |- context [length ?c <? 6] => set (chunks := c)
  end.
  destruct (Nat.ltb_spec (length chunks) 6) as [ | Hlen];
    [eexists; reflexivity | ].
  change 6%Z with (Z.of_nat 6). rewrite slice_prefix.
  match goal with
  | |- context [mapM ?f (firstn 6 chunks)] =>
      destruct (mapM f (firstn 6 chunks)) as [e | values] eqn:E
  end.
  - cbn. apply mapM_error in E. destruct E as (chunk & _ & E).
    destruct (chunk_error _ _ E) as [-> | ->]; eexists; reflexivity.
  - apply mapM_length in E. rewrite length_firstn in E.
    replace (Nat.min 6 (length chunks)) with 6 in E by lia.
    destruct values as [ | v0 [ | v1 [ | v2 [ | v3 [ | v4 [ | v5 [ | ? ?]]]]]]];
      try discriminate.
    cbn. eexists. reflexivity.
Qed.

(** X2. [process_message] returns a sample exactly for the messages of at
    least 64 bytes whose payload ends with the sensor-message marker and
    has at least 70 bytes, and then the sample of the 24 bytes at offset
    20 of the payload; for every other message it returns [None]. *)
Theorem process_message_decides (message : bytes) :
  (forall s,
     process_message message = ret (Some s)
     <-> (64 <= length message
          /\ endswith (payload_of message) SENSOR_MSG = true
          /\ 70 <= length (payload_of message)
          /\ s = sample_of_window (window_from_start (payload_of message))))
  /\ (process_message message = ret None
      <-> ~ (64 <= length message
             /\ endswith (payload_of message) SENSOR_MSG = true
             /\ 70 <= length (payload_of message))).
Proof.
  rewrite DecodeFacts.process_message_spec.
  destruct (Nat.ltb_spec (length message) 64) as [H1 | H1].
  { split.
    - intros s. split; [discriminate | intros (H & _); lia].
    - split; [intros _ (H & _); lia | reflexivity]. }
  destruct (endswith (payload_of message) SENSOR_MSG); cbn [negb].
  2:{ split.
      - intros s. split; [discriminate | intros (_ & H & _); discriminate].
      - split; [intros _ (_ & H & _); discriminate | reflexivity]. }
  destruct (Nat.ltb_spec (length (payload_of message)) 70) as [H2 | H2].
  { split.
    - intros s. split; [discriminate | intros (_ & _ & H & _); lia].
    - split; [intros _ (_ & _ & H); lia | reflexivity]. }
  split.
  - intros s. split.
    + intros [= <-]. auto.
    + intros (_ & _ & _ & ->). reflexivity.
  - split; [discriminate | ]. intros H. exfalso. apply H. auto.
Qed.

(** *** What the framing loop cuts out *)

Lemma find_first_found sub s i :
  find_first sub s = Some i -> starts_with sub (skipn i s) = true.
Proof.
  revert i. induction s as [ | c s IH]; intros i; cbn [find_first].
  - destruct (starts_with sub []) eqn:E; [ | discriminate].
    intros [= <-]. exact E.
  - destruct (starts_with sub (c :: s)) eqn:E.
    + intros [= <-]. exact E.
    + destruct (find_first sub s) as [j | ]; [ | discriminate].
      cbn [option_map]. intros [= <-]. cbn [skipn]. apply IH. reflexivity.
Qed.

Lemma find_found s sub start i :
  find s sub start = Some i -> starts_with sub (skipn i s) = true.
Proof.
  unfold find. destruct (length s <? start); [discriminate | ].
  destruct (find_first sub (skipn start s)) as [j | ] eqn:F; [ | discriminate].
  cbn [option_map]. intros [= <-]. apply find_first_found in F.
  rewrite skipn_skipn in F. rewrite Nat.add_comm. exact F.
Qed.

Lemma starts_with_firstn sub s :
  starts_with sub s = true -> firstn (length sub) s = sub.
Proof.
  revert s. induction sub as [ | x sub IH]; intros s H; [reflexivity | ].
  destruct s as [ | y s]; [discriminate | ]. cbn in H.
  apply andb_true_iff in H. destruct H as [H1 H2].
  apply Byte.byte_dec_bl in H1. subst y. cbn. rewrite (IH _ H2). reflexivity.
Qed.

Lemma starts_with_prefix sub rest : starts_with sub (sub ++ rest) = true.
Proof.
  induction sub as [ | x sub IH]; [reflexivity | ]. cbn.
  rewrite IH, Byte.byte_dec_lb; reflexivity.
Qed.

(** The end marker cannot begin inside the start marker. *)
Lemma footer_after_header s d :
  starts_with HEADER s = true -> d < 6 ->
  starts_with FOOTER (skipn d s) = false.
Proof.
  intros H Hd. apply starts_with_firstn in H.
  rewrite <- (firstn_skipn (length HEADER) s), H.
  do 6 (destruct d as [ | d]; [reflexivity | ]). lia.
Qed.

(** A message cut out of the buffer starts with the start marker, ends
    with the end marker, and holds both in full. *)
Lemma next_message_shape buf message rest :
  next_message buf = Some (message, rest) ->
  starts_with HEADER message = true
  /\ endswith message FOOTER = true
  /\ 25 <= length message.
Proof.
  intros H.
  destruct (FramingFacts.next_message_eq _ H)
    as (h & f & Hh & Hf & Hhf & Hl & -> & _).
  pose proof (find_found _ _ _ _ Hh) as Sh.
  pose proof (find_found _ _ _ _ Hf) as Sf.
  assert (Hgap : h + 6 <= f).
  { destruct (Nat.le_gt_cases (h + 6) f) as [ | Hlt]; [assumption | ].
    pose proof (footer_after_header (skipn h buf) (f - h) Sh) as N.
    rewrite skipn_skipn in N. replace (f - h + h) with f in N by lia.
    rewrite N in Sf by lia. discriminate. }
  set (tail := skipn h buf) in *.
  assert (Lt : length tail = length buf - h) by (unfold tail; apply length_skipn).
  assert (Ef : skipn (f - h) tail = skipn f buf).
  { unfold tail. rewrite skipn_skipn. f_equal. lia. }
  split; [ | split].
  - apply starts_with_firstn in Sh.
    rewrite <- (firstn_skipn (length HEADER) (firstn (f + 19 - h) tail)).
    rewrite firstn_firstn.
    replace (Nat.min (length HEADER) (f + 19 - h)) with (length HEADER)
      by (change (length HEADER) with 6; lia).
    rewrite Sh. apply starts_with_prefix.
  - replace (f + 19 - h) with ((f - h) + 19) by lia.
    rewrite <- (firstn_skipn (f - h) (firstn (f - h + 19) tail)).
    rewrite firstn_firstn, skipn_firstn_comm.
    replace (f - h + 19 - (f - h)) with (length FOOTER)
      by (change (length FOOTER) with 19; lia).
    rewrite Ef, (starts_with_firstn _ _ Sf).
    apply endswith_app.
  - rewrite length_firstn. lia.
Qed.

Lemma process_complete_logs fuel :
  forall st, logs_ok st -> logs_ok (fst (process_complete fuel st)).
Proof.
  induction fuel as [ | fuel IH]; intros st Hst; [exact Hst | ].
  cbn [process_complete].
  destruct (next_message (recv_buffer st)) as [[message rest] | ] eqn:E;
    [ | exact Hst].
  pose proof (next_message_shape _ _ _ E) as Hm.
  destruct Hst as (Hf & Hc & Hs & Hl).
  assert (Hf' : Forall (fun m => starts_with HEADER m = true
                                 /\ endswith m FOOTER = true
                                 /\ 25 <= length m) (framed st ++ [message])).
  { apply Forall_app. split; [exact Hf | ]. constructor; [exact Hm | constructor]. }
  destruct (process_message message) as [e | [d | ]]; cbn [fst].
  - unfold logs_ok. cbn. rewrite length_app. cbn. repeat split; auto. lia.
  - apply IH. unfold logs_ok. cbn.
    rewrite !length_app, map_app, Hs, Hc. cbn.
    repeat split; auto; try lia.
    rewrite (Nat.add_comm (length (delivered st)) 1), seq_S. reflexivity.
  - apply IH. unfold logs_ok. cbn. rewrite length_app. cbn.
    repeat split; auto. lia.
Qed.

Lemma run_loop_logs events :
  forall st, logs_ok st -> logs_ok (fst (run_loop events st)).
Proof.
  induction events as [ | [data | ] events IH]; intros st Hst;
    cbn [run_loop]; [exact Hst | | apply IH; exact Hst].
  destruct data as [ | x data]; [exact Hst | ].
  unfold on_data. rewrite FramingFacts.process_buffer_no_exception.
  apply IH. apply process_complete_logs. exact Hst.
Qed.

(** X3. Whatever the socket delivers, every message [run] cuts out of the
    stream starts with the start marker, ends with the end marker and has
    at least 25 bytes: the two markers never overlap. *)
Theorem framed_messages_are_delimited (events : list recv_event) :
  Forall (fun m => starts_with HEADER m = true
                   /\ endswith m FOOTER = true
                   /\ 25 <= length m)
         (framed (run events)).
Proof.
  unfold run. apply (run_loop_logs events run_init).
  unfold logs_ok. cbn. repeat split; auto.
Qed.

(** X4. The callback is called with the counts 1, 2, 3, ... in this order,
    [message_count] is the number of its calls, and it is called at most
    once per message cut out of the stream. *)
Theorem callback_counts (events : list recv_event) :
  map snd (delivered (run events)) = seq 1 (length (delivered (run events)))
  /\ message_count (run events) = length (delivered (run events))
  /\ length (delivered (run events)) <= length (framed (run events)).
Proof.
  unfold run.
  destruct (run_loop_logs events run_init) as (_ & Hc & Hs & Hl).
  { unfold logs_ok. cbn. repeat split; auto. }
  auto.
Qed.

(** *** What stays in the buffer *)









(** X7. Bytes that hold no complete message are never dropped: as long as
    no start marker followed by an end marker has arrived, [run] keeps
    everything it received in the buffer and calls nothing. *)
Theorem incomplete_stream_is_kept (chunks : list bytes) :
  Forall (fun c => c <> []) chunks ->
  next_message (concat chunks) = None ->
  recv_buffer (run (map Recv chunks)) = concat chunks
  /\ framed (run (map Recv chunks)) = []
  /\ delivered (run (map Recv chunks)) = [].
Proof.
  intros Hne Hnone. unfold run.
  rewrite FramingFacts.run_loop_concat by (reflexivity || assumption).
  unfold on_data. rewrite FramingFacts.process_buffer_done by exact Hnone.
  cbn. auto.
Qed.

Lemma incomplete_stream_is_kept_witness :
  recv_buffer (run (map Recv [firstn 30 long_frame; [xff]; HEADER]))
  = concat [firstn 30 long_frame; [xff]; HEADER]
  /\ framed (run (map Recv [firstn 30 long_frame; [xff]; HEADER])) = []
  /\ delivered (run (map Recv [firstn 30 long_frame; [xff]; HEADER])) = [].
Proof.
  apply (incomplete_stream_is_kept [firstn 30 long_frame; [xff]; HEADER]).
  - repeat constructor; discriminate.
  - reflexivity.
Defined.

End ReaderMore.

(* ================================================================= *)
(** * Further properties of the head tracker *)

Module TrackerMore.
Import Tracker Motion Posture.
Local Open Scope R_scope.

(** X9. The first [update] after a completed calibration only starts the
    clock: whatever the sample, pitch, yaw and roll stay 0 and the
    last-update time becomes the time of the call. *)
Theorem first_update_primes_clock
  (t : HeadTracker) (samples : list Reading) (d : Reading) (now : R) :
  is_calibrated t = false ->
  calibration_count t = 0%nat ->
  calibration_samples t = [] ->
  calibration_target t = 500%nat ->
  length samples = 500%nat ->
  pitch (update (feed t samples) d now) = 0
  /\ yaw (update (feed t samples) d now) = 0
  /\ roll (update (feed t samples) d now) = 0
  /\ last_time (update (feed t samples) d now) = now
  /\ is_calibrated (update (feed t samples) d now) = true.
Proof.
  intros Hc H0 Hs Ht Hlen.
  assert (Hne : samples <> []) by (intros ->; discriminate).
  destruct (exists_last Hne) as (l & x & E).
  assert (Hl : (length l + 1 = calibration_target t)%nat).
  { rewrite E, length_app in Hlen. cbn in Hlen. lia. }
  pose proof (CalibrationFacts.feed_fresh t l x Hc H0 Hs Hl) as F.
  cbv zeta in F. rewrite <- E in F.
  destruct F as (F1 & _ & _ & _ & Fp & Fw & Fr & Fl & _ & _).
  unfold update. rewrite F1. cbn [negb].
  destruct (Req_dec_T (last_time (feed t samples)) 0) as [_ | N];
    [ | contradiction].
  cbn. auto.
Qed.

Lemma first_update_primes_clock_witness :
  pitch (update (feed (init 7) (repeat (constant_reading 2 0 0) 500))
                (constant_reading 9 9 9) 8) = 0
  /\ yaw (update (feed (init 7) (repeat (constant_reading 2 0 0) 500))
                 (constant_reading 9 9 9) 8) = 0
  /\ roll (update (feed (init 7) (repeat (constant_reading 2 0 0) 500))
                  (constant_reading 9 9 9) 8) = 0
  /\ last_time (update (feed (init 7) (repeat (constant_reading 2 0 0) 500))
                       (constant_reading 9 9 9) 8) = 8
  /\ is_calibrated (update (feed (init 7) (repeat (constant_reading 2 0 0) 500))
                           (constant_reading 9 9 9) 8) = true.
Proof.
  apply (first_update_primes_clock (init 7)); reflexivity.
Defined.



(** One fusion step with the head at rest and upright: pitch and roll both
    shrink by the filter weight. *)
Lemma update_upright t d now :
  is_calibrated t = true -> last_time t <> 0 ->
  d = upright t ->
  in_range (pitch t) -> in_range (roll t) ->
  pitch (update t d now) = 96 / 100 * pitch t
  /\ roll (update t d now) = 96 / 100 * roll t
  /\ last_time (update t d now) = now.
Proof.
  intros Hc Hl -> Hp Hr. unfold update. rewrite Hc. cbn [negb].
  destruct (Req_dec_T (last_time t) 0) as [E | _]; [contradiction | ].
  cbn [upright gx gy gz ax ay az].
  replace (0 * 0 + 0 * 0 + 1 * 1) with 1 by ring.
  replace (0 * 0 + 1 * 1) with 1 by ring.
  rewrite sqrt_1, FusionFacts.atan2_zero_front.
  assert (Ha : atan2 0 1 = 0).
  { unfold atan2. destruct (Rlt_dec 0 1); [ | lra].
    replace (0 / 1) with 0 by field. apply atan_0. }
  rewrite Ha.
  destruct (Rlt_dec (1 / 100) 1) as [_ | N]; [ | lra].
  cbn [pitch roll last_time].
  assert (HPI : PI <> 0) by apply PI_neq0.
  replace (96 / 100 * (pitch t + (gyro_bias_x t - gyro_bias_x t)
                                 * (now - last_time t))
           + (1 - 96 / 100) * (0 * 180 / PI))
    with (96 / 100 * pitch t) by (field; exact HPI).
  replace (96 / 100 * (roll t + (gyro_bias_z t - gyro_bias_z t)
                                * (now - last_time t))
           + (1 - 96 / 100) * (0 * 180 / PI))
    with (96 / 100 * roll t) by (field; exact HPI).
  unfold in_range in *.
  rewrite !WrapFacts.wrap_id by (unfold in_range; lra).
  auto.
Qed.

Lemma upright_update t d now : upright (update t d now) = upright t.
Proof.
  destruct (InvariantFacts.update_calibration_fields t d now)
    as (_ & _ & _ & _ & Ex & Ey & Ez).
  unfold upright. rewrite Ex, Ey, Ez. reflexivity.
Qed.

Lemma updates_upright t start dt n :
  is_calibrated t = true -> last_time t = start -> 0 < start -> 0 < dt ->
  in_range (pitch t) -> in_range (roll t) ->
  is_calibrated (updates t (upright t) start dt n) = true
  /\ 0 < last_time (updates t (upright t) start dt n)
  /\ pitch (updates t (upright t) start dt n) = (96 / 100) ^ n * pitch t
  /\ roll (updates t (upright t) start dt n) = (96 / 100) ^ n * roll t.
Proof.
  intros Hc Hl Hs Hd Hp Hr. induction n as [ | n IH].
  - cbn. rewrite Hl. repeat split; auto; ring.
  - destruct IH as (Ic & Il & Ip & Iroll).
    set (u := updates t (upright t) start dt n) in *.
    change (updates t (upright t) start dt (S n))
      with (update u (upright t) (start + INR (S n) * dt)).
    pose proof (FusionFacts.pow_weight n) as Hw.
    assert (Eu : upright t = upright u).
    { clear -u. subst u. induction n as [ | n IHn]; [reflexivity | ].
      cbn [updates]. rewrite upright_update. exact IHn. }
    destruct (update_upright u (upright t) (start + INR (S n) * dt))
      as (Ep & Er & Et); auto.
    { lra. }
    { rewrite Ip. unfold in_range in *. nra. }
    { rewrite Iroll. unfold in_range in *. nra. }
    destruct (InvariantFacts.update_calibration_fields
                u (upright t) (start + INR (S n) * dt)) as (Ec & _).
    rewrite Ec, Et, Ep, Er, Ip, Iroll. cbn [pow].
    repeat split; auto; try ring.
    pose proof (pos_INR (S n)). nra.
Qed.

(** X11. With the head at rest and upright (gyroscope at the bias,
    accelerometer at (0, 0, 1)), every [update] at a fixed positive time
    step multiplies pitch and roll by 0.96: both stay between -180 and
    180 and tend to 0. *)
Theorem upright_rest_is_stable (t : HeadTracker) (start dt : R) :
  is_calibrated t = true -> last_time t = start -> 0 < start -> 0 < dt ->
  in_range (pitch t) -> in_range (roll t) ->
  (forall n,
     pitch (updates t (upright t) start dt n) = (96 / 100) ^ n * pitch t
     /\ roll (updates t (upright t) start dt n) = (96 / 100) ^ n * roll t
     /\ in_range (pitch (updates t (upright t) start dt n))
     /\ in_range (roll (updates t (upright t) start dt n)))
  /\ tends_to (fun n => pitch (updates t (upright t) start dt n)) 0
  /\ tends_to (fun n => roll (updates t (upright t) start dt n)) 0.
Proof.
  intros Hc Hl Hs Hd Hp Hr.
  assert (Hclosed : forall n,
            pitch (updates t (upright t) start dt n) = (96 / 100) ^ n * pitch t
            /\ roll (updates t (upright t) start dt n)
               = (96 / 100) ^ n * roll t).
  { intros n.
    destruct (updates_upright t start dt n Hc Hl Hs Hd Hp Hr)
      as (_ & _ & Ep & Er).
    split; assumption. }
  split; [ | split].
  - intros n. destruct (Hclosed n) as [Ep Er]. rewrite Ep, Er.
    pose proof (FusionFacts.pow_weight n) as Hw.
    unfold in_range in *. repeat split; try reflexivity; nra.
  - intros eps Heps.
    destruct (FusionFacts.weight_vanishes (pitch t) eps Heps) as [N HN].
    exists N. intros n Hn. rewrite (proj1 (Hclosed n)). apply HN. exact Hn.
  - intros eps Heps.
    destruct (FusionFacts.weight_vanishes (roll t) eps Heps) as [N HN].
    exists N. intros n Hn. rewrite (proj2 (Hclosed n)). apply HN. exact Hn.
Qed.

Lemma upright_rest_is_stable_witness :
  (forall n,
     pitch (updates tilted (upright tilted) 1 (1 / 100) n)
     = (96 / 100) ^ n * 10
     /\ roll (updates tilted (upright tilted) 1 (1 / 100) n)
        = (96 / 100) ^ n * -20
     /\ in_range (pitch (updates tilted (upright tilted) 1 (1 / 100) n))
     /\ in_range (roll (updates tilted (upright tilted) 1 (1 / 100) n)))
  /\ tends_to (fun n => pitch (updates tilted (upright tilted) 1 (1 / 100) n)) 0
  /\ tends_to (fun n => roll (updates tilted (upright tilted) 1 (1 / 100) n)) 0.
Proof.
  apply (upright_rest_is_stable tilted 1 (1 / 100));
    try reflexivity; try lra; unfold in_range; cbn; lra.
Defined.

(** [calibrate_gyroscope] never touches the zero reference. *)
Lemma feed_zero_reference l :
  forall t,
    zero_pitch (feed t l) = zero_pitch t
    /\ zero_yaw (feed t l) = zero_yaw t
    /\ zero_roll (feed t l) = zero_roll t.
Proof.
  induction l as [ | d l IH]; intros t; [cbn; auto | ].
  change (feed t (d :: l)) with (feed (fst (calibrate_gyroscope t d)) l).
  destruct (IH (fst (calibrate_gyroscope t d))) as (E1 & E2 & E3).
  rewrite E1, E2, E3. unfold calibrate_gyroscope.
  destruct (is_calibrated t); [cbn; auto | ].
  destruct (_ <=? _)%nat; cbn; auto.
Qed.

(** X13. A recalibration starts from scratch and keeps the zero
    reference: after [reset_calibration], 500 samples calibrate the tracker
    again, each bias is the mean of these 500 samples alone, pitch, yaw and
    roll are 0, and the zero reference is the one from before the reset. *)
Theorem recalibration_after_reset (t : HeadTracker) (samples : list Reading) :
  calibration_target t = 500%nat ->
  length samples = 500%nat ->
  is_calibrated (feed (reset_calibration t) samples) = true
  /\ gyro_bias_x (feed (reset_calibration t) samples)
     = mean (map (@gx R) samples)
  /\ gyro_bias_y (feed (reset_calibration t) samples)
     = mean (map (@gy R) samples)
  /\ gyro_bias_z (feed (reset_calibration t) samples)
     = mean (map (@gz R) samples)
  /\ pitch (feed (reset_calibration t) samples) = 0
  /\ yaw (feed (reset_calibration t) samples) = 0
  /\ roll (feed (reset_calibration t) samples) = 0
  /\ zero_pitch (feed (reset_calibration t) samples) = zero_pitch t
  /\ zero_yaw (feed (reset_calibration t) samples) = zero_yaw t
  /\ zero_roll (feed (reset_calibration t) samples) = zero_roll t.
Proof.
  intros Ht Hlen.
  assert (Hne : samples <> []) by (intros ->; discriminate).
  destruct (exists_last Hne) as (l & x & E).
  assert (Hl : (length l + 1 = calibration_target (reset_calibration t))%nat).
  { rewrite E, length_app in Hlen. cbn in *. lia. }
  pose proof (CalibrationFacts.feed_fresh (reset_calibration t) l x
                eq_refl eq_refl eq_refl Hl) as F.
  cbv zeta in F. rewrite <- E in F.
  destruct F as (F1 & Fx & Fy & Fz & Fp & Fw & Fr & _).
  destruct (feed_zero_reference samples (reset_calibration t)) as (Z1 & Z2 & Z3).
  repeat (split; [assumption | ]). auto.
Qed.

Lemma recalibration_after_reset_witness :
  is_calibrated (feed (reset_calibration primed)
                      (repeat (constant_reading 2 0 0) 500)) = true.
Proof.
  apply (recalibration_after_reset primed (repeat (constant_reading 2 0 0) 500));
    reflexivity.
Defined.

(** X14. In every state the calls lead to from a new tracker, the progress
    is 100 exactly when the tracker is calibrated, and
    [calibrate_gyroscope] returns [True] exactly when the progress is 100
    after the call. *)
Theorem progress_tells_calibration (now : R) (calls : list call) (d : Reading) :
  (is_calibrated (execs (init now) calls) = true
   <-> get_calibration_progress (execs (init now) calls) = 100)
  /\ (snd (calibrate_gyroscope (execs (init now) calls) d) = true
      <-> get_calibration_progress
            (fst (calibrate_gyroscope (execs (init now) calls) d)) = 100).
Proof.
  assert (Hiff : forall t, calibration_ok t ->
            (is_calibrated t = true <-> get_calibration_progress t = 100)).
  { intros t (Ht & Hle & Hiff & _). rewrite Hiff, Ht.
    unfold get_calibration_progress. rewrite Ht.
    replace (INR 500) with 500 by (cbn; lra). split.
    - intros ->. replace (INR 500) with 500 by (cbn; lra). lra.
    - intros H. apply INR_eq. replace (INR 500) with 500 by (cbn; lra). lra. }
  destruct (InvariantFacts.execs_ok calls (init now)
              (InvariantFacts.init_ok now)) as [Hc _].
  split; [apply Hiff; exact Hc | ].
  pose proof (InvariantFacts.exec_calibration_ok _ (CalibrateGyroscope d) Hc)
    as Hc'.
  cbn [exec] in Hc'. rewrite <- (Hiff _ Hc').
  unfold calibrate_gyroscope.
  destruct (is_calibrated (execs (init now) calls)) eqn:E; cbn [fst snd].
  - tauto.
  - destruct (_ <=? _)%nat; cbn; tauto.
Qed.

Lemma py_int_floor x (p : Z) :
  0 <= x -> IZR p <= x < IZR p + 1 -> py_int x = p.
Proof.
  intros H0 [H1 H2]. unfold py_int.
  destruct (Rle_dec 0 x); [ | contradiction].
  symmetry. apply Int_part_spec. lra.
Qed.

Lemma py_int_bounds x (lo hi : Z) :
  0 <= x -> IZR lo <= x <= IZR hi -> (lo <= py_int x <= hi)%Z.
Proof.
  intros H0 [H1 H2]. unfold py_int.
  destruct (Rle_dec 0 x); [ | contradiction].
  destruct (base_Int_part x) as [Hle Hgt]. split.
  - assert (IZR lo < IZR (Int_part x) + 1) by lra.
    rewrite <- plus_IZR in H. apply lt_IZR in H. lia.
  - apply le_IZR. lra.
Qed.

Lemma assign_marker (p : nat) :
  (1 <= p <= 19)%nat ->
  match list_assign (repeat "-"%string (Z.to_nat 20)) (20 / 2) "|"%string with
  | inl e => inl e
  | inr bar => list_assign bar (Z.of_nat p) bullet
  end = inr (bar_with p).
Proof.
  intros Hp.
  do 20 (destruct p as [ | p]; [try lia; reflexivity | ]). lia.
Qed.

(** X16. [get_orientation_bar] with a non-zero [max_val] raises nothing
    and draws 20 cells: the marker in a cell between 1 and 19, the centre
    line in cell 10 unless the marker is there, dashes elsewhere. For a
    positive [max_val] the marker is in cell 19 from [max_val] on, in cell
    1 down from [-max_val], and in cell 10 for the value 0. With
    [max_val] 0 the division raises. *)
Theorem orientation_bar_shape (value max_val : R) :
  (max_val <> 0 ->
   exists pos,
     (1 <= pos <= 19)%nat
     /\ orientation_bar_cells value max_val = inr (bar_with pos)
     /\ get_orientation_bar value max_val
        = inr (String.concat "" (bar_with pos))
     /\ (0 < max_val -> max_val <= value -> pos = 19%nat)
     /\ (0 < max_val -> value <= - max_val -> pos = 1%nat)
     /\ (value = 0 -> pos = 10%nat))
  /\ (max_val = 0 -> get_orientation_bar value max_val = inl ZeroDivisionError).
Proof.
  split.
  2:{ intros ->. unfold get_orientation_bar, orientation_bar_cells.
      destruct (Req_dec_T 0 0); [reflexivity | contradiction]. }
  intros Hm.
  set (n := Rmax (-1) (Rmin 1 (value / max_val))).
  assert (Hn : -1 <= n <= 1).
  { unfold n. split; [apply Rmax_l | ].
    apply Rmax_lub; [lra | apply Rmin_l]. }
  set (x := 10 + n * (10 - 1)).
  assert (Hx : 1 <= x <= 19) by (unfold x; lra).
  destruct (py_int_bounds x 1 19) as [P1 P2]; [lra | lra | ].
  exists (Z.to_nat (py_int x)).
  assert (Hcells : orientation_bar_cells value max_val
                   = inr (bar_with (Z.to_nat (py_int x)))).
  { unfold orientation_bar_cells.
    destruct (Req_dec_T max_val 0); [contradiction | ].
    cbv zeta. change (IZR (20 / 2)) with 10. fold n. fold x.
    pose proof (assign_marker (Z.to_nat (py_int x))) as A.
    rewrite Z2Nat.id in A by lia. apply A. lia. }
  split; [lia | ]. split; [exact Hcells | ].
  split; [unfold get_orientation_bar; rewrite Hcells; reflexivity | ].
  split; [ | split].
  - intros Hpos Hv.
    assert (Hq : 1 <= value / max_val).
    { apply Rmult_le_reg_r with max_val; [exact Hpos | ].
      unfold Rdiv. rewrite Rmult_assoc, Rinv_l by exact Hm. lra. }
    assert (En : n = 1).
    { unfold n. rewrite Rmin_left by exact Hq. apply Rmax_right. lra. }
    rewrite (py_int_floor x 19); [reflexivity | lra | unfold x; rewrite En; lra].
  - intros Hpos Hv.
    assert (Hq : value / max_val <= -1).
    { apply Rmult_le_reg_r with max_val; [exact Hpos | ].
      unfold Rdiv. rewrite Rmult_assoc, Rinv_l by exact Hm. lra. }
    assert (En : n = -1).
    { unfold n. rewrite Rmin_right by lra. apply Rmax_left. exact Hq. }
    rewrite (py_int_floor x 1); [reflexivity | lra | unfold x; rewrite En; lra].
  - intros ->.
    assert (En : n = 0).
    { unfold n. replace (0 / max_val) with 0 by (field; exact Hm).
      rewrite Rmin_right by lra. apply Rmax_right. lra. }
    rewrite (py_int_floor x 10); [reflexivity | lra | unfold x; rewrite En; lra].
Qed.

Lemma orientation_bar_shape_witness :
  exists pos,
    (1 <= pos <= 19)%nat
    /\ orientation_bar_cells 90 90 = inr (bar_with pos)
    /\ get_orientation_bar 90 90 = inr (String.concat "" (bar_with pos))
    /\ (0 < 90 -> 90 <= 90 -> pos = 19%nat)
    /\ (0 < 90 -> 90 <= - 90 -> pos = 1%nat)
    /\ (90 = 0 -> pos = 10%nat).
Proof.
  apply (proj1 (orientation_bar_shape 90 90)). lra.
Defined.

End TrackerMore.

(* ================================================================= *)
(** * Further properties of the head tracker, on floats *)

Module FloatTrackerMore.
Import PyFloat FTracker FloatTerms PyFloatFacts FWrapFacts FTrackerFacts.
Local Open Scope R_scope.




(** What [(x - x) * s] wraps to. *)
Lemma wrap_difference fuel x s :
  exists y,
    _wrap_angle fuel (mul (sub x x) s) = Returns y /\ zero_or_nan x s y.
Proof.
  unfold zero_or_nan.
  destruct (is_finite x) eqn:Fx.
  - destruct (finite_fin x Fx) as [a Ha].
    pose proof (fin_sub _ _ _ _ Ha Ha) as Hz.
    replace (a - a) with 0 in Hz by ring.
    destruct (is_finite s) eqn:Fs; cbn [andb].
    + destruct (finite_fin s Fs) as [b Hb].
      pose proof (fin_mul _ _ _ _ Hz Hb) as Hm.
      replace (0 * b) with 0 in Hm by ring.
      exists (mul (sub x x) s). split; [ | exact Hm].
      apply (wrap_angle_inside _ 0 fuel Hm). lra.
    + exists NaN. split; [ | reflexivity].
      assert (E : mul (sub x x) s = NaN).
      { pose proof (fin_is_zero _ _ Hz) as Z.
        destruct (Req_dec_T 0 0) as [_ | N]; [ | contradiction].
        destruct (sub x x); destruct s; try discriminate; cbn in *;
          try rewrite Z; reflexivity. }
      rewrite E. apply wrap_angle_NaN.
  - cbn [andb]. exists NaN. split; [ | reflexivity].
    assert (E : mul (sub x x) s = NaN)
      by (destruct x; try discriminate; reflexivity).
    rewrite E. apply wrap_angle_NaN.
Qed.

(** X12. Right after [zero_view], [get_relative_orientation] returns, and
    each of its components is a zero when the angle and its scale are
    finite, and NaN when one of them is not. *)
Theorem zero_view_zeroes_relative_orientation (fuel : nat) (t : HeadTracker) :
  exists o,
    get_relative_orientation fuel (zero_view t) = Returns o
    /\ zero_or_nan (pitch t) (pitch_scale t) (o_pitch o)
    /\ zero_or_nan (yaw t) (yaw_scale t) (o_yaw o)
    /\ zero_or_nan (roll t) (roll_scale t) (o_roll o).
Proof.
  destruct (wrap_difference fuel (pitch t) (pitch_scale t)) as (p & Ep & Hp).
  destruct (wrap_difference fuel (yaw t) (yaw_scale t)) as (y & Ey & Hy).
  destruct (wrap_difference fuel (roll t) (roll_scale t)) as (r & Er & Hr).
  exists {| o_pitch := p; o_yaw := y; o_roll := r |}.
  split; [ | cbn [o_pitch o_yaw o_roll]; auto].
  unfold get_relative_orientation.
  cbn [zero_view pitch yaw roll zero_pitch zero_yaw zero_roll
       pitch_scale yaw_scale roll_scale].
  rewrite Ep, bind_Returns, Ey, bind_Returns, Er, bind_Returns.
  reflexivity.
Qed.

(** X15. On finite rates, biases and threshold,
    [get_movement_description] says "STATIONARY" exactly when the three
    bias-corrected rates are within the movement threshold; on a sample of
    NaNs it says "STATIONARY" too, as no comparison with a NaN holds. *)
Theorem stationary_iff_within_threshold
  (t : HeadTracker) (d : Reading) (vx vy vz bx bY bz thr : R) :
  fin (gx d) vx -> fin (gy d) vy -> fin (gz d) vz ->
  fin (gyro_bias_x t) bx -> fin (gyro_bias_y t) bY -> fin (gyro_bias_z t) bz ->
  fin (movement_threshold t) thr ->
  (get_movement_description t d = "STATIONARY"%string
   <-> (Rabs (vx - bx) <= thr /\ Rabs (vy - bY) <= thr
        /\ Rabs (vz - bz) <= thr))
  /\ get_movement_description t nan_reading = "STATIONARY"%string.
Proof.
  intros Hx Hy Hz Hbx Hby Hbz Ht.
  split.
  - unfold get_movement_description.
    rewrite (fin_gtb _ _ _ _ (fin_abs _ _ (fin_sub _ _ _ _ Hx Hbx)) Ht).
    rewrite (fin_gtb _ _ _ _ (fin_abs _ _ (fin_sub _ _ _ _ Hy Hby)) Ht).
    rewrite (fin_gtb _ _ _ _ (fin_abs _ _ (fin_sub _ _ _ _ Hz Hbz)) Ht).
    destruct (Rlt_dec thr (Rabs (vx - bx)));
      destruct (Rlt_dec thr (Rabs (vy - bY)));
      destruct (Rlt_dec thr (Rabs (vz - bz)));
      repeat match goal with
             | |- context [gtb ?x (Fin 0)] => destruct (gtb x (Fin 0))
             end;
      cbn; (split; [try discriminate; intros _; lra | ]);
      try reflexivity; intros (H1 & H2 & H3); lra.
  - unfold get_movement_description.
    cbn [nan_reading of_float32 gx gy gz].
    assert (E : forall b, gtb (abs (sub NaN b)) (movement_threshold t) = false).
    { intros b. cbn. destruct (movement_threshold t); reflexivity. }
    rewrite !E. reflexivity.
Qed.

Lemma stationary_iff_within_threshold_witness :
  (get_movement_description primed huge_reading = "STATIONARY"%string
   <-> (Rabs (340282346638528859811704183484516925440 - 0) <= 5 / 10
        /\ Rabs (0 - 0) <= 5 / 10 /\ Rabs (0 - 0) <= 5 / 10))
  /\ get_movement_description primed nan_reading = "STATIONARY"%string.
Proof.
  apply (stationary_iff_within_threshold primed huge_reading
           340282346638528859811704183484516925440 0 0 0 0 0 (5 / 10));
    try reflexivity.
  exact FStateFacts.max_float32_value.
Defined.

End FloatTrackerMore.

(* ================================================================= *)
(** * Properties of the console application *)

Module ConsoleMore.
Import Tracker Motion Console.
Local Open Scope R_scope.

Lemma callback_while_calibrating t d key now :
  is_calibrated t = false ->
  head_tracking_callback t d key now = (fst (calibrate_gyroscope t d), None).
Proof.
  intros Hc. unfold head_tracking_callback. rewrite Hc. cbn [negb].
  rewrite Hc. reflexivity.
Qed.

Lemma session_while_calibrating ticks :
  forall t,
    is_calibrated t = false ->
    (calibration_count t + length ticks <= calibration_target t)%nat ->
    session t ticks = (feed t (map (fun k => fst (fst k)) ticks), None).
Proof.
  induction ticks as [ | [[d key] now] rest IH]; intros t Hc Hn;
    [reflexivity | ].
  cbn [session map fst]. rewrite (callback_while_calibrating t d key now Hc).
  change (feed t (d :: map (fun k => fst (fst k)) rest))
    with (feed (fst (calibrate_gyroscope t d)) (map (fun k => fst (fst k)) rest)).
  destruct rest as [ | r rest']; [reflexivity | ].
  cbn [length] in Hn.
  apply IH.
  - unfold calibrate_gyroscope. rewrite Hc.
    destruct (Nat.leb_spec (calibration_target t) (calibration_count t + 1));
      [lia | ]. reflexivity.
  - unfold calibrate_gyroscope. rewrite Hc.
    destruct (Nat.leb_spec (calibration_target t) (calibration_count t + 1));
      [lia | ]. cbn. lia.
Qed.

(** X17. The keyboard cannot disturb a calibration: for the first 500
    samples of a new console application, whatever keys are waiting, also
    Q, the session does not end and the tracker is the one
    [calibrate_gyroscope] builds from the samples alone. *)
Theorem keys_cannot_disturb_calibration (now0 : R) (ticks : list tick) :
  (length ticks <= 500)%nat ->
  session (init now0) ticks
  = (feed (init now0) (map (fun k => fst (fst k)) ticks), None).
Proof.
  intros H. apply session_while_calibrating; [reflexivity | cbn; lia].
Qed.

Lemma keys_cannot_disturb_calibration_witness :
  session (init 0) [(constant_reading 1 2 3, Some "q"%string, 5);
                    (constant_reading 1 2 3, Some "r"%string, 6)]
  = (feed (init 0)
          (map (fun k => fst (fst k))
               [(constant_reading 1 2 3, Some "q"%string, 5);
                (constant_reading 1 2 3, Some "r"%string, 6)]), None).
Proof.
  apply (keys_cannot_disturb_calibration 0). cbn. lia.
Defined.

(** X18. The key R on a calibrated tracker restarts the calibration with
    the sample at hand: after the callback the tracker is not calibrated,
    the bias is 0, this sample is the one sample collected, and the
    orientation and the zero reference are as before. *)
Theorem reset_key_restarts_calibration
  (t : HeadTracker) (d : Reading) (now : R) :
  is_calibrated t = true -> (1 < calibration_target t)%nat ->
  snd (head_tracking_callback t d (Some "r"%string) now) = None
  /\ is_calibrated (fst (head_tracking_callback t d (Some "r"%string) now))
     = false
  /\ calibration_samples (fst (head_tracking_callback t d (Some "r"%string) now))
     = [gyro_of d]
  /\ calibration_count (fst (head_tracking_callback t d (Some "r"%string) now))
     = 1%nat
  /\ gyro_bias_x (fst (head_tracking_callback t d (Some "r"%string) now)) = 0
  /\ gyro_bias_y (fst (head_tracking_callback t d (Some "r"%string) now)) = 0
  /\ gyro_bias_z (fst (head_tracking_callback t d (Some "r"%string) now)) = 0
  /\ pitch (fst (head_tracking_callback t d (Some "r"%string) now)) = pitch t
  /\ yaw (fst (head_tracking_callback t d (Some "r"%string) now)) = yaw t
  /\ roll (fst (head_tracking_callback t d (Some "r"%string) now)) = roll t
  /\ zero_pitch (fst (head_tracking_callback t d (Some "r"%string) now))
     = zero_pitch t
  /\ zero_yaw (fst (head_tracking_callback t d (Some "r"%string) now))
     = zero_yaw t
  /\ zero_roll (fst (head_tracking_callback t d (Some "r"%string) now))
     = zero_roll t.
Proof.
  intros Hc Ht. unfold head_tracking_callback. rewrite Hc.
  cbn [process_keyboard_input String.eqb Ascii.eqb Bool.eqb].
  cbn [reset_calibration is_calibrated negb].
  assert (E : (calibration_target t <=? 1)%nat = false)
    by (apply Nat.leb_gt; exact Ht).
  unfold calibrate_gyroscope. cbn. rewrite E. cbn.
  repeat split; reflexivity.
Qed.

Lemma reset_key_restarts_calibration_witness :
  calibration_count
    (fst (head_tracking_callback primed (constant_reading 1 2 3)
                                 (Some "r"%string) 2)) = 1%nat.
Proof.
  refine (proj1 (proj2 (proj2 (proj2
    (reset_key_restarts_calibration primed (constant_reading 1 2 3) 2
       eq_refl _))))).
  cbn. lia.
Defined.

(** The callback does to the tracker what some calls of its methods do. *)
Lemma callback_calls t d key now :
  exists calls, fst (head_tracking_callback t d key now) = execs t calls.
Proof.
  unfold head_tracking_callback.
  destruct (is_calibrated t) eqn:Hc.
  - unfold process_keyboard_input. destruct key as [k | ].
    + destruct (k =? "")%string.
      { cbn [negb]. rewrite Hc. exists [Update d now]. reflexivity. }
      destruct (k =? "t")%string.
      { cbn [zero_view is_calibrated negb]. rewrite Hc.
        exists [ZeroView; Update d now]. reflexivity. }
      destruct (k =? "r")%string.
      { cbn [reset_calibration is_calibrated negb].
        exists [ResetCalibration; CalibrateGyroscope d]. reflexivity. }
      destruct ((k =? "q")%string || (k =? ctrl_c)%string)%bool.
      { exists []. reflexivity. }
      cbn [negb]. rewrite Hc. exists [Update d now]. reflexivity.
    + cbn [negb]. rewrite Hc. exists [Update d now]. reflexivity.
  - cbn [negb]. rewrite Hc. exists [CalibrateGyroscope d]. reflexivity.
Qed.

Lemma session_ok ticks :
  forall t,
    calibration_ok t /\ orientation_ok t ->
    calibration_ok (fst (session t ticks))
    /\ orientation_ok (fst (session t ticks)).
Proof.
  induction ticks as [ | [[d key] now] ticks IH]; intros t Ht; [exact Ht | ].
  cbn [session].
  destruct (callback_calls t d key now) as [calls E].
  pose proof (InvariantFacts.execs_ok calls t Ht) as Ht'. rewrite <- E in Ht'.
  destruct (head_tracking_callback t d key now) as [t' [e | ]]; cbn [fst] in *.
  - exact Ht'.
  - apply IH. exact Ht'.
Qed.

(** X19. Whatever samples, keys and times the console application meets,
    its tracker keeps the calibration count at most 500, is calibrated
    exactly when the count is 500, and holds as many samples as it
    counted. *)
Theorem console_session_keeps_invariants (now0 : R) (ticks : list tick) :
  (calibration_count (fst (session (init now0) ticks)) <= 500)%nat
  /\ (is_calibrated (fst (session (init now0) ticks)) = true
      <-> calibration_count (fst (session (init now0) ticks)) = 500%nat)
  /\ calibration_count (fst (session (init now0) ticks))
     = length (calibration_samples (fst (session (init now0) ticks))).
Proof.
  destruct (session_ok ticks (init now0) (InvariantFacts.init_ok now0))
    as [(Ht & Hle & Hiff & Hlen) _].
  rewrite Ht in *. auto.
Qed.

Lemma session_app before after :
  forall t t',
    session t before = (t', None) ->
    session t (before ++ after) = session t' after.
Proof.
  induction before as [ | [[d key] now] before IH]; intros t t' H.
  - cbn in H. injection H as ->. reflexivity.
  - cbn [session app] in *.
    destruct (head_tracking_callback t d key now) as [t1 [e | ]];
      [discriminate | ].
    apply IH. exact H.
Qed.

(** X20. The keys Q and Ctrl-C end a session once the tracker is
    calibrated: the session stops at that sample with the tracker as the
    samples before left it; the sample at hand and everything after it are
    not processed. *)
Theorem quit_key_ends_session
  (t t' : HeadTracker) (before rest : list tick)
  (d : Reading) (k : string) (now : R) :
  session t before = (t', None) ->
  is_calibrated t' = true ->
  k = "q"%string \/ k = ctrl_c ->
  session t (before ++ (d, Some k, now) :: rest)
  = (t', Some KeyboardInterrupt).
Proof.
  intros Hb Hc Hk. rewrite (session_app before _ t t' Hb).
  destruct Hk as [-> | ->]; cbn [session]; unfold head_tracking_callback;
    rewrite Hc; reflexivity.
Qed.

Lemma quit_key_ends_session_witness :
  session primed ([] ++ (constant_reading 1 2 3, Some "q"%string, 2)
                     :: [(constant_reading 1 2 3, None, 3)])
  = (primed, Some KeyboardInterrupt).
Proof.
  apply (quit_key_ends_session primed primed [] _ (constant_reading 1 2 3)
           "q" 2);
    [reflexivity | reflexivity | left; reflexivity].
Defined.

End ConsoleMore.

(* ================================================================= *)
(** * Properties of the 3D view *)

Module ViewMore.
Import Motion Posture View3D.
Local Open Scope R_scope.


Lemma imu_callback_sensitivity app d now :
  camera_sensitivity (imu_callback app d now) = camera_sensitivity app.
Proof.
  unfold imu_callback.
  destruct (negb (Tracker.is_calibrated (head_tracker app))); reflexivity.
Qed.

Lemma handle_event_sensitivity app e :
  1 / 10 <= camera_sensitivity app <= 2 ->
  1 / 10 <= camera_sensitivity (handle_event app e) <= 2.
Proof.
  intros Hs.
  destruct e as [ | [ | | | | | | | ] | ]; cbn; auto.
  - split; [apply Rmin_glb; lra | apply Rmin_l].
  - split; [apply Rmin_glb; lra | apply Rmin_l].
  - split; [apply Rmax_l | apply Rmax_lub; lra].
Qed.

Lemma handle_events_sensitivity events :
  forall app,
    1 / 10 <= camera_sensitivity app <= 2 ->
    1 / 10 <= camera_sensitivity (handle_events app events) <= 2.
Proof.
  induction events as [ | e events IH]; intros app H; [exact H | ].
  cbn [handle_events fold_left]. apply IH. apply handle_event_sensitivity.
  exact H.
Qed.

(** X21. In every state of the 3D application the camera sensitivity is
    between 0.1 and 2, whatever samples and key events arrive. *)
Theorem view_stays_bounded (now : R) (steps : list step) :
  1 / 10 <= camera_sensitivity (execs (init now) steps) <= 2.
Proof.
  assert (H : forall steps app,
            1 / 10 <= camera_sensitivity app <= 2 ->
            1 / 10 <= camera_sensitivity (execs app steps) <= 2).
  { clear. intros steps. induction steps as [ | s steps IH]; intros app H;
      [exact H | ].
    cbn [execs fold_left]. apply IH.
    destruct s as [d now | es]; cbn [exec].
    - rewrite imu_callback_sensitivity. exact H.
    - apply handle_events_sensitivity. exact H. }
  apply (H steps (init now)). cbn. lra.
Qed.

Lemma handle_event_running app e :
  running (handle_event app e) = (running app && negb (stops e))%bool.
Proof.
  destruct e as [ | [ | | | | | | | ] | ]; cbn;
    rewrite ?andb_false_r, ?andb_true_r; reflexivity.
Qed.

(** X23. [handle_events] stops the application exactly when one of the
    events is a window close, Escape or Q, wherever it is in the batch, and
    nothing sets [running] again: the application runs after a sequence of
    samples and events only if it ran before and no such event was in
    it. *)
Theorem running_only_goes_off (app : HeadTracking3D) (events : list event) :
  running (handle_events app events)
  = (running app && negb (existsb stops events))%bool
  /\ (forall steps, running (execs app steps) = true -> running app = true).
Proof.
  split.
  - revert app. induction events as [ | e events IH]; intros app.
    + cbn. rewrite andb_true_r. reflexivity.
    + cbn [handle_events fold_left existsb].
      change (fold_left handle_event events (handle_event app e))
        with (handle_events (handle_event app e) events).
      rewrite IH, handle_event_running, negb_orb, andb_assoc. reflexivity.
  - assert (Hev : forall es a, running (handle_events a es) = true ->
                               running a = true).
    { intros es. induction es as [ | e es IHes]; intros a H; [exact H | ].
      cbn [handle_events fold_left] in H.
      change (fold_left handle_event es (handle_event a e))
        with (handle_events (handle_event a e) es) in H.
      apply IHes in H. rewrite handle_event_running in H.
      apply andb_true_iff in H. tauto. }
    intros steps. revert app.
    induction steps as [ | s steps IH]; intros app H; [exact H | ].
    cbn [execs fold_left] in H.
    change (fold_left exec steps (exec app s)) with (execs (exec app s) steps)
      in H.
    apply IH in H. destruct s as [d now | es]; cbn [exec] in H.
    + unfold imu_callback in H.
      destruct (negb (Tracker.is_calibrated (head_tracker app))); exact H.
    + apply (Hev es). exact H.
Qed.

Lemma running_only_goes_off_witness :
  running (init 0) = true.
Proof.
  apply (proj2 (running_only_goes_off (init 0) [])
           [Events [KEYDOWN K_t; KEYDOWN K_PLUS]; Events [OtherEvent]]).
  reflexivity.
Defined.

End ViewMore.
